(** * D4C manga downloader: a shallow embedding of [m4l.py] and [M4L2.py]

    The two Python files are two variants of one downloader class,
    [MangaDownloader].  Everything up to the fetch pass is the same code in
    both files and is embedded once; the fetch pass and the batch driver
    differ and live in the modules [m4l] and [M4L2].  The functions
    outside the class ([parse_chapters] and the two [main]) come after
    the modules.

    Conventions of the embedding.
    - A Python [str] is a Rocq [string].  The embedding is exact on ASCII
      text: [str.upper], [str.title], [\s], [int] and [str.splitlines] are
      the ASCII restrictions of the Python functions, and a character above
      code 127 is carried around unchanged (no case, no white space, no
      line break).  The lines of [__init__] that make the slug are given a
      second time on code points ([text_slugify]), with the case data of
      two code points beyond ASCII.
    - Python's unbounded [int] is [Z] where it can be negative (the result
      of [int(...)]) and [nat] for the counters, which start at 0 or 1 and
      only grow.
    - Effects (network, file system, ledger file, progress bar, module
      global) are threaded through an explicit [world]; an exception stops
      the computation and keeps the world reached so far.
    - A GET is answered with a status and a body, or fails with an
      [aiohttp.ClientError]: before the status has arrived, or later,
      when the body is read.
    - The disk never fails: a directory can always be made and a file
      always be written.  A path is the list of its parts, as pathlib on
      a POSIX system has them, the root being the first part of an
      absolute path.  The manga folder is joined to MANGA as pathlib
      joins a text; a chapter folder and a page file add one part each to
      the folder above them, as pathlib does for a formatted chapter
      number without a slash.
    - A coroutine is run from its first line to its last: the [await]s of
      m4l.py are all sequential, and the one [asyncio.gather] of M4L2.py
      is discussed where it is embedded.
    - [logging] and [print] calls are not part of the model. *)

From Stdlib Require Import ZArith NArith Ascii String List Bool Lia Sorted.
From Stdlib Require Import DecimalString DecimalN.
From stdpp Require Import base option list gmap sets strings.


(** ** Characters *)

Definition dquote : ascii := ascii_of_nat 34.
Definition dot : ascii := ascii_of_nat 46.
Definition hyphen : ascii := ascii_of_nat 45.
Definition underscore : ascii := ascii_of_nat 95.
Definition lbrace : ascii := ascii_of_nat 123.
Definition rbrace : ascii := ascii_of_nat 125.
Definition LF : ascii := ascii_of_nat 10.
Definition CR : ascii := ascii_of_nat 13.

Definition between (lo hi : N) (c : ascii) : bool :=
  let n := N_of_ascii c in (lo <=? n)%N && (n <=? hi)%N.

(** [str.isspace] on one ASCII character, which is also what [\s] matches
    and what [str.strip] removes: TAB, LF, VT, FF, CR, the four
    separators FS, GS, RS, US, and the space. *)
Definition is_space (c : ascii) : bool := between 9 13 c || between 28 32 c.

(** The white space that [int] skips around the digits of an ASCII text:
    TAB, LF, VT, FF, CR and the space.  The four separators are not part
    of it: [int] refuses a text that holds one. *)
Definition is_int_space (c : ascii) : bool :=
  between 9 13 c || Ascii.eqb c (ascii_of_nat 32).

Definition is_lower (c : ascii) : bool := between 97 122 c.
Definition is_upper (c : ascii) : bool := between 65 90 c.
Definition is_cased (c : ascii) : bool := is_lower c || is_upper c.
Definition is_digit (c : ascii) : bool := between 48 57 c.

Definition upper_char (c : ascii) : ascii :=
  if is_lower c then ascii_of_N (N_of_ascii c - 32) else c.
Definition lower_char (c : ascii) : ascii :=
  if is_upper c then ascii_of_N (N_of_ascii c + 32) else c.

(** ** [str.upper], [str.title], [re.sub(r'\s+', '-', _)] *)

Fixpoint upper (s : string) : string :=
  match s with
  | EmptyString => EmptyString
  | String c r => String (upper_char c) (upper r)
  end.

(** [str.title]: a character that follows a cased character is lowered,
    any other character is put in title case (upper case, for ASCII). *)
Fixpoint title_from (previous_is_cased : bool) (s : string) : string :=
  match s with
  | EmptyString => EmptyString
  | String c r =>
      String (if previous_is_cased then lower_char c else upper_char c)
             (title_from (is_cased c) r)
  end.

Definition title (s : string) : string := title_from false s.

(** [re.sub(r'\s+', '-', s)]: [in_run] says that the previous character
    was white space, whose run has already been replaced. *)
Fixpoint sub_spaces_from (in_run : bool) (s : string) : string :=
  match s with
  | EmptyString => EmptyString
  | String c r =>
      if is_space c
      then (if in_run then sub_spaces_from true r
            else String hyphen (sub_spaces_from true r))
      else String c (sub_spaces_from false r)
  end.

Definition sub_spaces (s : string) : string := sub_spaces_from false s.

(** [__init__], lines 26-32 of m4l.py (19-23 of M4L2.py). *)
Definition manga_name_of (manga_name : string) (uppercase edit : bool) : string :=
  if edit then manga_name
  else if uppercase then upper manga_name else title manga_name.

Definition formatted_manga_name_of (manga_name : string) (uppercase edit : bool)
  : string :=
  sub_spaces (manga_name_of manga_name uppercase edit).

(** The spec calls the title-to-slug function of [__init__] [slugify]. *)
Definition slugify := formatted_manga_name_of.

(** ** Titles beyond ASCII *)

(** Lines 26-32 of m4l.py on a text given by its code points.  The case
    data are those of the Unicode database for the ASCII characters, for
    U+01F0 (the small j with caron: a cased letter, whose upper case and
    title case are J followed by the combining caron U+030C, and which is
    its own lower case) and for U+030C (no case, no white space); any
    other code point is carried unchanged.  [str.upper] and [str.title]
    can write two code points for one. *)
Definition j_caron : N := 496.
Definition combining_caron : N := 780.

Definition code_is_lower (c : N) : bool := N.leb 97 c && N.leb c 122.
Definition code_is_upper (c : N) : bool := N.leb 65 c && N.leb c 90.
Definition code_is_cased (c : N) : bool :=
  code_is_lower c || code_is_upper c || N.eqb c j_caron.
Definition code_is_space (c : N) : bool :=
  N.leb 9 c && N.leb c 13 || N.leb 28 c && N.leb c 32.

Definition code_upper (c : N) : list N :=
  if N.eqb c j_caron then [74%N; combining_caron]
  else if code_is_lower c then [(c - 32)%N] else [c].
Definition code_title (c : N) : list N := code_upper c.
Definition code_lower (c : N) : list N :=
  if code_is_upper c then [(c + 32)%N] else [c].

Fixpoint text_upper (s : list N) : list N :=
  match s with
  | [] => []
  | c :: r => code_upper c ++ text_upper r
  end.

Fixpoint text_title_from (previous_is_cased : bool) (s : list N) : list N :=
  match s with
  | [] => []
  | c :: r =>
      (if previous_is_cased then code_lower c else code_title c)
      ++ text_title_from (code_is_cased c) r
  end.

Fixpoint text_sub_spaces_from (in_run : bool) (s : list N) : list N :=
  match s with
  | [] => []
  | c :: r =>
      if code_is_space c
      then (if in_run then text_sub_spaces_from true r
            else N_of_ascii hyphen :: text_sub_spaces_from true r)
      else c :: text_sub_spaces_from false r
  end.

Definition text_slugify (manga_name : list N) (uppercase edit : bool) : list N :=
  text_sub_spaces_from false
    (if edit then manga_name
     else if uppercase then text_upper manga_name
     else text_title_from false manga_name).

(** ** Exceptions and results *)

(** The exceptions the modelled code can raise.  [FormatError] stands for
    the [ValueError], [IndexError] or [KeyError] that [str.format] raises
    on a brace it cannot read. *)
Inductive exn : Type :=
  | ValueError
  | FormatError
  | ClientError
  | ZeroDivisionError
  | NameError
  | KeyError.

(** The result of running a piece of code: a value, an exception, or
    [OutOfFuel] when a [while True] loop was cut by the step budget. *)
Inductive result (A : Type) : Type :=
  | Ok (a : A)
  | Raise (e : exn)
  | OutOfFuel.

Arguments Ok {A} a.
Arguments Raise {A} e.
Arguments OutOfFuel {A}.

(** ** [int(...)] and the [d] format *)

Fixpoint lstrip (s : string) : string :=
  match s with
  | EmptyString => EmptyString
  | String c r => if is_space c then lstrip r else s
  end.

Fixpoint rev_onto (s acc : string) : string :=
  match s with
  | EmptyString => acc
  | String c r => rev_onto r (String c acc)
  end.

Definition string_rev (s : string) : string := rev_onto s EmptyString.

(** [str.strip()]. *)
Definition strip (s : string) : string :=
  string_rev (lstrip (string_rev (lstrip s))).

(** What [int] makes of the white space around the digits. *)
Fixpoint int_lstrip (s : string) : string :=
  match s with
  | EmptyString => EmptyString
  | String c r => if is_int_space c then int_lstrip r else s
  end.

Definition int_strip (s : string) : string :=
  string_rev (int_lstrip (string_rev (int_lstrip s))).

Definition digit_value (c : ascii) : Z := Z.of_N (N_of_ascii c - 48).

(** The digits of an [int] literal: at least one digit, and single
    underscores only between two digits. *)
Fixpoint digits_from (acc : Z) (after_digit : bool) (s : string) : option Z :=
  match s with
  | EmptyString => if after_digit then Some acc else None
  | String c r =>
      if is_digit c then digits_from (10 * acc + digit_value c) true r
      else if Ascii.eqb c underscore && after_digit then
        match r with
        | String d _ => if is_digit d then digits_from acc false r else None
        | EmptyString => None
        end
      else None
  end.

(** [int(s)] in base 10; [None] is Python's [ValueError].  (The limit
    that recent interpreters put on the number of digits is not
    modelled.) *)
Definition py_int (s : string) : option Z :=
  match int_strip s with
  | String c r =>
      if Ascii.eqb c hyphen then option_map Z.opp (digits_from 0 false r)
      else if Ascii.eqb c (ascii_of_nat 43) then digits_from 0 false r
      else digits_from 0 false (String c r)
  | EmptyString => None
  end.

Fixpoint zeros (n : nat) : string :=
  match n with
  | O => EmptyString
  | S m => String (ascii_of_nat 48) (zeros m)
  end.

Definition zfill (width : nat) (digits : string) : string :=
  zeros (width - String.length digits) +:+ digits.

Definition decimal (n : N) : string := NilZero.string_of_uint (N.to_uint n).

(** The f-string field [{n:0<width>d}]: the sign counts in the width. *)
Definition format_0d (width : nat) (n : Z) : string :=
  if (n <? 0)%Z
  then String hyphen (zfill (width - 1) (decimal (Z.abs_N n)))
  else zfill width (decimal (Z.abs_N n)).

(** [s.split(sep)] for a one-character separator. *)
Fixpoint split_on (sep : ascii) (s : string) : list string :=
  match s with
  | EmptyString => [EmptyString]
  | String c r =>
      if Ascii.eqb c sep then EmptyString :: split_on sep r
      else match split_on sep r with
           | h :: t => String c h :: t
           | [] => [String c EmptyString]
           end
  end.

(** [format_chapter_number], lines 39-48 of m4l.py (30-36 of M4L2.py).
    The tuple assignment raises [ValueError] unless [split] gives exactly
    two parts, and so does [int] on a text that is not an integer. *)
Definition format_chapter_number (chapter_number : string) : result string :=
  match split_on dot chapter_number with
  | [_] =>
      match py_int chapter_number with
      | Some n => Ok (format_0d 4 n)
      | None => Raise ValueError
      end
  | [integer_part; decimal_part] =>
      match py_int integer_part with
      | Some n => Ok (format_0d 4 n +:+ String dot decimal_part)
      | None => Raise ValueError
      end
  | _ => Raise ValueError
  end.

(** ** [generate_image_url] *)

(** What [str.format] makes of [manga_address], which the f-string of
    line 54 has pasted into the template: a doubled brace is an escaped
    brace, and any other brace opens a field the three arguments cannot
    fill, or is a stray closing brace. *)
Fixpoint format_literal (s : string) : option string :=
  match s with
  | EmptyString => Some EmptyString
  | String c r =>
      if Ascii.eqb c lbrace || Ascii.eqb c rbrace then
        match r with
        | String d r' =>
            if Ascii.eqb d c then option_map (String c) (format_literal r')
            else None
        | EmptyString => None
        end
      else option_map (String c) (format_literal r)
  end.

(** [generate_image_url], lines 50-56 of m4l.py (38-41 of M4L2.py).  The
    name and the chapter number fill a field and are copied as they are. *)
Definition generate_image_url (formatted_manga_name chapter_number : string)
    (png_number : nat) (manga_address : string) : result string :=
  match format_literal manga_address with
  | Some address =>
      Ok ("https://" +:+ address +:+ "/manga/" +:+ formatted_manga_name +:+ "/"
          +:+ chapter_number +:+ "-" +:+ format_0d 3 (Z.of_nat png_number)
          +:+ ".png")
  | None => Raise FormatError
  end.

(** ** [extract_text_from_html] *)

Fixpoint strip_prefix (p s : string) : option string :=
  match p, s with
  | EmptyString, _ => Some s
  | String a p', String b s' => if Ascii.eqb a b then strip_prefix p' s' else None
  | String _ _, EmptyString => None
  end.

(** The group of the pattern and the closing quote after it: the text
    before the first double quote, provided there is one. *)
Fixpoint until_quote (s : string) : option string :=
  match s with
  | EmptyString => None
  | String c r =>
      if Ascii.eqb c dquote then Some EmptyString
      else option_map (String c) (until_quote r)
  end.

(** The pattern of line 80, [vm\.CurPathName\s*=\s*Q([^Q]+)Q] with Q the
    double quote, tried at the start of [s].  Every repetition is followed
    by a character it cannot match, so the greedy reading is the only
    one. *)
Definition match_here (s : string) : option string :=
  match strip_prefix "vm.CurPathName" s with
  | Some r =>
      match lstrip r with
      | String c1 r1 =>
          if Ascii.eqb c1 (ascii_of_nat 61) then
            match lstrip r1 with
            | String c2 r2 =>
                if Ascii.eqb c2 dquote then
                  match until_quote r2 with
                  | Some EmptyString => None
                  | Some g => Some g
                  | None => None
                  end
                else None
            | EmptyString => None
            end
          else None
      | EmptyString => None
      end
  | None => None
  end.

(** [extract_text_from_html], lines 76-82 of m4l.py (59-62 of M4L2.py):
    [matches[0]] of [findall] is the group of the leftmost match. *)
Fixpoint extract_text_from_html (html_content : string) : option string :=
  match match_here html_content with
  | Some g => Some g
  | None =>
      match html_content with
      | EmptyString => None
      | String _ r => extract_text_from_html r
      end
  end.

(** Python's truth value of [manga_address]: [None] and the empty text
    are false. *)
Definition truthy (manga_address : option string) : option string :=
  match manga_address with
  | Some EmptyString => None
  | other => other
  end.

(** ** The ledger text *)

(** The ASCII line boundaries of [str.splitlines]: LF, VT, FF, CR and
    the separators FS, GS, RS. *)
Definition is_linebreak (c : ascii) : bool := between 10 13 c || between 28 30 c.

(** [str.splitlines()]: CR LF is one boundary, and a final boundary opens
    no further line. *)
Fixpoint splitlines (s : string) : list string :=
  match s with
  | EmptyString => []
  | String c r =>
      if is_linebreak c then
        match r with
        | String c' r' =>
            if Ascii.eqb c CR && Ascii.eqb c' LF
            then EmptyString :: splitlines r'
            else EmptyString :: splitlines r
        | EmptyString => [EmptyString]
        end
      else
        match splitlines r with
        | h :: t => String c h :: t
        | [] => [String c EmptyString]
        end
  end.

(** Reading a file opened in text mode: CR LF and CR arrive as LF. *)
Fixpoint universal_newlines (s : string) : string :=
  match s with
  | EmptyString => EmptyString
  | String c r =>
      if Ascii.eqb c CR then
        match r with
        | String c' r' =>
            if Ascii.eqb c' LF then String LF (universal_newlines r')
            else String LF (universal_newlines r)
        | EmptyString => String LF EmptyString
        end
      else String c (universal_newlines r)
  end.

Definition mem_string (x : string) (l : list string) : bool :=
  existsb (String.eqb x) l.

(** What [save_history] (lines 216-221 of m4l.py, 176-181 of M4L2.py)
    leaves in the ledger file whose content was [content]: opened with
    [a+], the file is read from the start and the write goes to its end.
    The line separator written is the POSIX one. *)
Definition append_history (content manga_name : string) : string :=
  let history := universal_newlines content in
  let history_lines := splitlines history in
  if negb (mem_string manga_name history_lines)
  then content +:+ manga_name +:+ String LF EmptyString
  else content.

(** ** The world: remote server, local disk, terminal *)

(** A path as pathlib composes it with [/], one text per component. *)
Definition path : Type := list string.

(** The four places of the source that issue a GET: the chapter viewer
    page and its index-2 variant in [extract_text_from_url], the
    existence probe of a counting loop, and [download_image]. *)
Inductive call_site : Type :=
  | ViewerPage
  | AlternatePage
  | ProbePage
  | FetchPage.

Definition request : Type := (call_site * string)%type.

(** What a GET yields: a response with its status and body; an
    [aiohttp.ClientError] before any status has arrived; or a response
    whose status arrives and whose body does not, so that reading it
    raises [aiohttp.ClientPayloadError], which is a [ClientError].  (A
    failure that is no [ClientError], such as the [asyncio.TimeoutError]
    of the total timeout or a body that cannot be decoded, is not
    modelled.) *)
Inductive reply : Type :=
  | Response (status : nat) (body : string)
  | Unreachable
  | Truncated (status : nat).

(** [server] is the remote side: its answer may depend on how many
    requests were made before.  [requests] is the log of the GETs issued,
    [dirs] and [files] the directories and page files on disk,
    [history_file] the content of download_history.txt when it exists,
    [frames] the (current, total) pairs the progress bar has drawn, and
    [total_chapters_pages] the module global of m4l.py, unbound at first. *)
Record world : Type := World {
  server : nat -> string -> reply;
  requests : list request;
  dirs : gset path;
  files : gmap path string;
  history_file : option string;
  frames : list (nat * nat);
  total_chapters_pages : option nat
}.

Definition initial_world (srv : nat -> string -> reply) : world :=
  World srv [] ∅ ∅ None [] None.

Definition log_request (r : request) (w : world) : world :=
  World (server w) (requests w ++ [r]) (dirs w) (files w) (history_file w)
        (frames w) (total_chapters_pages w).

Definition add_dirs (ds : gset path) (w : world) : world :=
  World (server w) (requests w) (dirs w ∪ ds) (files w) (history_file w)
        (frames w) (total_chapters_pages w).

Definition put_file (p : path) (content : string) (w : world) : world :=
  World (server w) (requests w) (dirs w) (<[p := content]> (files w))
        (history_file w) (frames w) (total_chapters_pages w).

Definition put_history (content : string) (w : world) : world :=
  World (server w) (requests w) (dirs w) (files w) (Some content)
        (frames w) (total_chapters_pages w).

Definition add_frame (f : nat * nat) (w : world) : world :=
  World (server w) (requests w) (dirs w) (files w) (history_file w)
        (frames w ++ [f]) (total_chapters_pages w).

Definition put_total (n : nat) (w : world) : world :=
  World (server w) (requests w) (dirs w) (files w) (history_file w)
        (frames w) (Some n).

(** ** Computations *)

Definition M (A : Type) : Type := world -> result A * world.

Definition ret {A : Type} (a : A) : M A := fun w => (Ok a, w).

Definition bind {A B : Type} (m : M A) (k : A -> M B) : M B :=
  fun w =>
    match m w with
    | (Ok a, w') => k a w'
    | (Raise e, w') => (Raise e, w')
    | (OutOfFuel, w') => (OutOfFuel, w')
    end.

Definition lift {A : Type} (r : result A) : M A := fun w => (r, w).

Definition raise {A : Type} (e : exn) : M A := lift (Raise e).

Definition modify (f : world -> world) : M unit := fun w => (Ok tt, f w).

Definition gets {A : Type} (f : world -> A) : M A := fun w => (Ok (f w), w).

Notation "x <- m ;; k" := (bind m (fun x => k))
  (at level 100, m at next level, right associativity).

(** [try: body / except aiohttp.ClientError: handler]. *)
Definition except_client_error {A : Type} (body handler : M A) : M A :=
  fun w =>
    match body w with
    | (Raise ClientError, w') => handler w'
    | other => other
    end.

(** A [for] loop over a list. *)
Fixpoint for_each {A : Type} (l : list A) (body : A -> M unit) : M unit :=
  match l with
  | [] => ret tt
  | x :: r => _ <- body x ;; for_each r body
  end.

(** [async with session.get(url) as response]: the status, and the body
    that a later [read] or [text] yields, if it arrives. *)
Definition session_get (site : call_site) (url : string)
  : M (nat * option string) :=
  fun w =>
    let w' := log_request (site, url) w in
    match server w (length (requests w)) url with
    | Response status body => (Ok (status, Some body), w')
    | Unreachable => (Raise ClientError, w')
    | Truncated status => (Ok (status, None), w')
    end.

(** [await response.read()] and [await response.text()]. *)
Definition read_body (response : nat * option string) : M string :=
  match snd response with
  | Some body => ret body
  | None => raise ClientError
  end.

(** [p.mkdir(parents=True, exist_ok=True)]: [p] and the directories
    above it. *)
Definition ancestors (p : path) : list path :=
  map (fun n => take n p) (seq 1 (length p)).

Definition mkdir_parents (p : path) : M unit :=
  modify (add_dirs (list_to_set (ancestors p))).

Definition parent (p : path) : path := take (length p - 1) p.

(** ** The downloader *)

Record downloader : Type := Downloader {
  manga_name : string;
  formatted_manga_name : string;
  manga_folder : path
}.

Definition slash : ascii := ascii_of_nat 47.

(** The parts that pathlib reads in a text: the pieces between slashes,
    the empty pieces and the single dots left out. *)
Definition path_parts (s : string) : list string :=
  List.filter
    (fun piece => negb (String.eqb piece EmptyString) && negb (String.eqb piece "."))
    (split_on slash s).

(** The root of a text that starts with a slash: two slashes, and no
    more than two, stay two. *)
Definition path_root (s : string) : string :=
  match s with
  | String _ (String c2 r) =>
      if Ascii.eqb c2 slash then
        match r with
        | String c3 _ => if Ascii.eqb c3 slash then "/" else "//"
        | EmptyString => "//"
        end
      else "/"
  | _ => "/"
  end.

(** [base / s] of pathlib, for a relative [base]: a text that starts
    with a slash is an absolute path and takes the place of [base]. *)
Definition joinpath (base : path) (s : string) : path :=
  match s with
  | String c _ =>
      if Ascii.eqb c slash then path_root s :: path_parts s
      else base ++ path_parts s
  | EmptyString => base
  end.

(** [__init__], lines 22-37 of m4l.py (18-28 of M4L2.py). *)
Definition init (name : string) (uppercase edit : bool) : M downloader :=
  let manga_name := manga_name_of name uppercase edit in
  let formatted_manga_name := sub_spaces manga_name in
  let manga_folder := joinpath ["MANGA"] formatted_manga_name in
  _ <- mkdir_parents manga_folder ;;
  ret (Downloader manga_name formatted_manga_name manga_folder).

Section Methods.

Variable self : downloader.

(** [download_image], lines 58-74 of m4l.py (43-57 of M4L2.py).  The
    file is opened for writing, which makes it or empties it, before the
    body is read. *)
Definition download_image (url : string) (p : path) : M bool :=
  except_client_error
    (response <- session_get FetchPage url ;;
     if Nat.eqb (fst response) 200 then
       _ <- mkdir_parents (parent p) ;;
       _ <- modify (put_file p EmptyString) ;;
       body <- read_body response ;;
       _ <- modify (put_file p body) ;;
       ret true
     else ret false)
    (ret false).

Definition viewer_url (formatted_chapter_number suffix : string) : string :=
  "https://manga4life.com/read-online/" +:+ formatted_manga_name self
  +:+ "-chapter-" +:+ formatted_chapter_number +:+ suffix +:+ ".html".

(** [extract_text_from_url], lines 84-108 of m4l.py (64-87 of M4L2.py).
    The chapter number is formatted before the [try]; the alternate GET
    is inside it. *)
Definition extract_text_from_url (chapter_number : string) : M (option string) :=
  formatted_chapter_number <- lift (format_chapter_number chapter_number) ;;
  except_client_error
    (response <- session_get ViewerPage (viewer_url formatted_chapter_number "") ;;
     if Nat.eqb (fst response) 200 then
       html_content <- read_body response ;;
       let manga_address := extract_text_from_html html_content in
       match truthy manga_address with
       | Some _ => ret manga_address
       | None =>
           alt_response <-
             session_get AlternatePage
               (viewer_url formatted_chapter_number "-index-2") ;;
           if Nat.eqb (fst alt_response) 200 then
             html_content <- read_body alt_response ;;
             ret (extract_text_from_html html_content)
           else ret manga_address
       end
     else ret None)
    (ret None).

(** The [while True] loop of lines 119-126 of m4l.py (95-102 and again
    116-123 of M4L2.py); [fuel] bounds the number of probes. *)
Fixpoint probe_loop (fuel : nat) (formatted_chapter_number manga_address : string)
    (png_number page_count : nat) : M nat :=
  match fuel with
  | O => lift OutOfFuel
  | S fuel' =>
      url <- lift (generate_image_url (formatted_manga_name self)
                     formatted_chapter_number png_number manga_address) ;;
      response <- session_get ProbePage url ;;
      if Nat.eqb (fst response) 200
      then probe_loop fuel' formatted_chapter_number manga_address
             (S png_number) (S page_count)
      else ret page_count
  end.

(** [count_pages_in_chapter], lines 110-128 of m4l.py (89-104 of
    M4L2.py). *)
Definition count_pages_in_chapter (fuel : nat) (chapter_number : string) : M nat :=
  formatted_chapter_number <- lift (format_chapter_number chapter_number) ;;
  manga_address <- extract_text_from_url formatted_chapter_number ;;
  match truthy manga_address with
  | Some address => probe_loop fuel formatted_chapter_number address 1 0
  | None => ret 0
  end.

(** [save_history], lines 210-222 of m4l.py (173-182 of M4L2.py): a
    missing ledger file is created empty first. *)
Definition save_history (name : string) : M unit :=
  modify (fun w =>
            let content := default EmptyString (history_file w) in
            put_history (append_history content name) w).

(** [load_history], lines 224-237 of m4l.py (184-193 of M4L2.py): the
    text read from the ledger file, which the two files then display in
    their own ways, or [None] when there is no such file. *)
Definition load_history : M (option string) :=
  gets (fun w => option_map universal_newlines (history_file w)).

(** The confirmation gate: [input(...).strip().upper() != 'Y'] is false. *)
Definition proceeds (user_input : string) : bool :=
  String.eqb (upper (strip user_input)) "Y".

End Methods.

(** ** m4l.py: progress bar, fetch pass, batch driver *)

Module m4l.

(** Reading the module global [total_chapters_pages]. *)
Definition read_total : M nat :=
  bound <- gets total_chapters_pages ;;
  match bound with
  | Some n => ret n
  | None => raise NameError
  end.

(** [colorful_progress_bar], lines 130-149: the division of line 135
    comes before anything is drawn. *)
Definition colorful_progress_bar (current total : nat) : M unit :=
  let current := Nat.min current total in
  if Nat.eqb total 0 then raise ZeroDivisionError
  else modify (add_frame (current, total)).

Section Methods.

Variable self : downloader.

(** The body of the [for] loop of lines 161-167. *)
Definition fetch_page (formatted_chapter_number manga_address : string)
    (chapter_folder : path) (total_pages chapter_index png_number : nat) : M unit :=
  url <- lift (generate_image_url (formatted_manga_name self)
                 formatted_chapter_number png_number manga_address) ;;
  let image_filename := format_0d 3 (Z.of_nat png_number) +:+ ".png" in
  let image_path := chapter_folder ++ [image_filename] in
  downloaded <- download_image url image_path ;;
  if downloaded : bool then
    let overall_progress := chapter_index * total_pages + png_number in
    total <- read_total ;;
    colorful_progress_bar overall_progress total
  else ret tt.

(** [download_chapter_images], lines 151-171. *)
Definition download_chapter_images (chapter_number : string)
    (total_pages chapter_index : nat) : M bool :=
  formatted_chapter_number <- lift (format_chapter_number chapter_number) ;;
  manga_address <- extract_text_from_url self formatted_chapter_number ;;
  match truthy manga_address with
  | Some address =>
      let chapter_folder :=
        manga_folder self ++ ["Chapter-" +:+ formatted_chapter_number] in
      _ <- mkdir_parents chapter_folder ;;
      _ <- for_each (seq 1 total_pages)
             (fetch_page formatted_chapter_number address chapter_folder
                total_pages chapter_index) ;;
      ret true
  | None => ret false
  end.

(** The counting pass, lines 184-187: the dictionary built so far goes
    in and comes out, the total lives in the module global. *)
Fixpoint counting_pass (fuel : nat) (chapters : list string)
    (pages_per_chapter : gmap string nat) : M (gmap string nat) :=
  match chapters with
  | [] => ret pages_per_chapter
  | chapter_number :: rest =>
      page_count <- count_pages_in_chapter self fuel chapter_number ;;
      total <- read_total ;;
      _ <- modify (put_total (total + page_count)) ;;
      counting_pass fuel rest (<[chapter_number := page_count]> pages_per_chapter)
  end.

(** The fetch pass, lines 200-202; [chapter_index] is the position that
    [enumerate] gives to the head of [chapters]. *)
Fixpoint fetch_pass (pages_per_chapter : gmap string nat) (chapter_index : nat)
    (chapters : list string) : M unit :=
  match chapters with
  | [] => ret tt
  | chapter_number :: rest =>
      total_pages <-
        match pages_per_chapter !! chapter_number with
        | Some n => ret n
        | None => raise KeyError
        end ;;
      _ <- download_chapter_images chapter_number total_pages chapter_index ;;
      fetch_pass pages_per_chapter (S chapter_index) rest
  end.

(** [download_chapters], lines 173-208; [user_input] is the line typed
    at the prompt of line 192. *)
Definition download_chapters (fuel : nat) (chapters_to_download : list string)
    (user_input : string) : M unit :=
  _ <- modify (put_total 0) ;;
  pages_per_chapter <- counting_pass fuel chapters_to_download ∅ ;;
  if negb (proceeds user_input) then ret tt
  else
    _ <- fetch_pass pages_per_chapter 0 chapters_to_download ;;
    total <- read_total ;;
    _ <- colorful_progress_bar total total ;;
    save_history (manga_name self).

End Methods.

End m4l.

(** ** M4L2.py: fetch pass and batch driver *)

Module M4L2.

Section Methods.

Variable self : downloader.

(** The body of the [while] loop of lines 129-135. *)
Definition fetch_page (formatted_chapter_number manga_address : string)
    (chapter_folder : path) (png_number : nat) : M unit :=
  url <- lift (generate_image_url (formatted_manga_name self)
                 formatted_chapter_number png_number manga_address) ;;
  let image_filename := format_0d 3 (Z.of_nat png_number) +:+ ".png" in
  let image_path := chapter_folder ++ [image_filename] in
  _ <- download_image url image_path ;;
  ret tt.

(** [download_chapter_images], lines 106-138.  The method takes no page
    count: it probes the chapter again (lines 113-123) and then fetches
    that many pages, [png_number] going from 1 to [total_pages].  The
    per-chapter bar of the rich library is not modelled. *)
Definition download_chapter_images (fuel : nat) (chapter_number : string) : M bool :=
  formatted_chapter_number <- lift (format_chapter_number chapter_number) ;;
  manga_address <- extract_text_from_url self formatted_chapter_number ;;
  match truthy manga_address with
  | Some address =>
      let chapter_folder :=
        manga_folder self ++ ["Chapter-" +:+ formatted_chapter_number] in
      _ <- mkdir_parents chapter_folder ;;
      total_pages <- probe_loop self fuel formatted_chapter_number address 1 0 ;;
      _ <- for_each (seq 1 total_pages)
             (fetch_page formatted_chapter_number address chapter_folder) ;;
      ret (Nat.ltb 0 total_pages)
  | None => ret false
  end.

(** The counting pass, lines 148-150. *)
Fixpoint counting_pass (fuel : nat) (chapters : list string)
    (pages_per_chapter : gmap string nat) : M (gmap string nat) :=
  match chapters with
  | [] => ret pages_per_chapter
  | chapter_number :: rest =>
      page_count <- count_pages_in_chapter self fuel chapter_number ;;
      counting_pass fuel rest (<[chapter_number := page_count]> pages_per_chapter)
  end.

(** The fetch pass, lines 163-170.  [asyncio.gather] runs the chapters
    of a group of five as interleaved tasks; the embedding runs the
    chapters one after the other, in submission order, which is what
    happens when a group has one chapter. *)
Definition fetch_pass (fuel : nat) (chapters : list string) : M unit :=
  for_each chapters
    (fun chapter_number =>
       _ <- download_chapter_images fuel chapter_number ;; ret tt).

(** [download_chapters], lines 140-171. *)
Definition download_chapters (fuel : nat) (chapters_to_download : list string)
    (user_input : string) : M unit :=
  pages_per_chapter <- counting_pass fuel chapters_to_download ∅ ;;
  if negb (proceeds user_input) then ret tt
  else
    _ <- fetch_pass fuel chapters_to_download ;;
    save_history (manga_name self).

End Methods.

End M4L2.

(** ** The command line: [parse_chapters] and the chapter prompt *)

Definition comma : ascii := ascii_of_nat 44.

(** [str(n)] for an [int]. *)
Definition py_str (n : Z) : string :=
  if (n <? 0)%Z then String hyphen (decimal (Z.abs_N n)) else decimal (Z.abs_N n).

(** [range(start, stop)]. *)
Definition range (start stop : Z) : list Z :=
  map (fun i => (start + Z.of_nat i)%Z) (seq 0 (Z.to_nat (stop - start))).

(** One turn of the loop of lines 197-202 of M4L2.py: the numbers that
    [part] adds to [chapters].  [split] gives one piece exactly when the
    part has no hyphen; the tuple assignment of line 199 raises
    [ValueError] unless it gives two, and so does [int] on a piece that is
    no integer. *)
Definition parse_part (part : string) : result (list Z) :=
  match split_on hyphen part with
  | [_] =>
      match py_int part with
      | Some n => Ok [n]
      | None => Raise ValueError
      end
  | [first; second] =>
      match py_int first, py_int second with
      | Some start, Some stop => Ok (range start (stop + 1))
      | _, _ => Raise ValueError
      end
  | _ => Raise ValueError
  end.

Fixpoint parse_parts (parts : list string) (chapters : list Z) : result (list Z) :=
  match parts with
  | [] => Ok chapters
  | part :: rest =>
      match parse_part part with
      | Ok more => parse_parts rest (chapters ++ more)
      | Raise e => Raise e
      | OutOfFuel => OutOfFuel
      end
  end.

(** [parse_chapters], lines 195-203 of M4L2.py. *)
Definition parse_chapters (chapters_str : string) : result (list string) :=
  match parse_parts (split_on comma chapters_str) [] with
  | Ok chapters => Ok (map py_str chapters)
  | Raise e => Raise e
  | OutOfFuel => OutOfFuel
  end.

(** Lines 258-259 of m4l.py: the line typed at the chapter prompt is cut
    at the commas, and the pieces that are not blank are kept, stripped. *)
Definition chapters_of_input (line : string) : list string :=
  map strip
    (List.filter (fun ch => negb (String.eqb (strip ch) EmptyString))
       (split_on comma line)).

(** ** The bar of m4l.py *)

(** Lines 136-139 of m4l.py, for a frame (current, total) that
    [colorful_progress_bar] draws: the number of filled cells and the
    cells of the bar, [true] for a filled cell.  A text repeated a
    negative number of times is empty, as the subtraction of [nat]
    has it. *)
Definition bar_length : nat := 50.

Definition filled_length (frame : nat * nat) : nat :=
  bar_length * fst frame / snd frame.

Definition bar (frame : nat * nat) : list bool :=
  replicate (filled_length frame) true
  ++ replicate (bar_length - filled_length frame) false.

(** ** The entry points *)



(** What [parse_args] of M4L2.py (lines 205-212) returns: the two
    options with a value are [None] when they are not given. *)
Record M4L2_arguments : Type := M4L2Arguments {
  opt_download : option string;
  opt_chapters : option string;
  opt_history : bool;
  opt_uppercase : bool;
  opt_edit : bool
}.

(** [main] of M4L2.py, lines 215-228: the chapter list is parsed before
    the downloader is built. *)
Definition M4L2_main (args : M4L2_arguments) (fuel : nat) (user_input : string)
  : M unit :=
  match truthy (opt_download args), truthy (opt_chapters args) with
  | Some manga_name, Some input_chapters =>
      chapters_to_download <- lift (parse_chapters input_chapters) ;;
      self <- init manga_name (opt_uppercase args) (opt_edit args) ;;
      M4L2.download_chapters self fuel chapters_to_download user_input
  | _, _ =>
      if opt_history args then
        self <- init "SampleManga" false true ;;
        _ <- load_history ;; ret tt
      else ret tt
  end.

(** ** Notions used in the statements *)

(** *** Texts *)

(** The character [str.title] writes for [c]. *)
Definition title_char (previous_is_cased : bool) (c : ascii) : ascii :=
  if previous_is_cased then lower_char c else upper_char c.

(** A text without white space. *)
Fixpoint spaceless (s : string) : bool :=
  match s with
  | EmptyString => true
  | String c r => negb (is_space c) && spaceless r
  end.

(** A text of ASCII characters. *)
Fixpoint ascii_only (s : string) : bool :=
  match s with
  | EmptyString => true
  | String c r => N.ltb (N_of_ascii c) 128 && ascii_only r
  end.

(** The code points of a text of one-byte characters. *)
Fixpoint code_points_of (s : string) : list N :=
  match s with
  | EmptyString => []
  | String c r => N_of_ascii c :: code_points_of r
  end.

(** A text made of digits and hyphens only. *)
Fixpoint numeral (s : string) : bool :=
  match s with
  | EmptyString => true
  | String c r => (is_digit c || Ascii.eqb c hyphen) && numeral r
  end.

(** A text without a dot. *)
Fixpoint dotless (s : string) : bool :=
  match s with
  | EmptyString => true
  | String c r => negb (Ascii.eqb c dot) && dotless r
  end.

(** The number that the digits of [d] write after those that gave
    [acc]. *)
Fixpoint uint_value (acc : Z) (d : Decimal.uint) : Z :=
  match d with
  | Decimal.Nil => acc
  | Decimal.D0 l => uint_value (10 * acc + 0) l
  | Decimal.D1 l => uint_value (10 * acc + 1) l
  | Decimal.D2 l => uint_value (10 * acc + 2) l
  | Decimal.D3 l => uint_value (10 * acc + 3) l
  | Decimal.D4 l => uint_value (10 * acc + 4) l
  | Decimal.D5 l => uint_value (10 * acc + 5) l
  | Decimal.D6 l => uint_value (10 * acc + 6) l
  | Decimal.D7 l => uint_value (10 * acc + 7) l
  | Decimal.D8 l => uint_value (10 * acc + 8) l
  | Decimal.D9 l => uint_value (10 * acc + 9) l
  end.

(** The lines [save_history] compares the title with. *)
Definition ledger_lines (content : string) : list string :=
  splitlines (universal_newlines content).

(** A ledger text in which every line is closed by LF (the empty text
    has no line). *)
Fixpoint newline_terminated (s : string) : bool :=
  match s with
  | EmptyString => true
  | String c EmptyString => Ascii.eqb c LF
  | String _ r => newline_terminated r
  end.

(** A title that fits on one line. *)
Fixpoint single_line (s : string) : bool :=
  match s with
  | EmptyString => true
  | String c r => negb (is_linebreak c) && single_line r
  end.

(** What follows the line boundary that starts with [c]. *)
Definition after_break (c : ascii) (r : string) : string :=
  match r with
  | String c' r' => if Ascii.eqb c CR && Ascii.eqb c' LF then r' else r
  | EmptyString => EmptyString
  end.

(** *** Effects *)

(** [stable R m]: wherever [m] is started, and however it ends (with a
    value, an exception or out of fuel), the world it ends in is related
    by [R] to the world it started in. *)
Definition stable {A : Type} (R : relation world) (m : M A) : Prop :=
  forall w, R w (snd (m w)).

(** The relations used to frame the effects of a method: a component of
    the world is left as it was, the directories only grow, the request
    log only grows and by requests of a given kind. *)
Definition keeps {X : Type} (field : world -> X) : relation world :=
  fun w w' => field w' = field w.

Definition dirs_grow : relation world :=
  fun w w' => dirs w ⊆ dirs w'.

Definition requests_extend (P : request -> Prop) : relation world :=
  fun w w' => exists extra, requests w' = requests w ++ extra /\ Forall P extra.

Definition both (R1 R2 : relation world) : relation world :=
  fun w w' => R1 w w' /\ R2 w w'.

Definition site_is_not (site : call_site) (r : request) : Prop := fst r <> site.

Definition viewer_request (r : request) : Prop :=
  fst r = ViewerPage \/ fst r = AlternatePage.

(** The kinds of request. *)
Definition fetch_request (r : request) : Prop := fst r = FetchPage.

Definition probe_request (r : request) : Prop := fst r = ProbePage.

(** Nothing but the request log and the module global moves, and no page
    is fetched: the frame of the counting pass. *)
Definition counting_frame : relation world :=
  both (keeps files)
    (both (keeps history_file)
       (both (keeps frames)
          (both (keeps dirs) (requests_extend (site_is_not FetchPage))))).


(** [m] sends at most [n] requests, all of them of the kind [P], and
    exactly [n] when it returns a value. *)
Definition sends {A : Type} (P : request -> Prop) (n : nat) (m : M A) : Prop :=
  forall w,
    exists extra,
      requests (snd (m w)) = requests w ++ extra
      /\ Forall P extra
      /\ length extra <= n
      /\ (forall a, fst (m w) = Ok a -> length extra = n).

(** *** Tokens, pages and progress *)

(** What the alternate page yields once the primary page gave no token. *)
Definition alternate_token (answer : reply) : option string :=
  match answer with
  | Response status body =>
      if Nat.eqb status 200 then extract_text_from_html body else None
  | Unreachable => None
  | Truncated _ => None
  end.

(** A page source that, whenever it is asked, answers 200 for the pages
    [first .. first + k - 1] of a chapter and something else for page
    [first + k]. *)
Definition has_pages_from (srv : nat -> string -> reply)
    (slug fc address : string) (first k : nat) : Prop :=
  (forall i, first <= i < first + k ->
     exists url, generate_image_url slug fc i address = Ok url
                 /\ forall t, exists body, srv t url = Response 200 body)
  /\ exists url, generate_image_url slug fc (first + k) address = Ok url
                 /\ forall t, exists status body,
                      srv t url = Response status body /\ status <> 200.

Definition has_pages (srv : nat -> string -> reply)
    (slug fc address : string) (k : nat) : Prop :=
  has_pages_from srv slug fc address 1 k.

(** The body that [download_image] would store for [url] if it asked
    now: the body of a 200 answer, when it arrives. *)
Definition fetched (w : world) (url : string) : option string :=
  match server w (length (requests w)) url with
  | Response status body => if Nat.eqb status 200 then Some body else None
  | Unreachable => None
  | Truncated _ => None
  end.

(** Whether [download_image] would open the file for [url] if it asked
    now: the status of the answer is 200. *)
Definition opened (w : world) (url : string) : bool :=
  match server w (length (requests w)) url with
  | Response status _ => Nat.eqb status 200
  | Unreachable => false
  | Truncated status => Nat.eqb status 200
  end.

(** The frame drawn for position [v] when the total is [T]. *)
Definition frame_at (T v : nat) : nat * nat := (Nat.min v T, T).


(** The world in which [download_image] returns [False] for [url] and
    the path [p]: the request is logged and, when the status was 200,
    the file is there, empty, under its directories. *)
Definition after_failed_fetch (url : string) (p : path) (w : world) : world :=
  if opened w url
  then put_file p EmptyString
         (add_dirs (list_to_set (ancestors (parent p)))
            (log_request (FetchPage, url) w))
  else log_request (FetchPage, url) w.



(** A page fetch with its position in the batch and its answer. *)
Definition slot : Type := (nat * bool)%type.

(** The positions of the page fetches that were delivered. *)
Definition reported (slots : list slot) : list nat :=
  map fst (List.filter snd slots).


(** A server whose routing tokens [str.format] can read: every token
    that a 200 page carries is free of stray braces. *)
Definition clean_tokens (srv : nat -> string -> reply) : Prop :=
  forall t url body token,
    srv t url = Response 200 body ->
    extract_text_from_html body = Some token ->
    format_literal token <> None.

(** The token of a reply, if any, is free of stray braces. *)
Definition clean_reply (r : reply) : bool :=
  match r with
  | Response _ body =>
      match extract_text_from_html body with
      | Some token => bool_decide (format_literal token <> None)
      | None => true
      end
  | Unreachable => true
  | Truncated _ => true
  end.

(** *** Texts, exceptions and files of the further properties *)

(** A text in which the character [c] does not occur. *)
Fixpoint lacks (c : ascii) (s : string) : bool :=
  match s with
  | EmptyString => true
  | String d r => negb (Ascii.eqb d c) && lacks c r
  end.


(** A text made of white space only. *)
Fixpoint blank (s : string) : bool :=
  match s with
  | EmptyString => true
  | String c r => is_space c && blank r
  end.

(** The text that the pattern of [extract_text_from_html] matches: the
    key, white space, the equals sign, white space and the token between
    double quotes. *)
Definition assignment (ws1 ws2 token : string) : string :=
  "vm.CurPathName" +:+ ws1
  +:+ String (ascii_of_nat 61)
        (ws2 +:+ String dquote (token +:+ String dquote EmptyString)).

(** [guarded I allowed m]: started in a world where [I] holds, [m] ends
    in a world where [I] holds, and an exception it ends with is one of
    [allowed]. *)
Definition guarded {A : Type} (I : world -> Prop) (allowed : exn -> Prop)
    (m : M A) : Prop :=
  forall w, I w ->
    I (snd (m w)) /\ forall e, fst (m w) = Raise e -> allowed e.

(** The page files are the only files that change: a path that [P] does
    not hold of has the content it had. *)
Definition writes_only (P : path -> Prop) : relation world :=
  fun w w' => forall p, ~ P p -> files w' !! p = files w !! p.


(** The module global is bound. *)
Definition total_is_bound (w : world) : Prop :=
  is_Some (total_chapters_pages w).

(** An exception other than the two that an unbound global and a
    missing dictionary key raise. *)
Definition batch_exception (e : exn) : Prop :=
  e <> NameError /\ e <> KeyError.

(** A world whose server has routing tokens that [str.format] can read. *)
Definition serves_clean_tokens (w : world) : Prop := clean_tokens (server w).

(** An exception other than the error of [str.format]. *)
Definition not_of_format (e : exn) : Prop := e <> FormatError.

(** ** Test servers *)

(** A server that answers from a fixed table of pages and has nothing
    else (status 404). *)
Definition static_server (pages : list (string * reply)) : nat -> string -> reply :=
  fun _ url =>
    match find (fun entry => String.eqb (fst entry) url) pages with
    | Some entry => snd entry
    | None => Response 404 EmptyString
    end.

(** A viewer page that carries the routing token [address]. *)
Definition viewer_body (address : string) : string :=
  "<script>vm.CurPathName = " +:+ String dquote address
  +:+ String dquote ";</script>".

(** The downloader that [init] builds for the title One Piece. *)
Definition one_piece : downloader :=
  Downloader "One Piece" "One-Piece" ["MANGA"; "One-Piece"].

(** A server on which the viewer page of chapter 1 is missing and its
    index-2 variant carries a routing token. *)
Definition primary_missing_server : nat -> string -> reply :=
  static_server
    [ (viewer_url one_piece "0001" "-index-2", Response 200 (viewer_body "h.example")) ].

(** A server with the viewer page of chapter 1 and one page of it. *)
Definition one_page_server : nat -> string -> reply :=
  static_server
    [ (viewer_url one_piece "0001" "", Response 200 (viewer_body "h.example"));
      ("https://h.example/manga/One-Piece/0001-001.png", Response 200 "page one") ].

(** A server with the viewer page of chapter 1 and two pages of it. *)
Definition two_page_server : nat -> string -> reply :=
  static_server
    [ (viewer_url one_piece "0001" "", Response 200 (viewer_body "h.example"));
      ("https://h.example/manga/One-Piece/0001-001.png", Response 200 "page one");
      ("https://h.example/manga/One-Piece/0001-002.png", Response 200 "page two") ].


(** A server with three pages of chapter 1 and one page of chapter 2. *)
Definition uneven_server : nat -> string -> reply :=
  static_server
    [ (viewer_url one_piece "0001" "", Response 200 (viewer_body "h.example"));
      ("https://h.example/manga/One-Piece/0001-001.png", Response 200 "1-1");
      ("https://h.example/manga/One-Piece/0001-002.png", Response 200 "1-2");
      ("https://h.example/manga/One-Piece/0001-003.png", Response 200 "1-3");
      (viewer_url one_piece "0002" "", Response 200 (viewer_body "h.example"));
      ("https://h.example/manga/One-Piece/0002-001.png", Response 200 "2-1") ].


(** A server on which nothing is to be found. *)
Definition empty_server : nat -> string -> reply := static_server [].

(** A server with the viewer page of chapter 1, on which every other
    request fails in transport. *)
Definition unreachable_images_server : nat -> string -> reply :=
  fun _ url =>
    if String.eqb url (viewer_url one_piece "0001" "")
    then Response 200 (viewer_body "h.example")
    else Unreachable.


(** * Properties *)

(** ** Naming *)

Ltac by_cases_on_char c :=
  destruct c as [[] [] [] [] [] [] [] []]; vm_compute; try reflexivity; try discriminate; auto.

Lemma is_space_upper_char c : is_space (upper_char c) = is_space c.
Proof. by_cases_on_char c. Qed.

Lemma is_space_lower_char c : is_space (lower_char c) = is_space c.
Proof. by_cases_on_char c. Qed.

Lemma upper_char_space c : is_space c = true -> upper_char c = c.
Proof. by_cases_on_char c. Qed.

Lemma lower_char_space c : is_space c = true -> lower_char c = c.
Proof. by_cases_on_char c. Qed.

Lemma is_cased_space c : is_space c = true -> is_cased c = false.
Proof. by_cases_on_char c. Qed.

Lemma upper_char_idem c : upper_char (upper_char c) = upper_char c.
Proof. by_cases_on_char c. Qed.

Lemma lower_char_idem c : lower_char (lower_char c) = lower_char c.
Proof. by_cases_on_char c. Qed.

Lemma is_cased_upper_char c : is_cased (upper_char c) = is_cased c.
Proof. by_cases_on_char c. Qed.

Lemma is_cased_lower_char c : is_cased (lower_char c) = is_cased c.
Proof. by_cases_on_char c. Qed.

Lemma title_char_idem p c : title_char p (title_char p c) = title_char p c.
Proof. destruct p; [apply lower_char_idem | apply upper_char_idem]. Qed.

Lemma is_cased_title_char p c : is_cased (title_char p c) = is_cased c.
Proof. destruct p; [apply is_cased_lower_char | apply is_cased_upper_char]. Qed.

Lemma is_space_title_char p c : is_space (title_char p c) = is_space c.
Proof. destruct p; [apply is_space_lower_char | apply is_space_upper_char]. Qed.

Lemma title_char_space p c : is_space c = true -> title_char p c = c.
Proof. destruct p; [apply lower_char_space | apply upper_char_space]. Qed.

Lemma sub_spaces_from_spaceless b s : spaceless (sub_spaces_from b s) = true.
Proof.
  revert b. induction s as [|c r IH]; intros b; simpl; [reflexivity|].
  destruct (is_space c) eqn:Hc.
  - destruct b; simpl; rewrite ?IH; reflexivity.
  - simpl. rewrite Hc, IH. reflexivity.
Qed.

Lemma sub_spaces_from_fixed b s : spaceless s = true -> sub_spaces_from b s = s.
Proof.
  revert b. induction s as [|c r IH]; intros b H; simpl in *; [reflexivity|].
  apply andb_true_iff in H as [Hc Hr]. apply negb_true_iff in Hc.
  rewrite Hc, IH by assumption. reflexivity.
Qed.

Lemma sub_spaces_idem s : sub_spaces (sub_spaces s) = sub_spaces s.
Proof. apply sub_spaces_from_fixed, sub_spaces_from_spaceless. Qed.

Lemma upper_idem s : upper (upper s) = upper s.
Proof. induction s as [|c r IH]; simpl; [|rewrite upper_char_idem, IH]; reflexivity. Qed.

Lemma upper_sub_spaces_from b s :
  upper (sub_spaces_from b s) = sub_spaces_from b (upper s).
Proof.
  revert b. induction s as [|c r IH]; intros b; simpl; [reflexivity|].
  rewrite is_space_upper_char. destruct (is_space c).
  - destruct b; simpl; rewrite IH; reflexivity.
  - simpl. rewrite IH. reflexivity.
Qed.

Lemma title_from_idem p s : title_from p (title_from p s) = title_from p s.
Proof.
  revert p. induction s as [|c r IH]; intros p; simpl; [reflexivity|].
  fold (title_char p c). fold (title_char p (title_char p c)).
  rewrite title_char_idem, is_cased_title_char, IH. reflexivity.
Qed.

(** [str.title] and the replacement of white space commute: a hyphen is
    as uncased as the run it stands for. *)
Lemma title_from_sub_spaces_from s :
  title_from false (sub_spaces_from true s) = sub_spaces_from true (title_from false s)
  /\ forall p, title_from p (sub_spaces_from false s)
               = sub_spaces_from false (title_from p s).
Proof.
  induction s as [|c r [IH1 IH2]]; [split; reflexivity|].
  split; [|intros p]; simpl.
  - fold (title_char false c). rewrite is_space_title_char.
    destruct (is_space c) eqn:Hc.
    + rewrite (is_cased_space c Hc). exact IH1.
    + simpl. rewrite IH2. reflexivity.
  - fold (title_char p c). rewrite is_space_title_char.
    destruct (is_space c) eqn:Hc.
    + simpl. rewrite (is_cased_space c Hc).
      replace (if p then lower_char hyphen else upper_char hyphen) with hyphen
        by (destruct p; reflexivity).
      change (is_cased hyphen) with false. rewrite IH1. reflexivity.
    + simpl. fold (title_char p c). rewrite IH2. reflexivity.
Qed.

Lemma code_upper_char c : code_upper (N_of_ascii c) = [N_of_ascii (upper_char c)].
Proof. by_cases_on_char c. Qed.

Lemma code_lower_char c : code_lower (N_of_ascii c) = [N_of_ascii (lower_char c)].
Proof. by_cases_on_char c. Qed.

Lemma code_is_cased_char c : code_is_cased (N_of_ascii c) = is_cased c.
Proof. by_cases_on_char c. Qed.

Lemma code_is_space_char c : code_is_space (N_of_ascii c) = is_space c.
Proof. by_cases_on_char c. Qed.

Lemma ascii_upper_char c :
  N.ltb (N_of_ascii (upper_char c)) 128 = N.ltb (N_of_ascii c) 128.
Proof. by_cases_on_char c. Qed.

Lemma ascii_lower_char c :
  N.ltb (N_of_ascii (lower_char c)) 128 = N.ltb (N_of_ascii c) 128.
Proof. by_cases_on_char c. Qed.

Lemma text_upper_code_points s :
  text_upper (code_points_of s) = code_points_of (upper s).
Proof.
  induction s as [|c r IH]; simpl; [reflexivity|].
  rewrite code_upper_char, IH. reflexivity.
Qed.

Lemma text_title_from_code_points p s :
  text_title_from p (code_points_of s) = code_points_of (title_from p s).
Proof.
  revert p. induction s as [|c r IH]; intros p; simpl; [reflexivity|].
  rewrite code_is_cased_char, IH. unfold code_title.
  destruct p; [rewrite code_lower_char | rewrite code_upper_char]; reflexivity.
Qed.

Lemma text_sub_spaces_from_code_points b s :
  text_sub_spaces_from b (code_points_of s) = code_points_of (sub_spaces_from b s).
Proof.
  revert b. induction s as [|c r IH]; intros b; simpl; [reflexivity|].
  rewrite code_is_space_char. destruct (is_space c).
  - destruct b; simpl; rewrite IH; reflexivity.
  - simpl. rewrite IH. reflexivity.
Qed.

(** On a text of one-byte characters the two embeddings of [__init__]
    write the same slug. *)
Lemma text_slugify_code_points s uppercase edit :
  text_slugify (code_points_of s) uppercase edit
  = code_points_of (slugify s uppercase edit).
Proof.
  unfold text_slugify, slugify, formatted_manga_name_of, manga_name_of, sub_spaces, title.
  destruct edit; [|destruct uppercase];
    rewrite ?text_upper_code_points, ?text_title_from_code_points;
    apply text_sub_spaces_from_code_points.
Qed.

Lemma ascii_only_upper s : ascii_only (upper s) = ascii_only s.
Proof.
  induction s as [|c r IH]; simpl; [reflexivity|].
  rewrite ascii_upper_char, IH. reflexivity.
Qed.

Lemma ascii_only_title_from p s : ascii_only (title_from p s) = ascii_only s.
Proof.
  revert p. induction s as [|c r IH]; intros p; simpl; [reflexivity|].
  rewrite IH. destruct p; [rewrite ascii_lower_char | rewrite ascii_upper_char]; reflexivity.
Qed.

Lemma ascii_only_sub_spaces_from b s :
  ascii_only s = true -> ascii_only (sub_spaces_from b s) = true.
Proof.
  revert b. induction s as [|c r IH]; intros b H; simpl in *; [reflexivity|].
  apply andb_true_iff in H as [Hc Hr].
  destruct (is_space c); [destruct b|]; simpl; rewrite ?Hc, ?IH; auto.
Qed.

Lemma slugify_twice t uppercase edit :
  slugify (slugify t uppercase edit) uppercase edit = slugify t uppercase edit.
Proof.
  unfold slugify, formatted_manga_name_of, manga_name_of.
  destruct edit; [apply sub_spaces_idem|].
  destruct uppercase.
  - unfold sub_spaces. rewrite upper_sub_spaces_from, upper_idem.
    apply sub_spaces_idem.
  - unfold title, sub_spaces.
    rewrite (proj2 (title_from_sub_spaces_from _)), title_from_idem.
    apply sub_spaces_idem.
Qed.

(** C7, amended.  On a title of ASCII characters [slugify] is idempotent:
    the slug has no white space and is ASCII again, slugging it again
    under the same mode flags gives the same slug, and so it is for the
    slug read as code points (edit mode keeps the case, otherwise upper
    case or title case is applied; then every maximal run of white space
    becomes one hyphen). *)
Theorem slugify_idempotent (t : string) (uppercase edit : bool) :
  ascii_only t = true ->
  slugify (slugify t uppercase edit) uppercase edit = slugify t uppercase edit
  /\ spaceless (slugify t uppercase edit) = true
  /\ ascii_only (slugify t uppercase edit) = true
  /\ text_slugify (code_points_of t) uppercase edit
     = code_points_of (slugify t uppercase edit)
  /\ text_slugify (text_slugify (code_points_of t) uppercase edit) uppercase edit
     = text_slugify (code_points_of t) uppercase edit.
Proof.
  intros Ht. split; [apply slugify_twice|].
  split; [apply sub_spaces_from_spaceless|].
  split.
  - unfold slugify, formatted_manga_name_of, manga_name_of, sub_spaces, title.
    apply ascii_only_sub_spaces_from.
    destruct edit; [exact Ht|].
    destruct uppercase; [rewrite ascii_only_upper | rewrite ascii_only_title_from];
      exact Ht.
  - split; [apply text_slugify_code_points|].
    rewrite !text_slugify_code_points, slugify_twice. reflexivity.
Qed.

Lemma slugify_idempotent_witness :
  ascii_only "one  piece" = true
  /\ slugify "one  piece" false false = "One-Piece"
  /\ slugify "one  piece" true false = "ONE-PIECE"
  /\ slugify "one  piece" false true = "one-piece"
  /\ slugify (slugify "one  piece" false false) false false
     = slugify "one  piece" false false
  /\ text_slugify (text_slugify (code_points_of "one  piece") false false)
       false false
     = text_slugify (code_points_of "one  piece") false false.
Proof.
  pose proof (slugify_idempotent "one  piece" false false eq_refl)
    as (H1 & _ & _ & _ & H2).
  repeat split; try reflexivity; assumption.
Defined.

(** A title that starts with the small j with caron: title case writes J
    and the combining caron for it, and the second pass puts the letter
    after the caron, which has no case, in upper case. *)
Lemma title_case_is_not_idempotent :
  text_slugify [j_caron; 97%N] false false = [74%N; combining_caron; 97%N]
  /\ text_slugify [74%N; combining_caron; 97%N] false false
     = [74%N; combining_caron; 65%N]
  /\ text_slugify (text_slugify [j_caron; 97%N] false false) false false
     <> text_slugify [j_caron; 97%N] false false.
Proof. vm_compute. repeat split. discriminate. Qed.

(** ** The ledger *)

Lemma string_app_cons (x : ascii) (a b : string) :
  String x a +:+ b = String x (a +:+ b).
Proof. reflexivity. Qed.

Lemma string_app_assoc (a b c : string) : (a +:+ b) +:+ c = a +:+ b +:+ c.
Proof.
  induction a as [|x a IH]; [reflexivity|].
  rewrite !string_app_cons, IH. reflexivity.
Qed.

Lemma string_length_induction (P : string -> Prop) :
  (forall s, (forall r, String.length r < String.length s -> P r) -> P s) ->
  forall s, P s.
Proof.
  intros step s. remember (String.length s) as n eqn:Hn.
  revert s Hn. induction n as [n IH] using lt_wf_ind. intros s ->.
  apply step. intros r Hr. exact (IH _ Hr r eq_refl).
Qed.

Lemma splitlines_break c r :
  is_linebreak c = true ->
  splitlines (String c r) = EmptyString :: splitlines (after_break c r).
Proof.
  intros Hc. simpl. rewrite Hc. destruct r as [|c' r']; [reflexivity|].
  unfold after_break. destruct (Ascii.eqb c CR && Ascii.eqb c' LF); reflexivity.
Qed.

Lemma splitlines_plain c r :
  is_linebreak c = false ->
  splitlines (String c r)
  = match splitlines r with
    | h :: t => String c h :: t
    | [] => [String c EmptyString]
    end.
Proof. intros Hc. simpl. rewrite Hc. reflexivity. Qed.

Lemma after_break_length c r : String.length (after_break c r) <= String.length r.
Proof.
  destruct r as [|c' r']; simpl; [lia|].
  destruct (Ascii.eqb c CR && Ascii.eqb c' LF); simpl; lia.
Qed.

Lemma splitlines_nonempty c r : splitlines (String c r) <> [].
Proof.
  destruct (is_linebreak c) eqn:Hc.
  - rewrite splitlines_break by assumption. discriminate.
  - rewrite splitlines_plain by assumption. destruct (splitlines r); discriminate.
Qed.

Lemma is_linebreak_LF : is_linebreak LF = true.
Proof. reflexivity. Qed.

Lemma eqb_CR_linebreak c : Ascii.eqb c CR = true -> is_linebreak c = true.
Proof. intros H. apply Ascii.eqb_eq in H. subst. reflexivity. Qed.

(** Reading in text mode does not change the lines. *)
Lemma splitlines_universal_newlines s :
  splitlines (universal_newlines s) = splitlines s.
Proof.
  induction s as [s IH] using string_length_induction.
  destruct s as [|c r]; [reflexivity|].
  destruct (Ascii.eqb c CR) eqn:Hcr.
  - rewrite (splitlines_break c r) by (apply eqb_CR_linebreak; assumption).
    simpl. rewrite Hcr. destruct r as [|c' r'].
    + reflexivity.
    + unfold after_break. rewrite Hcr. simpl andb.
      destruct (Ascii.eqb c' LF) eqn:Hlf.
      * rewrite (splitlines_break LF) by reflexivity.
        f_equal. transitivity (splitlines (universal_newlines r')).
        -- destruct (universal_newlines r'); reflexivity.
        -- apply IH. simpl. lia.
      * rewrite (splitlines_break LF) by reflexivity.
        f_equal. transitivity (splitlines (universal_newlines (String c' r'))).
        -- destruct (universal_newlines (String c' r')); reflexivity.
        -- apply IH. simpl. lia.
  - assert (Hun : universal_newlines (String c r) = String c (universal_newlines r)).
    { simpl. rewrite Hcr. reflexivity. }
    rewrite Hun. destruct (is_linebreak c) eqn:Hc.
    + rewrite !splitlines_break by assumption. f_equal.
      assert (Hab : forall x, after_break c x = x).
      { intros [|c2 x]; [reflexivity|]. unfold after_break. rewrite Hcr. reflexivity. }
      rewrite !Hab. apply IH. simpl. lia.
    + rewrite !splitlines_plain by assumption.
      rewrite IH by (simpl; lia). reflexivity.
Qed.

Lemma ledger_lines_splitlines content : ledger_lines content = splitlines content.
Proof. apply splitlines_universal_newlines. Qed.

Lemma mem_string_In x l : mem_string x l = true <-> In x l.
Proof.
  unfold mem_string. rewrite existsb_exists. split.
  - intros [y [Hy Heq]]. apply String.eqb_eq in Heq. subst. assumption.
  - intros H. exists x. split; [assumption | apply String.eqb_refl].
Qed.

Lemma newline_terminated_tail c r :
  r <> EmptyString ->
  newline_terminated (String c r) = newline_terminated r.
Proof. destruct r; [congruence | reflexivity]. Qed.

Lemma newline_terminated_after_break c r :
  newline_terminated (String c r) = true ->
  newline_terminated (after_break c r) = true.
Proof.
  destruct r as [|c' r']; [reflexivity|].
  rewrite newline_terminated_tail by discriminate.
  unfold after_break. destruct (Ascii.eqb c CR && Ascii.eqb c' LF); [|trivial].
  destruct r'; [reflexivity | trivial].
Qed.

Lemma after_break_app c r b :
  r <> EmptyString -> after_break c (r +:+ b) = after_break c r +:+ b.
Proof.
  destruct r as [|c' r']; [congruence|]. intros _. simpl.
  destruct (Ascii.eqb c CR && Ascii.eqb c' LF); reflexivity.
Qed.

(** The lines of a text that follows a complete ledger come after the
    lines of the ledger. *)
Lemma splitlines_app a b :
  newline_terminated a = true ->
  splitlines (a +:+ b) = splitlines a ++ splitlines b.
Proof.
  induction a as [a IH] using string_length_induction. intros Ha.
  destruct a as [|c r]; [reflexivity|].
  destruct (is_linebreak c) eqn:Hc.
  - destruct r as [|c' r'].
    + simpl in Ha. apply Ascii.eqb_eq in Ha. subst c.
      change (String LF EmptyString +:+ b) with (String LF b).
      rewrite (splitlines_break LF b) by reflexivity.
      destruct b; reflexivity.
    + change (String c (String c' r') +:+ b) with (String c (String c' r' +:+ b)).
      rewrite !splitlines_break by assumption.
      rewrite after_break_app by discriminate.
      rewrite IH.
      * reflexivity.
      * pose proof (after_break_length c (String c' r')). simpl in *. lia.
      * apply newline_terminated_after_break. assumption.
  - destruct r as [|c' r'].
    + simpl in Ha. apply Ascii.eqb_eq in Ha. subst c. discriminate.
    + change (String c (String c' r') +:+ b) with (String c (String c' r' +:+ b)).
      rewrite !splitlines_plain by assumption.
      rewrite IH; [| simpl; lia | exact Ha].
      pose proof (splitlines_nonempty c' r').
      destruct (splitlines (String c' r')); [congruence | reflexivity].
Qed.

Lemma splitlines_single_line t :
  single_line t = true ->
  splitlines (t +:+ String LF EmptyString) = [t].
Proof.
  induction t as [|c r IH]; intros Ht; [reflexivity|].
  simpl in Ht. apply andb_true_iff in Ht as [Hc Hr]. apply negb_true_iff in Hc.
  change (String c r +:+ String LF EmptyString)
    with (String c (r +:+ String LF EmptyString)).
  rewrite splitlines_plain by assumption. rewrite IH by assumption. reflexivity.
Qed.

Lemma newline_terminated_app a t :
  newline_terminated (a +:+ t +:+ String LF EmptyString) = true.
Proof.
  assert (H : forall s, newline_terminated (s +:+ String LF EmptyString) = true).
  { induction s as [|c r IH]; [reflexivity|].
    change (String c r +:+ String LF EmptyString)
      with (String c (r +:+ String LF EmptyString)).
    rewrite newline_terminated_tail; [exact IH | destruct r; discriminate]. }
  rewrite <- string_app_assoc. apply H.
Qed.

(** The lines of a complete ledger after one more title went in. *)
Lemma ledger_lines_appended content t :
  newline_terminated content = true -> single_line t = true ->
  ledger_lines (content +:+ t +:+ String LF EmptyString) = ledger_lines content ++ [t].
Proof.
  intros Hc Ht. rewrite !ledger_lines_splitlines.
  rewrite splitlines_app by assumption.
  rewrite splitlines_single_line by assumption. reflexivity.
Qed.

Lemma append_history_present content t :
  In t (ledger_lines content) -> append_history content t = content.
Proof.
  intros H. unfold append_history. fold (ledger_lines content).
  apply mem_string_In in H. rewrite H. reflexivity.
Qed.

Lemma append_history_absent content t :
  ~ In t (ledger_lines content) ->
  append_history content t = content +:+ t +:+ String LF EmptyString.
Proof.
  intros H. unfold append_history. fold (ledger_lines content).
  destruct (mem_string t (ledger_lines content)) eqn:Hm; [|reflexivity].
  apply mem_string_In in Hm. contradiction.
Qed.

Lemma append_history_terminated content t :
  newline_terminated content = true ->
  newline_terminated (append_history content t) = true.
Proof.
  intros Hc. unfold append_history.
  destruct (negb _); [apply newline_terminated_app | exact Hc].
Qed.

Lemma append_history_lines content t :
  newline_terminated content = true -> single_line t = true ->
  ledger_lines (append_history content t)
  = if mem_string t (ledger_lines content) then ledger_lines content
    else ledger_lines content ++ [t].
Proof.
  intros Hc Ht. destruct (mem_string t (ledger_lines content)) eqn:Hm.
  - rewrite append_history_present by (apply mem_string_In; assumption). reflexivity.
  - rewrite append_history_absent.
    + apply ledger_lines_appended; assumption.
    + intros Hin. apply mem_string_In in Hin. congruence.
Qed.

(** C9, amended.  [save_history] is a deduplicating append on whole
    lines.  For every ledger and title (an absent ledger file counting as
    empty), the call returns and the ledger file read after it is: the
    ledger as it was, when the title equals one of its lines; and the
    ledger with the title and a newline written at its end otherwise.
    On a ledger whose lines are all closed by a newline and for titles
    that fit on a line, it follows that saving the same title twice
    leaves one occurrence, and that two different new titles both appear,
    in the order they were saved. *)
Theorem append_history_deduplicates (t : string) (w : world) :
  let content := default EmptyString (history_file w) in
  let saved := snd (save_history t w) in
  fst (save_history t w) = Ok tt
  /\ (In t (ledger_lines content) -> history_file saved = Some content)
  /\ (~ In t (ledger_lines content) ->
      history_file saved = Some (content +:+ t +:+ String LF EmptyString))
  /\ (newline_terminated content = true -> single_line t = true ->
      history_file (snd (save_history t saved)) = history_file saved
      /\ (~ In t (ledger_lines content) ->
          option_map ledger_lines (history_file (snd (save_history t saved)))
          = Some (ledger_lines content ++ [t]))
      /\ (forall t2, single_line t2 = true -> t2 <> t ->
          ~ In t (ledger_lines content) -> ~ In t2 (ledger_lines content) ->
          option_map ledger_lines (history_file (snd (save_history t2 saved)))
          = Some (ledger_lines content ++ [t; t2]))).
Proof.
  cbv zeta. unfold save_history, modify. cbn [fst snd history_file put_history].
  set (content := default EmptyString (history_file w)).
  repeat match goal with
         | |- context [default EmptyString (Some ?x)] =>
             change (default EmptyString (Some x)) with x
         end.
  split; [reflexivity|].
  split; [intros H; rewrite (append_history_present _ _ H); reflexivity|].
  split; [intros H; rewrite (append_history_absent _ _ H); reflexivity|].
  intros Hc Ht.
  assert (Hin : In t (ledger_lines (append_history content t))).
  { rewrite append_history_lines by assumption.
    destruct (mem_string t (ledger_lines content)) eqn:Hm.
    - apply mem_string_In. assumption.
    - apply in_or_app. right. left. reflexivity. }
  split; [rewrite (append_history_present _ _ Hin); reflexivity|].
  split.
  - intros Hnew. rewrite (append_history_present _ _ Hin). cbn [option_map].
    rewrite append_history_lines by assumption.
    destruct (mem_string t (ledger_lines content)) eqn:Hm; [|reflexivity].
    apply mem_string_In in Hm. contradiction.
  - intros t2 Ht2 Hne Hnew Hnew2. cbn [option_map].
    rewrite append_history_lines
      by (try apply append_history_terminated; assumption).
    rewrite append_history_lines by assumption.
    destruct (mem_string t (ledger_lines content)) eqn:Hm.
    { apply mem_string_In in Hm. contradiction. }
    destruct (mem_string t2 (ledger_lines content ++ [t])) eqn:Hm2.
    + apply mem_string_In in Hm2. apply in_app_or in Hm2 as [H|[H|[]]].
      * contradiction.
      * congruence.
    + rewrite <- app_assoc. reflexivity.
Qed.

Lemma append_history_deduplicates_witness :
  let w := put_history ("Naruto" +:+ String LF EmptyString)
             (initial_world empty_server) in
  let once := snd (save_history "One Piece" w) in
  history_file (snd (save_history "Naruto" w)) = history_file w
  /\ history_file once
     = Some ("Naruto" +:+ String LF ("One Piece" +:+ String LF EmptyString))
  /\ history_file (snd (save_history "One Piece" once)) = history_file once
  /\ option_map ledger_lines (history_file (snd (save_history "Bleach" once)))
     = Some ["Naruto"; "One Piece"; "Bleach"].
Proof.
  intros w once.
  destruct (append_history_deduplicates "Naruto" w) as [_ [Hsame _]].
  destruct (append_history_deduplicates "One Piece" w)
    as [_ [_ [Hnew Hwf]]].
  destruct (Hwf eq_refl eq_refl) as [Htwice [_ Horder]].
  split; [apply Hsame; left; reflexivity|].
  assert (Hfresh : ~ In "One Piece"
                      (ledger_lines ("Naruto" +:+ String LF EmptyString))).
  { intros [H|[]]. discriminate H. }
  split; [apply Hnew; exact Hfresh|].
  split; [exact Htwice|].
  apply (Horder "Bleach" eq_refl); [discriminate | exact Hfresh |].
  intros [H|[]]. discriminate H.
Defined.

(** C9 as stated fails, for it speaks of every ledger and every title.
    On a ledger whose last line is not closed by a newline the title is
    glued to that line: after Bleach is saved on the ledger Naruto the
    only line is NarutoBleach, and neither title is a line.  And a title
    with a line break is never one of the lines, so it is written again
    each time it is saved. *)
Lemma ledger_needs_whole_lines :
  let w := put_history "Naruto" (initial_world empty_server) in
  let two_lines := "a" +:+ String LF "b" in
  let once := snd (save_history two_lines (initial_world empty_server)) in
  option_map ledger_lines (history_file (snd (save_history "Bleach" w)))
  = Some ["NarutoBleach"]
  /\ history_file once = Some (two_lines +:+ String LF EmptyString)
  /\ history_file (snd (save_history two_lines once))
     = Some (two_lines +:+ String LF (two_lines +:+ String LF EmptyString)).
Proof. vm_compute. repeat split. Qed.

(** ** Formatting a chapter number twice *)

Lemma numeral_char c :
  (is_digit c || Ascii.eqb c hyphen) = true ->
  is_space c = false /\ Ascii.eqb c dot = false.
Proof.
  destruct c as [[] [] [] [] [] [] [] []]; vm_compute; intros H;
    first [discriminate H | split; reflexivity].
Qed.

Lemma numeral_spaceless s : numeral s = true -> spaceless s = true.
Proof.
  induction s as [|c r IH]; simpl; [reflexivity|]. intros H.
  apply andb_true_iff in H as [Hc Hr].
  destruct (numeral_char c Hc) as [Hs _]. rewrite Hs, (IH Hr). reflexivity.
Qed.

Lemma numeral_dotless s : numeral s = true -> dotless s = true.
Proof.
  induction s as [|c r IH]; simpl; [reflexivity|]. intros H.
  apply andb_true_iff in H as [Hc Hr].
  destruct (numeral_char c Hc) as [_ Hd]. rewrite Hd, (IH Hr). reflexivity.
Qed.

Lemma numeral_app a b : numeral (a +:+ b) = numeral a && numeral b.
Proof.
  induction a as [|c a IH]; [reflexivity|].
  rewrite string_app_cons. simpl. rewrite IH, andb_assoc. reflexivity.
Qed.

Lemma numeral_zeros k : numeral (zeros k) = true.
Proof. induction k as [|k IH]; [reflexivity | exact IH]. Qed.

Lemma numeral_string_of_uint d : numeral (NilEmpty.string_of_uint d) = true.
Proof. induction d; simpl; try assumption; reflexivity. Qed.

Lemma numeral_decimal n : numeral (decimal n) = true.
Proof.
  unfold decimal, NilZero.string_of_uint.
  destruct (N.to_uint n); try reflexivity; apply numeral_string_of_uint.
Qed.

Lemma numeral_format_0d width n : numeral (format_0d width n) = true.
Proof.
  unfold format_0d, zfill. destruct (n <? 0)%Z; simpl;
    rewrite numeral_app, numeral_zeros, numeral_decimal; reflexivity.
Qed.

(** [split] leaves a text without the separator in one piece, and cuts
    at the first separator otherwise. *)
Lemma split_on_dotless s : dotless s = true -> split_on dot s = [s].
Proof.
  induction s as [|c r IH]; simpl; [reflexivity|]. intros H.
  apply andb_true_iff in H as [Hc Hr]. apply negb_true_iff in Hc.
  rewrite Hc, (IH Hr). reflexivity.
Qed.

Lemma split_on_app a b :
  dotless a = true -> split_on dot (a +:+ String dot b) = a :: split_on dot b.
Proof.
  induction a as [|c a IH]; intros H.
  - reflexivity.
  - simpl in H. apply andb_true_iff in H as [Hc Ha]. apply negb_true_iff in Hc.
    rewrite string_app_cons. simpl. rewrite Hc, (IH Ha). reflexivity.
Qed.

Lemma split_on_pieces s :
  Forall (fun piece => dotless piece = true) (split_on dot s).
Proof.
  induction s as [|c r IH]; simpl; [repeat constructor|].
  destruct (Ascii.eqb c dot) eqn:Hc.
  - constructor; [reflexivity | exact IH].
  - destruct (split_on dot r) as [|h t]; [repeat constructor; simpl; rewrite Hc; reflexivity|].
    apply Forall_cons in IH as [Hh Ht]. constructor; [|exact Ht].
    simpl. rewrite Hc, Hh. reflexivity.
Qed.

(** [str.strip] has nothing to remove from a text without white space. *)
Lemma rev_onto_rev_onto s a b : rev_onto (rev_onto s a) b = rev_onto a (s +:+ b).
Proof.
  revert a b. induction s as [|c r IH]; intros a b; [reflexivity|].
  simpl. rewrite IH. reflexivity.
Qed.

Lemma spaceless_rev_onto s a :
  spaceless (rev_onto s a) = spaceless s && spaceless a.
Proof.
  revert a. induction s as [|c r IH]; intros a; [reflexivity|].
  simpl. rewrite IH. simpl. destruct (is_space c), (spaceless r); reflexivity.
Qed.

Lemma lstrip_spaceless s : spaceless s = true -> lstrip s = s.
Proof.
  destruct s as [|c r]; [reflexivity|]. simpl. intros H.
  apply andb_true_iff in H as [Hc _]. apply negb_true_iff in Hc.
  rewrite Hc. reflexivity.
Qed.

Lemma strip_spaceless s : spaceless s = true -> strip s = s.
Proof.
  intros H. unfold strip, string_rev.
  rewrite (lstrip_spaceless s H).
  rewrite lstrip_spaceless by (rewrite spaceless_rev_onto, H; reflexivity).
  rewrite rev_onto_rev_onto. simpl.
  clear H. induction s as [|c r IH]; [reflexivity|].
  rewrite string_app_cons, IH. reflexivity.
Qed.

Lemma is_int_space_is_space c : is_int_space c = true -> is_space c = true.
Proof.
  destruct c as [[] [] [] [] [] [] [] []]; vm_compute; intros H;
    first [discriminate H | reflexivity].
Qed.

Lemma int_lstrip_spaceless s : spaceless s = true -> int_lstrip s = s.
Proof.
  destruct s as [|c r]; [reflexivity|]. simpl. intros H.
  apply andb_true_iff in H as [Hc _]. apply negb_true_iff in Hc.
  destruct (is_int_space c) eqn:Hi; [|reflexivity].
  apply is_int_space_is_space in Hi. congruence.
Qed.

Lemma int_strip_spaceless s : spaceless s = true -> int_strip s = s.
Proof.
  intros H. unfold int_strip, string_rev.
  rewrite (int_lstrip_spaceless s H).
  rewrite int_lstrip_spaceless by (rewrite spaceless_rev_onto, H; reflexivity).
  rewrite rev_onto_rev_onto. simpl.
  clear H. induction s as [|c r IH]; [reflexivity|].
  rewrite string_app_cons, IH. reflexivity.
Qed.

(** Reading back the digits that the d format wrote. *)
Lemma digits_from_string_of_uint d :
  forall acc after_digit,
    d <> Decimal.Nil \/ after_digit = true ->
    digits_from acc after_digit (NilEmpty.string_of_uint d) = Some (uint_value acc d).
Proof.
  induction d; intros acc after_digit Hd;
    try (simpl; apply IHd; right; reflexivity).
  destruct Hd as [Hd | ->]; [congruence | reflexivity].
Qed.

Lemma of_uint_acc_value d :
  forall acc, Z.pos (Pos.of_uint_acc d acc) = uint_value (Z.pos acc) d.
Proof.
  induction d; intros acc; simpl; try reflexivity; rewrite IHd; f_equal; lia.
Qed.

Lemma of_uint_value d : Z.of_N (N.of_uint d) = uint_value 0 d.
Proof.
  unfold N.of_uint.
  induction d; simpl; try reflexivity; try exact IHd; apply of_uint_acc_value.
Qed.

Lemma digits_from_decimal n after_digit :
  digits_from 0 after_digit (decimal n) = Some (Z.of_N n).
Proof.
  unfold decimal.
  rewrite <- (DecimalN.Unsigned.of_to n) at 2. rewrite of_uint_value.
  unfold NilZero.string_of_uint.
  destruct (N.to_uint n) eqn:Hd; try reflexivity;
    rewrite <- Hd at 1; rewrite <- Hd;
    apply digits_from_string_of_uint; left; congruence.
Qed.

Lemma digits_from_zeros k t after_digit :
  t <> EmptyString ->
  (forall b, digits_from 0 b t = digits_from 0 after_digit t) ->
  digits_from 0 after_digit (zeros k +:+ t) = digits_from 0 after_digit t.
Proof.
  intros Ht Hb. induction k as [|k IH]; [reflexivity|].
  simpl zeros. rewrite string_app_cons. simpl.
  change (is_digit (ascii_of_nat 48)) with true. cbn match.
  change (10 * 0 + digit_value (ascii_of_nat 48))%Z with 0%Z.
  destruct k as [|k']; [apply Hb|].
  simpl zeros in *. rewrite string_app_cons in *. simpl in *.
  change (is_digit (ascii_of_nat 48)) with true in *. cbn match in *.
  exact IH.
Qed.

Lemma digit_is_no_sign c :
  is_digit c = true ->
  Ascii.eqb c hyphen = false /\ Ascii.eqb c (ascii_of_nat 43) = false.
Proof.
  destruct c as [[] [] [] [] [] [] [] []]; vm_compute; intros H;
    first [discriminate H | split; reflexivity].
Qed.

Lemma decimal_starts_with_digit n :
  exists c r, decimal n = String c r /\ is_digit c = true.
Proof.
  unfold decimal, NilZero.string_of_uint.
  destruct (N.to_uint n); simpl; eexists _, _; split; reflexivity.
Qed.

Lemma zfill_starts_with_digit width n :
  exists c r, zfill width (decimal n) = String c r /\ is_digit c = true.
Proof.
  unfold zfill. destruct (width - String.length (decimal n)) as [|k].
  - apply decimal_starts_with_digit.
  - simpl zeros. rewrite string_app_cons. eexists _, _. split; reflexivity.
Qed.

Lemma digits_from_zfill width n :
  digits_from 0 false (zfill width (decimal n)) = Some (Z.of_N n).
Proof.
  unfold zfill. rewrite digits_from_zeros.
  - apply digits_from_decimal.
  - destruct (decimal_starts_with_digit n) as [c [r [H _]]]. rewrite H. discriminate.
  - intros b. rewrite !digits_from_decimal. reflexivity.
Qed.

(** [int] reads back what the d format wrote. *)
Lemma py_int_format_0d width n : py_int (format_0d width n) = Some n.
Proof.
  unfold py_int. rewrite int_strip_spaceless
    by (apply numeral_spaceless, numeral_format_0d).
  unfold format_0d. destruct (n <? 0)%Z eqn:Hn.
  - rewrite Ascii.eqb_refl, digits_from_zfill. simpl. f_equal.
    apply Z.ltb_lt in Hn. lia.
  - destruct (zfill_starts_with_digit width (Z.abs_N n)) as [c [r [Hs Hc]]].
    pose proof (digits_from_zfill width (Z.abs_N n)) as Hd.
    rewrite Hs in *. destruct (digit_is_no_sign c Hc) as [H1 H2].
    rewrite H1, H2, Hd. f_equal. apply Z.ltb_ge in Hn. lia.
Qed.

(** Formatting a formatted chapter number changes nothing: the second
    formatting, in [extract_text_from_url], is harmless. *)
Lemma format_chapter_number_idempotent chapter fc :
  format_chapter_number chapter = Ok fc -> format_chapter_number fc = Ok fc.
Proof.
  unfold format_chapter_number at 1.
  pose proof (split_on_pieces chapter) as Hpieces.
  destruct (split_on dot chapter) as [|p1 [|p2 [|p3 rest]]]; try discriminate.
  - destruct (py_int chapter) as [n|]; [|discriminate]. intros H. injection H as <-.
    unfold format_chapter_number.
    rewrite split_on_dotless by (apply numeral_dotless, numeral_format_0d).
    rewrite py_int_format_0d. reflexivity.
  - destruct (py_int p1) as [n|]; [|discriminate]. intros H. injection H as <-.
    apply Forall_cons in Hpieces as [_ Hpieces].
    apply Forall_cons in Hpieces as [Hp2 _].
    unfold format_chapter_number.
    rewrite split_on_app by (apply numeral_dotless, numeral_format_0d).
    rewrite (split_on_dotless p2 Hp2), py_int_format_0d. reflexivity.
Qed.

(** ** Framing the effects *)

Global Instance keeps_preorder {X : Type} (field : world -> X) : PreOrder (keeps field).
Proof.
  split; [intros w; reflexivity|].
  intros a b c Hab Hbc. unfold keeps in *. congruence.
Qed.

Global Instance dirs_grow_preorder : PreOrder dirs_grow.
Proof.
  split; [intros w; unfold dirs_grow; set_solver|].
  intros a b c Hab Hbc. unfold dirs_grow in *. set_solver.
Qed.

Global Instance requests_extend_preorder (P : request -> Prop) :
  PreOrder (requests_extend P).
Proof.
  split.
  - intros w. exists []. split; [symmetry; apply app_nil_r | constructor].
  - intros a b c [e1 [H1 F1]] [e2 [H2 F2]]. exists (e1 ++ e2). split.
    + rewrite H2, H1, app_assoc. reflexivity.
    + apply Forall_app. split; assumption.
Qed.

Global Instance both_preorder (R1 R2 : relation world)
  `{!PreOrder R1} `{!PreOrder R2} : PreOrder (both R1 R2).
Proof.
  split.
  - intros w. split; reflexivity.
  - intros a b c [H1 H2] [H3 H4]. split; etransitivity; eassumption.
Qed.

Global Instance counting_frame_preorder : PreOrder counting_frame.
Proof. unfold counting_frame. apply _. Qed.

Section Stable.

Context (R : relation world) `{!PreOrder R}.

Lemma stable_ret {A : Type} (a : A) : stable R (ret a).
Proof. intros w. reflexivity. Qed.

Lemma stable_lift {A : Type} (r : result A) : stable R (lift r).
Proof. intros w. reflexivity. Qed.

Lemma stable_raise {A : Type} (e : exn) : stable R (raise e : M A).
Proof. intros w. reflexivity. Qed.

Lemma stable_modify (f : world -> world) :
  (forall w, R w (f w)) -> stable R (modify f).
Proof. intros H w. apply H. Qed.

Lemma stable_gets {A : Type} (f : world -> A) : stable R (gets f).
Proof. intros w. reflexivity. Qed.

Lemma stable_bind {A B : Type} (m : M A) (k : A -> M B) :
  stable R m -> (forall a, stable R (k a)) -> stable R (bind m k).
Proof.
  intros Hm Hk w. unfold bind. specialize (Hm w).
  destruct (m w) as [[a| |] w1]; simpl in *; try assumption.
  etransitivity; [exact Hm | apply Hk].
Qed.

Lemma stable_except {A : Type} (body handler : M A) :
  stable R body -> stable R handler -> stable R (except_client_error body handler).
Proof.
  intros Hb Hh w. unfold except_client_error. specialize (Hb w).
  destruct (body w) as [[a|e|] w1]; simpl in *; try assumption.
  destruct e; simpl; try assumption.
  etransitivity; [exact Hb | apply Hh].
Qed.

Lemma stable_for_each {A : Type} (l : list A) (body : A -> M unit) :
  (forall x, stable R (body x)) -> stable R (for_each l body).
Proof.
  intros Hb. induction l as [|x l IH]; simpl.
  - apply stable_ret.
  - apply stable_bind; [apply Hb | intros _; exact IH].
Qed.

Lemma stable_session_get (site : call_site) (url : string) :
  (forall w, R w (log_request (site, url) w)) -> stable R (session_get site url).
Proof.
  intros H w. unfold session_get.
  destruct (server w (length (requests w)) url); simpl; apply H.
Qed.

End Stable.

(** The methods whose body is made of the combinators. *)
Ltac unfold_method :=
  unfold init, read_body, download_image, extract_text_from_url,
    count_pages_in_chapter,
    save_history, load_history, m4l.read_total, m4l.colorful_progress_bar,
    m4l.fetch_page, m4l.download_chapter_images, m4l.download_chapters,
    M4L2.fetch_page, M4L2.download_chapter_images, M4L2.fetch_pass,
    M4L2.download_chapters.

(** One step of a framing proof: peel a combinator, split on what the
    code branches on, use a fact already known about a method or open
    the method; [leaf] closes the primitive effects. *)
Ltac stable_step leaf :=
  match goal with
  | |- PreOrder _ => apply _
  | |- stable _ (ret _) => apply stable_ret
  | |- stable _ (lift _) => apply stable_lift
  | |- stable _ (raise _) => apply stable_raise
  | |- stable _ (bind _ _) => apply stable_bind
  | |- stable _ (except_client_error _ _) => apply stable_except
  | |- stable _ (for_each _ _) => apply stable_for_each
  | |- stable _ (session_get _ _) => apply stable_session_get
  | |- stable _ (modify _) => apply stable_modify
  | |- stable _ (gets _) => apply stable_gets
  | |- stable _ (mkdir_parents _) => unfold mkdir_parents
  | |- stable _ (if ?b then _ else _) => destruct b
  | |- stable _ (match ?x with _ => _ end) => destruct x
  | |- stable _ _ => first [solve [auto] | progress unfold_method]
  | |- forall _, _ => intros ?
  | |- _ => solve [leaf]
  end.

Ltac stable_with leaf := repeat (stable_step leaf).

(** Primitive effects against the relations above. *)
Ltac frame_leaf :=
  unfold counting_frame, both, keeps, dirs_grow, requests_extend,
    log_request, add_dirs, put_file, put_history, add_frame, put_total;
  simpl;
  repeat match goal with |- _ /\ _ => split end;
  first
    [ reflexivity
    | solve [set_solver]
    | solve [eexists [_]; split;
             [reflexivity
             | repeat constructor; unfold site_is_not, viewer_request; simpl;
               solve [discriminate | auto]]]
    | solve [exists []; split; [symmetry; apply app_nil_r | constructor]] ].

(** Framing a method. *)
Ltac frame_method := simpl; stable_with frame_leaf.

(** *** The server is never changed *)

Lemma download_image_keeps_server url p :
  stable (keeps server) (download_image url p).
Proof. frame_method. Qed.

Lemma extract_text_from_url_keeps_server self c :
  stable (keeps server) (extract_text_from_url self c).
Proof. frame_method. Qed.



Lemma m4l_download_chapter_images_keeps_server self c n i :
  stable (keeps server) (m4l.download_chapter_images self c n i).
Proof.
  pose proof (extract_text_from_url_keeps_server self).
  pose proof download_image_keeps_server. frame_method.
Qed.


Lemma m4l_fetch_pass_keeps_server self d i chapters :
  stable (keeps server) (m4l.fetch_pass self d i chapters).
Proof.
  pose proof (m4l_download_chapter_images_keeps_server self).
  revert i. induction chapters as [|c rest IH]; intros i; simpl; frame_method.
Qed.

(** *** No directory is ever removed *)

Lemma init_dirs_grow name uppercase edit :
  stable dirs_grow (init name uppercase edit).
Proof. frame_method. Qed.















(** *** The counting pass only talks to the server *)

Lemma extract_text_from_url_counting_frame self c :
  stable counting_frame (extract_text_from_url self c).
Proof. frame_method. Qed.

Lemma probe_loop_counting_frame self fuel fc addr png n :
  stable counting_frame (probe_loop self fuel fc addr png n).
Proof.
  revert png n. induction fuel as [|fuel IH]; intros png n; simpl;
    stable_with frame_leaf.
Qed.

Lemma count_pages_in_chapter_counting_frame self fuel c :
  stable counting_frame (count_pages_in_chapter self fuel c).
Proof.
  pose proof (extract_text_from_url_counting_frame self).
  pose proof (probe_loop_counting_frame self fuel). frame_method.
Qed.

Lemma m4l_counting_pass_counting_frame self fuel chapters d :
  stable counting_frame (m4l.counting_pass self fuel chapters d).
Proof.
  pose proof (count_pages_in_chapter_counting_frame self fuel).
  revert d. induction chapters as [|c rest IH]; intros d; simpl; frame_method.
Qed.

Lemma M4L2_counting_pass_counting_frame self fuel chapters d :
  stable counting_frame (M4L2.counting_pass self fuel chapters d).
Proof.
  pose proof (count_pages_in_chapter_counting_frame self fuel).
  revert d. induction chapters as [|c rest IH]; intros d; simpl; frame_method.
Qed.

(** *** The fetch pass of m4l.py sends no probe *)


Lemma extract_text_from_url_no_probe self c :
  stable (requests_extend (site_is_not ProbePage)) (extract_text_from_url self c).
Proof. frame_method. Qed.

Lemma download_image_no_probe url p :
  stable (requests_extend (site_is_not ProbePage)) (download_image url p).
Proof. frame_method. Qed.

Lemma m4l_download_chapter_images_no_probe self c n i :
  stable (requests_extend (site_is_not ProbePage))
    (m4l.download_chapter_images self c n i).
Proof.
  pose proof (extract_text_from_url_no_probe self).
  pose proof download_image_no_probe. frame_method.
Qed.

Lemma m4l_fetch_pass_no_probe self d i chapters :
  stable (requests_extend (site_is_not ProbePage)) (m4l.fetch_pass self d i chapters).
Proof.
  pose proof (m4l_download_chapter_images_no_probe self).
  revert i. induction chapters as [|c rest IH]; intros i; simpl; frame_method.
Qed.

(** ** Running a computation *)

Lemma bind_ok {A B : Type} (m : M A) (k : A -> M B) w a w1 :
  m w = (Ok a, w1) -> bind m k w = k a w1.
Proof. intros H. unfold bind. rewrite H. reflexivity. Qed.

Lemma bind_raise {A B : Type} (m : M A) (k : A -> M B) w e w1 :
  m w = (Raise e, w1) -> bind m k w = (Raise e, w1).
Proof. intros H. unfold bind. rewrite H. reflexivity. Qed.

Lemma bind_lift_ok {A B : Type} (r : result A) (k : A -> M B) w a :
  r = Ok a -> bind (lift r) k w = k a w.
Proof. intros ->. reflexivity. Qed.

Lemma session_get_response site url w status body :
  server w (length (requests w)) url = Response status body ->
  session_get site url w = (Ok (status, Some body), log_request (site, url) w).
Proof. intros H. unfold session_get. rewrite H. reflexivity. Qed.

Lemma session_get_truncated site url w status :
  server w (length (requests w)) url = Truncated status ->
  session_get site url w = (Ok (status, None), log_request (site, url) w).
Proof. intros H. unfold session_get. rewrite H. reflexivity. Qed.

Lemma session_get_unreachable site url w :
  server w (length (requests w)) url = Unreachable ->
  session_get site url w = (Raise ClientError, log_request (site, url) w).
Proof. intros H. unfold session_get. rewrite H. reflexivity. Qed.

Lemma length_requests_log_request r w :
  length (requests (log_request r w)) = S (length (requests w)).
Proof. simpl. rewrite length_app. simpl. lia. Qed.

(** ** The routing token *)

Lemma until_quote_app g rest :
  until_quote (g +:+ String dquote rest)
  = match until_quote g with Some x => Some x | None => Some g end.
Proof.
  induction g as [|c g IH]; [reflexivity|].
  change (String c g +:+ String dquote rest) with (String c (g +:+ String dquote rest)).
  simpl. destruct (Ascii.eqb c dquote); [reflexivity|].
  rewrite IH. destruct (until_quote g); reflexivity.
Qed.

(** The token that the pattern captures is never empty. *)
Lemma match_here_nonempty s : match_here s <> Some EmptyString.
Proof.
  unfold match_here.
  repeat match goal with
         | |- context [match ?x with _ => _ end] => destruct x; try discriminate
         end.
Qed.

Lemma extract_text_from_html_nonempty s :
  extract_text_from_html s <> Some EmptyString.
Proof.
  induction s as [|c r IH]; simpl.
  - pose proof (match_here_nonempty EmptyString).
    destruct (match_here EmptyString); congruence.
  - pose proof (match_here_nonempty (String c r)).
    destruct (match_here (String c r)); congruence.
Qed.

Lemma truthy_extract_text_from_html s :
  truthy (extract_text_from_html s) = extract_text_from_html s.
Proof.
  pose proof (extract_text_from_html_nonempty s).
  destruct (extract_text_from_html s) as [[|c r]|]; [congruence | reflexivity..].
Qed.

(** What the resolver does, case by case on the answers of the server. *)
Lemma extract_text_from_url_run self chapter fc w :
  format_chapter_number chapter = Ok fc ->
  let primary := (ViewerPage, viewer_url self fc "") in
  let alternate := (AlternatePage, viewer_url self fc "-index-2") in
  let now := length (requests w) in
  extract_text_from_url self chapter w
  = match server w now (snd primary) with
    | Response status body =>
        if Nat.eqb status 200 then
          match extract_text_from_html body with
          | Some token => (Ok (Some token), log_request primary w)
          | None =>
              (Ok (alternate_token (server w (S now) (snd alternate))),
               log_request alternate (log_request primary w))
          end
        else (Ok None, log_request primary w)
    | Unreachable => (Ok None, log_request primary w)
    | Truncated _ => (Ok None, log_request primary w)
    end.
Proof.
  intros Hfc primary alternate now.
  unfold extract_text_from_url. rewrite (bind_lift_ok _ _ _ _ Hfc).
  unfold except_client_error. cbn [snd primary alternate].
  destruct (server w now (viewer_url self fc "")) as [status body| |status] eqn:Hget.
  - rewrite (bind_ok _ _ _ _ _ (session_get_response _ _ _ _ _ Hget)).
    cbn [fst snd]. destruct (Nat.eqb status 200); [|reflexivity].
    rewrite (bind_ok _ _ _ _ _ (eq_refl : read_body (status, Some body) _ = _)).
    rewrite truthy_extract_text_from_html.
    destruct (extract_text_from_html body) as [token|]; [reflexivity|].
    set (w1 := log_request (ViewerPage, viewer_url self fc "") w).
    assert (Hsrv : server w1 (length (requests w1)) (viewer_url self fc "-index-2")
                   = server w (S now) (viewer_url self fc "-index-2")).
    { unfold w1. rewrite length_requests_log_request. reflexivity. }
    destruct (server w (S now) (viewer_url self fc "-index-2"))
      as [status2 body2| |status2] eqn:Halt.
    + rewrite (bind_ok _ _ _ _ _ (session_get_response _ _ _ _ _ Hsrv)).
      cbn [fst snd alternate_token]. destruct (Nat.eqb status2 200); reflexivity.
    + rewrite (bind_raise _ _ _ _ _ (session_get_unreachable _ _ _ Hsrv)).
      reflexivity.
    + rewrite (bind_ok _ _ _ _ _ (session_get_truncated _ _ _ _ Hsrv)).
      cbn [fst snd alternate_token]. destruct (Nat.eqb status2 200); reflexivity.
  - rewrite (bind_raise _ _ _ _ _ (session_get_unreachable _ _ _ Hget)).
    reflexivity.
  - rewrite (bind_ok _ _ _ _ _ (session_get_truncated _ _ _ _ Hget)).
    cbn [fst snd]. destruct (Nat.eqb status 200); reflexivity.
Qed.

(** C1, amended.  The resolver falls back to the index-2 page only when
    the primary viewer page answers 200 and holds no token: it then
    issues exactly one further GET, to the index-2 page of the same
    chapter, applies the same extraction to its body, and returns Absent
    only when that attempt fails too.  When the primary GET has another
    status, or fails in transport, before the status or while the body
    is read, the resolver returns Absent at once and issues no further
    GET. *)
Theorem resolver_fallback (self : downloader) (chapter fc : string) (w : world) :
  format_chapter_number chapter = Ok fc ->
  let primary := (ViewerPage, viewer_url self fc "") in
  let alternate := (AlternatePage, viewer_url self fc "-index-2") in
  let now := length (requests w) in
  (forall body,
      server w now (snd primary) = Response 200 body ->
      extract_text_from_html body = None ->
      extract_text_from_url self chapter w
      = (Ok (alternate_token (server w (S now) (snd alternate))),
         log_request alternate (log_request primary w)))
  /\ (forall body token,
      server w now (snd primary) = Response 200 body ->
      extract_text_from_html body = Some token ->
      extract_text_from_url self chapter w = (Ok (Some token), log_request primary w))
  /\ (forall status body,
      server w now (snd primary) = Response status body -> status <> 200 ->
      extract_text_from_url self chapter w = (Ok None, log_request primary w))
  /\ (server w now (snd primary) = Unreachable ->
      extract_text_from_url self chapter w = (Ok None, log_request primary w))
  /\ (forall status,
      server w now (snd primary) = Truncated status ->
      extract_text_from_url self chapter w = (Ok None, log_request primary w)).
Proof.
  intros Hfc primary alternate now.
  rewrite (extract_text_from_url_run self chapter fc w Hfc).
  fold primary alternate now. repeat split.
  - intros body Hget Hnone. rewrite Hget, Hnone. reflexivity.
  - intros body token Hget Hsome. rewrite Hget, Hsome. reflexivity.
  - intros status body Hget Hne. rewrite Hget.
    apply Nat.eqb_neq in Hne. rewrite Hne. reflexivity.
  - intros Hget. rewrite Hget. reflexivity.
  - intros status Hget. rewrite Hget. reflexivity.
Qed.

Lemma resolver_fallback_witness :
  let w := initial_world primary_missing_server in
  extract_text_from_url one_piece "1" w
  = (Ok None, log_request (ViewerPage, viewer_url one_piece "0001" "") w).
Proof.
  intros w.
  destruct (resolver_fallback one_piece "1" "0001" w eq_refl) as [_ [_ [H _]]].
  apply (H 404 EmptyString); [reflexivity | discriminate].
Defined.

(** C1 as stated fails: the primary page answers 404, the index-2 page
    would give the token, and the resolver returns Absent after its one
    GET, without a request to the index-2 page. *)
Lemma resolver_gives_up_on_404 :
  let w := initial_world primary_missing_server in
  let primary := viewer_url one_piece "0001" "" in
  let alternate := viewer_url one_piece "0001" "-index-2" in
  server w 0 primary = Response 404 EmptyString
  /\ alternate_token (server w 1 alternate) = Some "h.example"
  /\ fst (extract_text_from_url one_piece "1" w) = Ok None
  /\ requests (snd (extract_text_from_url one_piece "1" w)) = [(ViewerPage, primary)]
  /\ ~ In (AlternatePage, alternate)
         (requests (snd (extract_text_from_url one_piece "1" w))).
Proof.
  vm_compute. repeat split; try reflexivity.
  intros [H|[]]. discriminate H.
Qed.

(** ** Counting the pages of a chapter *)

Lemma has_pages_from_next srv slug fc address first k :
  has_pages_from srv slug fc address first (S k) ->
  has_pages_from srv slug fc address (S first) k.
Proof.
  intros [Hyes Hno]. split.
  - intros i Hi. apply Hyes. lia.
  - replace (S first + k) with (first + S k) by lia. exact Hno.
Qed.

(** The probing loop stops at the first page that is not there, however
    far that is, and has then counted the pages before it. *)
Lemma probe_loop_exact self fc address k :
  forall fuel first count w,
    k < fuel ->
    has_pages_from (server w) (formatted_manga_name self) fc address first k ->
    exists w', probe_loop self fuel fc address first count w = (Ok (count + k), w')
               /\ server w' = server w.
Proof.
  induction k as [|k IH]; intros fuel first count w Hfuel Hpages;
    (destruct fuel as [|fuel]; [lia|]); simpl.
  - destruct Hpages as [_ [url [Hurl Hno]]].
    replace (first + 0) with first in Hurl by lia.
    rewrite (bind_lift_ok _ _ _ _ Hurl).
    destruct (Hno (length (requests w))) as [status [body [Hget Hne]]].
    rewrite (bind_ok _ _ _ _ _ (session_get_response _ _ _ _ _ Hget)).
    cbn [fst]. apply Nat.eqb_neq in Hne. rewrite Hne.
    exists (log_request (ProbePage, url) w). split; [|reflexivity].
    unfold ret. f_equal. f_equal. lia.
  - destruct (proj1 Hpages first ltac:(lia)) as [url [Hurl Hyes]].
    rewrite (bind_lift_ok _ _ _ _ Hurl).
    destruct (Hyes (length (requests w))) as [body Hget].
    rewrite (bind_ok _ _ _ _ _ (session_get_response _ _ _ _ _ Hget)).
    cbn [fst]. rewrite Nat.eqb_refl.
    destruct (IH fuel (S first) (S count) (log_request (ProbePage, url) w))
      as [w' [Hrun Hsrv]]; [lia | apply has_pages_from_next; exact Hpages |].
    exists w'. split; [|exact Hsrv].
    rewrite Hrun. f_equal. f_equal. lia.
Qed.

Lemma alternate_token_nonempty answer :
  alternate_token answer <> Some EmptyString.
Proof.
  destruct answer as [status body| |status]; simpl; try discriminate.
  destruct (Nat.eqb status 200); [apply extract_text_from_html_nonempty | discriminate].
Qed.

Lemma extract_text_from_url_nonempty self c w w' :
  extract_text_from_url self c w <> (Ok (Some EmptyString), w').
Proof.
  destruct (format_chapter_number c) as [fc| |] eqn:Hfc;
    [|unfold extract_text_from_url, bind, lift; rewrite Hfc; discriminate..].
  rewrite (extract_text_from_url_run self c fc w Hfc). cbv zeta.
  destruct (server w (length (requests w)) _) as [status body| |status];
    try discriminate.
  destruct (Nat.eqb status 200); [|discriminate].
  destruct (extract_text_from_html body) as [token|] eqn:Htoken.
  - pose proof (extract_text_from_html_nonempty body). congruence.
  - intros H. injection H as H _. exact (alternate_token_nonempty _ H).
Qed.

(** C5.  For every chapter whose number formats: when the routing-token
    resolver returns Absent, [count_pages_in_chapter] returns 0; when it
    returns a token, then against a page source that answers 200 for the
    pages 1..k and something else for page k+1, it returns exactly k, for
    every k, as soon as the loop is given more than k steps. *)
Theorem count_pages_in_chapter_exact (self : downloader) (chapter fc : string)
    (w w1 : world) (token : option string) :
  format_chapter_number chapter = Ok fc ->
  extract_text_from_url self fc w = (Ok token, w1) ->
  match token with
  | None => forall fuel, count_pages_in_chapter self fuel chapter w = (Ok 0, w1)
  | Some address =>
      forall k fuel,
        has_pages (server w) (formatted_manga_name self) fc address k ->
        k < fuel ->
        exists w2, count_pages_in_chapter self fuel chapter w = (Ok k, w2)
  end.
Proof.
  intros Hfc Hresolve. unfold count_pages_in_chapter.
  destruct token as [address|].
  - intros k fuel Hpages Hfuel.
    rewrite (bind_lift_ok _ _ _ _ Hfc), (bind_ok _ _ _ _ _ Hresolve).
    destruct address as [|c address'].
    { exfalso. exact (extract_text_from_url_nonempty _ _ _ _ Hresolve). }
    cbn [truthy].
    assert (Hsrv : server w1 = server w).
    { pose proof (extract_text_from_url_keeps_server self fc w) as H.
      rewrite Hresolve in H. exact H. }
    unfold has_pages in Hpages. rewrite <- Hsrv in Hpages.
    destruct (probe_loop_exact self fc (String c address') k fuel 1 0 w1 Hfuel Hpages)
      as [w2 [Hrun _]].
    exists w2. exact Hrun.
  - intros fuel.
    rewrite (bind_lift_ok _ _ _ _ Hfc), (bind_ok _ _ _ _ _ Hresolve).
    reflexivity.
Qed.

Lemma count_pages_in_chapter_exact_witness :
  exists w2,
    count_pages_in_chapter one_piece 3 "1" (initial_world two_page_server)
    = (Ok 2, w2).
Proof.
  pose (w := initial_world two_page_server).
  pose (w1 := log_request (ViewerPage, viewer_url one_piece "0001" "") w).
  apply (count_pages_in_chapter_exact one_piece "1" "0001" w w1 (Some "h.example")
           eq_refl eq_refl 2 3); [|lia].
  split.
  - intros i Hi.
    assert (Hcases : i = 1 \/ i = 2) by lia.
    destruct Hcases as [-> | ->]; eexists; (split; [reflexivity|]);
      intros t; eexists; reflexivity.
  - eexists. split; [reflexivity|]. intros t. exists 404, EmptyString.
    split; [reflexivity | discriminate].
Defined.

(** ** The confirmation gate *)

Lemma upper_char_Y c :
  upper_char c = ascii_of_nat 89 -> c = ascii_of_nat 89 \/ c = ascii_of_nat 121.
Proof.
  destruct c as [[] [] [] [] [] [] [] []]; vm_compute; intros H;
    first [discriminate H | left; reflexivity | right; reflexivity].
Qed.

(** The gate lets the batch go on exactly when the answer, stripped of
    the white space around it, is the letter Y in either case. *)
Lemma proceeds_iff user_input :
  proceeds user_input = true <-> strip user_input = "Y" \/ strip user_input = "y".
Proof.
  unfold proceeds. rewrite String.eqb_eq. split.
  - destruct (strip user_input) as [|c [|c' r]]; simpl; intros H; try discriminate.
    injection H as H. destruct (upper_char_Y c H) as [-> | ->]; auto.
  - intros [-> | ->]; reflexivity.
Qed.


(** C8.  When the answer at the confirmation gate is not the letter Y in
    either case (white space around it aside), the batch ends where the
    counting pass ended: the world is the one the counting pass left, so
    no request is made after it; no page file is written, the ledger is as
    it was (it is not even created), no directory is made and nothing is
    drawn; the requests made are those of the counting pass, none of them
    a page fetch.  This holds for both files. *)
Theorem abort_leaves_no_trace (self : downloader) (fuel : nat)
    (chapters : list string) (user_input : string) (w : world) :
  strip user_input <> "Y" -> strip user_input <> "y" ->
  (let counted := m4l.counting_pass self fuel chapters ∅ (put_total 0 w) in
   let w' := snd (m4l.download_chapters self fuel chapters user_input w) in
   w' = snd counted
   /\ (forall plan, fst counted = Ok plan ->
       fst (m4l.download_chapters self fuel chapters user_input w) = Ok tt)
   /\ files w' = files w /\ history_file w' = history_file w
   /\ dirs w' = dirs w /\ frames w' = frames w
   /\ exists counting_requests,
        requests w' = requests w ++ counting_requests
        /\ Forall (site_is_not FetchPage) counting_requests)
  /\ (let counted := M4L2.counting_pass self fuel chapters ∅ w in
      let w' := snd (M4L2.download_chapters self fuel chapters user_input w) in
      w' = snd counted
      /\ (forall plan, fst counted = Ok plan ->
          fst (M4L2.download_chapters self fuel chapters user_input w) = Ok tt)
      /\ files w' = files w /\ history_file w' = history_file w
      /\ dirs w' = dirs w /\ frames w' = frames w
      /\ exists counting_requests,
           requests w' = requests w ++ counting_requests
           /\ Forall (site_is_not FetchPage) counting_requests).
Proof.
  intros HY Hy.
  assert (Hgate : proceeds user_input = false).
  { destruct (proceeds user_input) eqn:H; [|reflexivity].
    apply proceeds_iff in H as [H|H]; contradiction. }
  split.
  - pose proof (m4l_counting_pass_counting_frame self fuel chapters ∅ (put_total 0 w))
      as Hframe.
    assert (Hrun : m4l.download_chapters self fuel chapters user_input w
                   = match m4l.counting_pass self fuel chapters ∅ (put_total 0 w) with
                     | (Ok _, w1) => (Ok tt, w1)
                     | (Raise e, w1) => (Raise e, w1)
                     | (OutOfFuel, w1) => (OutOfFuel, w1)
                     end).
    { unfold m4l.download_chapters, bind at 1, modify. unfold bind at 1.
      destruct (m4l.counting_pass self fuel chapters ∅ (put_total 0 w))
        as [[plan|e|] w1]; try reflexivity.
      rewrite Hgate. reflexivity. }
    cbv zeta. rewrite Hrun.
    destruct (m4l.counting_pass self fuel chapters ∅ (put_total 0 w))
      as [r w1] eqn:Hcount.
    destruct Hframe as [Hfiles [Hhist [Hframes [Hdirs Hreqs]]]].
    cbn [snd] in *.
    assert (Hsnd : snd (match r with
                        | Ok _ => (Ok tt, w1)
                        | Raise e => (Raise e, w1)
                        | OutOfFuel => (OutOfFuel, w1)
                        end) = w1) by (destruct r; reflexivity).
    rewrite Hsnd. repeat split; try assumption.
    intros plan Hplan. cbn [fst] in Hplan. subst r. reflexivity.
  - pose proof (M4L2_counting_pass_counting_frame self fuel chapters ∅ w) as Hframe.
    assert (Hrun : M4L2.download_chapters self fuel chapters user_input w
                   = match M4L2.counting_pass self fuel chapters ∅ w with
                     | (Ok _, w1) => (Ok tt, w1)
                     | (Raise e, w1) => (Raise e, w1)
                     | (OutOfFuel, w1) => (OutOfFuel, w1)
                     end).
    { unfold M4L2.download_chapters, bind at 1.
      destruct (M4L2.counting_pass self fuel chapters ∅ w)
        as [[plan|e|] w1]; try reflexivity.
      rewrite Hgate. reflexivity. }
    cbv zeta. rewrite Hrun.
    destruct (M4L2.counting_pass self fuel chapters ∅ w) as [r w1] eqn:Hcount.
    destruct Hframe as [Hfiles [Hhist [Hframes [Hdirs Hreqs]]]].
    cbn [snd] in *.
    assert (Hsnd : snd (match r with
                        | Ok _ => (Ok tt, w1)
                        | Raise e => (Raise e, w1)
                        | OutOfFuel => (OutOfFuel, w1)
                        end) = w1) by (destruct r; reflexivity).
    rewrite Hsnd. repeat split; try assumption.
    intros plan Hplan. cbn [fst] in Hplan. subst r. reflexivity.
Qed.

Lemma abort_leaves_no_trace_witness :
  let w := initial_world two_page_server in
  let w' := snd (m4l.download_chapters one_piece 5 ["1"] "n" w) in
  files w' = files w /\ history_file w' = history_file w.
Proof.
  intros w w'.
  destruct (abort_leaves_no_trace one_piece 5 ["1"] "n" w) as [H _].
  - vm_compute. discriminate.
  - vm_compute. discriminate.
  - destruct H as [_ [_ [Hfiles [Hhist _]]]]. split; assumption.
Defined.

(** ** The manga folder *)

Lemma split_on_lacks sep s : lacks sep s = true -> split_on sep s = [s].
Proof.
  induction s as [|c r IH]; simpl; [reflexivity|]. intros H.
  apply andb_true_iff in H as [Hc Hr]. apply negb_true_iff in Hc.
  rewrite Hc, (IH Hr). reflexivity.
Qed.






(** ** The fetch pass of m4l.py *)

Lemma put_file_twice p first second w :
  put_file p second (put_file p first w) = put_file p second w.
Proof. unfold put_file. simpl. rewrite insert_insert_eq. reflexivity. Qed.

Lemma download_image_run url p w :
  download_image url p w
  = match fetched w url with
    | Some body =>
        (Ok true,
         put_file p body
           (add_dirs (list_to_set (ancestors (parent p)))
              (log_request (FetchPage, url) w)))
    | None => (Ok false, after_failed_fetch url p w)
    end.
Proof.
  unfold download_image, except_client_error, fetched, after_failed_fetch, opened.
  destruct (server w (length (requests w)) url) as [status body| |status] eqn:Hget.
  - rewrite (bind_ok _ _ _ _ _ (session_get_response _ _ _ _ _ Hget)).
    cbn [fst snd]. destruct (Nat.eqb status 200); [|reflexivity].
    unfold bind, mkdir_parents, modify, read_body, ret. cbn [fst snd].
    rewrite put_file_twice. reflexivity.
  - rewrite (bind_raise _ _ _ _ _ (session_get_unreachable _ _ _ Hget)).
    reflexivity.
  - rewrite (bind_ok _ _ _ _ _ (session_get_truncated _ _ _ _ Hget)).
    cbn [fst snd]. destruct (Nat.eqb status 200); reflexivity.
Qed.

Lemma download_image_keeps_total url p :
  stable (keeps total_chapters_pages) (download_image url p).
Proof. frame_method. Qed.

Lemma download_image_keeps_frames url p :
  stable (keeps frames) (download_image url p).
Proof. frame_method. Qed.

Lemma extract_text_from_url_keeps_total self c :
  stable (keeps total_chapters_pages) (extract_text_from_url self c).
Proof. frame_method. Qed.


Lemma m4l_download_chapter_images_keeps_total self c n i :
  stable (keeps total_chapters_pages) (m4l.download_chapter_images self c n i).
Proof. frame_method. Qed.

Lemma m4l_fetch_pass_keeps_total self d i chapters :
  stable (keeps total_chapters_pages) (m4l.fetch_pass self d i chapters).
Proof.
  pose proof (m4l_download_chapter_images_keeps_total self).
  revert i. induction chapters as [|c rest IH]; intros i; simpl; frame_method.
Qed.






(** What the body of the page loop does, case by case. *)
Lemma fetch_page_run self fc address folder n i p w :
  m4l.fetch_page self fc address folder n i p w
  = match generate_image_url (formatted_manga_name self) fc p address with
    | Ok url =>
        match fetched w url with
        | Some body =>
            let image_path := folder ++ [format_0d 3 (Z.of_nat p) +:+ ".png"] in
            let w1 := put_file image_path body
                        (add_dirs (list_to_set (ancestors (parent image_path)))
                           (log_request (FetchPage, url) w)) in
            match total_chapters_pages w with
            | Some T =>
                if Nat.eqb T 0 then (Raise ZeroDivisionError, w1)
                else (Ok tt, add_frame (frame_at T (i * n + p)) w1)
            | None => (Raise NameError, w1)
            end
        | None =>
            (Ok tt,
             after_failed_fetch url
               (folder ++ [format_0d 3 (Z.of_nat p) +:+ ".png"]) w)
        end
    | Raise e => (Raise e, w)
    | OutOfFuel => (OutOfFuel, w)
    end.
Proof.
  unfold m4l.fetch_page.
  destruct (generate_image_url (formatted_manga_name self) fc p address)
    as [url| |]; try reflexivity.
  rewrite (bind_lift_ok _ _ _ _ eq_refl). cbv zeta.
  unfold bind at 1. rewrite download_image_run.
  destruct (fetched w url) as [body|]; [|reflexivity].
  unfold m4l.read_total, gets, bind.
  cbn [total_chapters_pages put_file add_dirs log_request].
  destruct (total_chapters_pages w) as [T|]; [|reflexivity].
  unfold ret, m4l.colorful_progress_bar.
  destruct (Nat.eqb T 0); reflexivity.
Qed.










Lemma filter_app_bool {A : Type} (f : A -> bool) (l1 l2 : list A) :
  List.filter f (l1 ++ l2) = List.filter f l1 ++ List.filter f l2.
Proof.
  induction l1 as [|x l1 IH]; [reflexivity|].
  simpl. destruct (f x); simpl; rewrite IH; reflexivity.
Qed.







Lemma reported_all slots :
  Forall (fun s => snd s = true) slots -> reported slots = map fst slots.
Proof.
  unfold reported. induction slots as [|[v b] slots IH]; simpl; intros H;
    [reflexivity|].
  apply Forall_cons in H as [Hb H]. simpl in Hb. subst b. simpl.
  rewrite (IH H). reflexivity.
Qed.












(** ** Probes and fetches *)

Lemma sends_for_each {A : Type} (P : request -> Prop) (body : A -> M unit) l :
  (forall x, sends P 1 (body x)) -> sends P (length l) (for_each l body).
Proof.
  intros Hbody. induction l as [|x l IH]; intros w; simpl.
  - exists []. split; [symmetry; apply app_nil_r|].
    split; [constructor|]. split; [simpl; lia | reflexivity].
  - destruct (Hbody x w) as [e1 [H1 [F1 [L1 X1]]]]. unfold bind.
    destruct (body x w) as [[[]| |] w1]; cbn [fst snd] in *.
    + destruct (IH w1) as [e2 [H2 [F2 [L2 X2]]]].
      exists (e1 ++ e2). split; [rewrite H2, H1, app_assoc; reflexivity|].
      split; [apply Forall_app; split; assumption|].
      rewrite length_app. specialize (X1 tt eq_refl). split; [lia|].
      intros a Ha. specialize (X2 a Ha). lia.
    + exists e1. split; [exact H1|]. split; [exact F1|]. split; [lia|].
      intros a Ha. discriminate Ha.
    + exists e1. split; [exact H1|]. split; [exact F1|]. split; [lia|].
      intros a Ha. discriminate Ha.
Qed.

Ltac one_request :=
  eexists [_]; split; [reflexivity|];
  split; [repeat constructor|]; split; [simpl; lia|];
  intros; simpl; try reflexivity; try discriminate.

Ltac no_request :=
  exists []; split; [symmetry; apply app_nil_r|];
  split; [constructor|]; split; [simpl; lia|];
  intros; simpl; try reflexivity; try discriminate.

Lemma m4l_fetch_page_sends self fc address folder n i p :
  sends fetch_request 1 (m4l.fetch_page self fc address folder n i p).
Proof.
  intros w. rewrite fetch_page_run.
  destruct (generate_image_url (formatted_manga_name self) fc p address)
    as [url| |]; [| no_request..].
  destruct (fetched w url) as [body|];
    [|unfold after_failed_fetch; destruct (opened w url); one_request].
  cbv zeta. destruct (total_chapters_pages w) as [T|]; [|one_request].
  destruct (Nat.eqb T 0); one_request.
Qed.

Lemma M4L2_fetch_page_sends self fc address folder p :
  sends fetch_request 1 (M4L2.fetch_page self fc address folder p).
Proof.
  intros w. unfold M4L2.fetch_page.
  destruct (generate_image_url (formatted_manga_name self) fc p address)
    as [url| |]; [| no_request..].
  rewrite (bind_lift_ok _ _ _ _ eq_refl). cbv zeta.
  unfold bind. rewrite download_image_run.
  destruct (fetched w url) as [body|];
    [|unfold after_failed_fetch; destruct (opened w url)]; one_request.
Qed.

(** A probing loop that returns has sent one probe for each page it
    counted and one more, for the page that was not there. *)
Lemma probe_loop_requests self fc address fuel :
  forall first count w n w',
    probe_loop self fuel fc address first count w = (Ok n, w') ->
    exists probes,
      requests w' = requests w ++ probes
      /\ Forall probe_request probes
      /\ count + length probes = S n.
Proof.
  induction fuel as [|fuel IH]; intros first count w n w' Hrun; simpl in Hrun.
  - discriminate Hrun.
  - destruct (generate_image_url (formatted_manga_name self) fc first address)
      as [url| |]; try discriminate Hrun.
    rewrite (bind_lift_ok _ _ _ _ eq_refl) in Hrun.
    destruct (server w (length (requests w)) url) as [status body| |status] eqn:Hget.
    + rewrite (bind_ok _ _ _ _ _ (session_get_response _ _ _ _ _ Hget)) in Hrun.
      cbn [fst] in Hrun. destruct (Nat.eqb status 200).
      * destruct (IH _ _ _ _ _ Hrun) as [probes [Hreq [Hall Hlen]]].
        exists ((ProbePage, url) :: probes).
        split; [rewrite Hreq; simpl; rewrite <- app_assoc; reflexivity|].
        split; [constructor; [reflexivity | exact Hall]|]. simpl. lia.
      * injection Hrun as <- <-. exists [(ProbePage, url)].
        split; [reflexivity|]. split; [repeat constructor|]. simpl. lia.
    + rewrite (bind_raise _ _ _ _ _ (session_get_unreachable _ _ _ Hget)) in Hrun.
      discriminate Hrun.
    + rewrite (bind_ok _ _ _ _ _ (session_get_truncated _ _ _ _ Hget)) in Hrun.
      cbn [fst] in Hrun. destruct (Nat.eqb status 200).
      * destruct (IH _ _ _ _ _ Hrun) as [probes [Hreq [Hall Hlen]]].
        exists ((ProbePage, url) :: probes).
        split; [rewrite Hreq; simpl; rewrite <- app_assoc; reflexivity|].
        split; [constructor; [reflexivity | exact Hall]|]. simpl. lia.
      * injection Hrun as <- <-. exists [(ProbePage, url)].
        split; [reflexivity|]. split; [repeat constructor|]. simpl. lia.
Qed.

Lemma resolved_token_is_truthy self c w token w1 :
  extract_text_from_url self c w = (Ok (Some token), w1) ->
  truthy (Some token) = Some token.
Proof.
  intros H. destruct token; [|reflexivity].
  exfalso. exact (extract_text_from_url_nonempty _ _ _ _ H).
Qed.

(** [download_chapter_images] of m4l.py once the token is there: the
    chapter folder is made and the page loop runs. *)
Lemma m4l_download_chapter_images_run self chapter fc n i w token w1 :
  format_chapter_number chapter = Ok fc ->
  extract_text_from_url self fc w = (Ok (Some token), w1) ->
  let folder := manga_folder self ++ ["Chapter-" +:+ fc] in
  m4l.download_chapter_images self chapter n i w
  = match for_each (seq 1 n) (m4l.fetch_page self fc token folder n i)
            (add_dirs (list_to_set (ancestors folder)) w1) with
    | (Ok _, w3) => (Ok true, w3)
    | (Raise e, w3) => (Raise e, w3)
    | (OutOfFuel, w3) => (OutOfFuel, w3)
    end.
Proof.
  intros Hfc Hresolve folder. unfold m4l.download_chapter_images.
  rewrite (bind_lift_ok _ _ _ _ Hfc), (bind_ok _ _ _ _ _ Hresolve).
  rewrite (resolved_token_is_truthy _ _ _ _ _ Hresolve). cbv zeta.
  unfold bind at 1, mkdir_parents, modify. fold folder. unfold bind.
  destruct (for_each (seq 1 n) (m4l.fetch_page self fc token folder n i) _)
    as [[[]| |] w3]; reflexivity.
Qed.

Lemma m4l_download_chapter_images_absent self chapter fc n i w w1 :
  format_chapter_number chapter = Ok fc ->
  extract_text_from_url self fc w = (Ok None, w1) ->
  m4l.download_chapter_images self chapter n i w = (Ok false, w1).
Proof.
  intros Hfc Hresolve. unfold m4l.download_chapter_images.
  rewrite (bind_lift_ok _ _ _ _ Hfc), (bind_ok _ _ _ _ _ Hresolve). reflexivity.
Qed.

(** What the fetch of one chapter asks the server in m4l.py, once the
    token is there: the pages 1 to the cached count, and nothing else. *)
Lemma m4l_download_chapter_images_fetches self chapter fc n i w token w1 :
  format_chapter_number chapter = Ok fc ->
  extract_text_from_url self fc w = (Ok (Some token), w1) ->
  exists fetches,
    requests (snd (m4l.download_chapter_images self chapter n i w))
    = requests w1 ++ fetches
    /\ Forall fetch_request fetches
    /\ length fetches <= n
    /\ (forall b, fst (m4l.download_chapter_images self chapter n i w) = Ok b ->
        length fetches = n).
Proof.
  intros Hfc Hresolve.
  rewrite (m4l_download_chapter_images_run _ _ _ n i _ _ _ Hfc Hresolve).
  cbv zeta. set (folder := manga_folder self ++ ["Chapter-" +:+ fc]).
  set (w2 := add_dirs _ w1).
  destruct (sends_for_each fetch_request
              (m4l.fetch_page self fc token folder n i) (seq 1 n)
              (fun p => m4l_fetch_page_sends self fc token folder n i p) w2)
    as [fetches [Hreq [Hall [Hle Hexact]]]].
  rewrite length_seq in Hle, Hexact.
  exists fetches.
  destruct (for_each (seq 1 n) (m4l.fetch_page self fc token folder n i) w2)
    as [[[]| |] w3]; cbn [fst snd] in *.
  all: split; [exact Hreq|]; split; [exact Hall|]; split; [exact Hle|].
  all: intros b Hb; try discriminate Hb.
  exact (Hexact tt eq_refl).
Qed.

(** What the fetch of one chapter asks the server in M4L2.py, once the
    token is there: a full probing sequence, and then the pages. *)
Lemma M4L2_download_chapter_images_probes self fuel chapter fc w token w1 b w' :
  format_chapter_number chapter = Ok fc ->
  extract_text_from_url self fc w = (Ok (Some token), w1) ->
  M4L2.download_chapter_images self fuel chapter w = (Ok b, w') ->
  exists k probes fetches,
    requests w' = requests w1 ++ probes ++ fetches
    /\ Forall probe_request probes /\ length probes = S k
    /\ Forall fetch_request fetches /\ length fetches = k.
Proof.
  intros Hfc Hresolve. unfold M4L2.download_chapter_images.
  rewrite (bind_lift_ok _ _ _ _ Hfc), (bind_ok _ _ _ _ _ Hresolve).
  rewrite (resolved_token_is_truthy _ _ _ _ _ Hresolve). cbv zeta.
  unfold bind at 1, mkdir_parents, modify.
  set (folder := manga_folder self ++ ["Chapter-" +:+ fc]).
  set (w2 := add_dirs _ w1). unfold bind at 1.
  destruct (probe_loop self fuel fc token 1 0 w2) as [[k| |] w3] eqn:Hprobe;
    try discriminate.
  destruct (probe_loop_requests _ _ _ _ _ _ _ _ _ Hprobe)
    as [probes [Hreq1 [Hall1 Hlen1]]].
  destruct (sends_for_each fetch_request
              (M4L2.fetch_page self fc token folder) (seq 1 k)
              (fun p => M4L2_fetch_page_sends self fc token folder p) w3)
    as [fetches [Hreq2 [Hall2 [_ Hexact]]]].
  rewrite length_seq in Hexact. unfold bind.
  destruct (for_each (seq 1 k) (M4L2.fetch_page self fc token folder) w3)
    as [[[]| |] w4]; try discriminate.
  unfold ret. intros Hrun. injection Hrun as _ <-.
  cbn [fst snd] in *. exists k, probes, fetches.
  split; [rewrite Hreq2, Hreq1, <- app_assoc; reflexivity|].
  split; [exact Hall1|]. split; [simpl in Hlen1; lia|].
  split; [exact Hall2|]. exact (Hexact tt eq_refl).
Qed.

(** X28.  The probe and the fetch pass, in the two files.  In m4l.py
    the fetch pass consumes the cached count and never probes: none of
    its requests
    is a probe, and for a chapter whose token resolves it asks for at
    most as many pages as the cached count says, and for exactly that
    many when it returns.  In M4L2.py the fetch pass does not use the
    cached count: for every chapter whose token resolves,
    [download_chapter_images] first sends a whole probing sequence again
    (one probe per page and one more) and fetches afterwards. *)
Lemma probing_in_the_fetch_pass (self : downloader) :
  (forall plan i chapters w,
      exists extra,
        requests (snd (m4l.fetch_pass self plan i chapters w)) = requests w ++ extra
        /\ Forall (site_is_not ProbePage) extra)
  /\ (forall chapter fc n i w token w1,
        format_chapter_number chapter = Ok fc ->
        extract_text_from_url self fc w = (Ok (Some token), w1) ->
        exists fetches,
          requests (snd (m4l.download_chapter_images self chapter n i w))
          = requests w1 ++ fetches
          /\ Forall fetch_request fetches
          /\ length fetches <= n
          /\ (forall b,
                fst (m4l.download_chapter_images self chapter n i w) = Ok b ->
                length fetches = n))
  /\ (forall fuel chapter fc w token w1 b w',
        format_chapter_number chapter = Ok fc ->
        extract_text_from_url self fc w = (Ok (Some token), w1) ->
        M4L2.download_chapter_images self fuel chapter w = (Ok b, w') ->
        exists k probes fetches,
          requests w' = requests w1 ++ probes ++ fetches
          /\ Forall probe_request probes /\ length probes = S k
          /\ Forall fetch_request fetches /\ length fetches = k).
Proof.
  split; [|split].
  - intros plan i chapters w. exact (m4l_fetch_pass_no_probe self plan i chapters w).
  - apply m4l_download_chapter_images_fetches.
  - apply M4L2_download_chapter_images_probes.
Qed.

Example probing_in_the_fetch_pass_on_one_page :
  let w := initial_world one_page_server in
  let w1 := log_request (ViewerPage, viewer_url one_piece "0001" "") w in
  (exists fetches,
      requests (snd (m4l.download_chapter_images one_piece "1" 1 0 w))
      = requests w1 ++ fetches
      /\ Forall fetch_request fetches /\ length fetches <= 1
      /\ (forall b,
            fst (m4l.download_chapter_images one_piece "1" 1 0 w) = Ok b ->
            length fetches = 1))
  /\ (exists k probes fetches,
        requests (snd (M4L2.download_chapter_images one_piece 5 "1" w))
        = requests w1 ++ probes ++ fetches
        /\ Forall probe_request probes /\ length probes = S k
        /\ Forall fetch_request fetches /\ length fetches = k).
Proof.
  intros w w1.
  destruct (probing_in_the_fetch_pass one_piece) as [_ [Hm4l HM4L2]].
  split.
  - exact (Hm4l "1" "0001" 1 0 w "h.example" w1 eq_refl eq_refl).
  - exact (HM4L2 5 "1" "0001" w "h.example" w1 true
             (snd (M4L2.download_chapter_images one_piece 5 "1" w))
             eq_refl eq_refl eq_refl).
Defined.

(** C3.  The probe is to run once per chapter, in the counting pass, and
    m4l.py does so ([probing_in_the_fetch_pass]).  M4L2.py does not: for
    a chapter with one page, the requests of its fetch pass (those after
    the three of the counting pass) start over with the viewer page and
    the two probes, and only then fetch the page. *)
Lemma M4L2_probes_again :
  let w := initial_world one_page_server in
  let counted := M4L2.counting_pass one_piece 5 ["1"] ∅ w in
  let page n := "https://h.example/manga/One-Piece/0001-00" +:+ n +:+ ".png" in
  fst counted = Ok {["1" := 1]}
  /\ requests (snd counted)
     = [(ViewerPage, viewer_url one_piece "0001" "");
        (ProbePage, page "1"); (ProbePage, page "2")]
  /\ requests (snd (M4L2.download_chapters one_piece 5 ["1"] "Y" w))
     = requests (snd counted)
       ++ [(ViewerPage, viewer_url one_piece "0001" "");
           (ProbePage, page "1"); (ProbePage, page "2");
           (FetchPage, page "1")].
Proof. vm_compute. repeat split. Qed.

(** ** Chapters without pages *)







(** ** Failures during a batch *)

(** A resolver that is given a chapter number it can format returns, and
    a token it returns was read from a 200 page. *)
Lemma extract_text_from_url_returns self c fc w :
  format_chapter_number c = Ok fc ->
  exists token w1,
    extract_text_from_url self c w = (Ok token, w1)
    /\ (token = None
        \/ exists t url body,
             server w t url = Response 200 body
             /\ extract_text_from_html body = token).
Proof.
  intros Hfc. rewrite (extract_text_from_url_run self c fc w Hfc). cbv zeta.
  destruct (server w (length (requests w)) _) as [status body| |status] eqn:Hget;
    [|eexists _, _; split; [reflexivity | left; reflexivity]..].
  destruct (Nat.eqb status 200) eqn:Hst;
    [|eexists _, _; split; [reflexivity | left; reflexivity]].
  apply Nat.eqb_eq in Hst. subst status.
  destruct (extract_text_from_html body) as [token|] eqn:Htoken.
  - eexists _, _. split; [reflexivity|]. right. eexists _, _, _.
    split; eassumption.
  - eexists _, _. split; [reflexivity|]. unfold alternate_token. cbn [snd].
    destruct (server w (S (length (requests w))) (viewer_url self fc "-index-2"))
      as [status2 body2| |status2] eqn:Halt; [|left; reflexivity..].
    destruct (Nat.eqb status2 200) eqn:Hst2; [|left; reflexivity].
    apply Nat.eqb_eq in Hst2. subst status2.
    right. eexists _, _, _. split; [exact Halt | reflexivity].
Qed.

(** A counting that returned has formatted the chapter number. *)
Lemma count_pages_in_chapter_formats self fuel c w n w' :
  count_pages_in_chapter self fuel c w = (Ok n, w') ->
  exists fc, format_chapter_number c = Ok fc.
Proof.
  unfold count_pages_in_chapter.
  destruct (format_chapter_number c) as [fc| |]; try discriminate.
  intros _. exists fc. reflexivity.
Qed.

Lemma m4l_counting_pass_returns self fuel chapters :
  forall d w plan w',
    m4l.counting_pass self fuel chapters d w = (Ok plan, w') ->
    (forall c, In c chapters ->
       is_Some (plan !! c) /\ exists fc, format_chapter_number c = Ok fc)
    /\ (forall c, is_Some (d !! c) -> is_Some (plan !! c))
    /\ (is_Some (total_chapters_pages w) -> is_Some (total_chapters_pages w')).
Proof.
  induction chapters as [|c rest IH]; intros d w plan w' Hrun; simpl in Hrun.
  - injection Hrun as <- <-. split; [intros c []|]. split; auto.
  - unfold bind at 1 in Hrun.
    destruct (count_pages_in_chapter self fuel c w) as [[n| |] w1] eqn:Hcount;
      try discriminate Hrun.
    unfold m4l.read_total, gets in Hrun. unfold bind at 1 in Hrun.
    unfold bind at 1 in Hrun.
    destruct (total_chapters_pages w1) as [T|] eqn:HT; [|discriminate Hrun].
    unfold ret at 1 in Hrun. unfold bind at 1 in Hrun. unfold modify in Hrun.
    destruct (IH _ _ _ _ Hrun) as [Hall [Hkeep Htotal]].
    split; [|split].
    + intros c' [<- | Hin].
      * split; [|exact (count_pages_in_chapter_formats _ _ _ _ _ _ Hcount)].
        apply Hkeep. rewrite lookup_insert_eq. eauto.
      * apply Hall. exact Hin.
    + intros c' Hc'. apply Hkeep.
      destruct (decide (c = c')) as [<- | Hne].
      * rewrite lookup_insert_eq. eauto.
      * rewrite lookup_insert_ne by exact Hne. exact Hc'.
    + intros _. apply Htotal. simpl. eauto.
Qed.









Lemma static_server_clean_tokens pages :
  forallb (fun entry => clean_reply (snd entry)) pages = true ->
  clean_tokens (static_server pages).
Proof.
  intros Hall t url body token Hget Hextract. unfold static_server in Hget.
  destruct (find (fun entry => String.eqb (fst entry) url) pages)
    as [entry|] eqn:Hfind; [|discriminate Hget].
  apply find_some in Hfind as [Hin _].
  rewrite forallb_forall in Hall. specialize (Hall entry Hin).
  rewrite Hget in Hall. simpl in Hall. rewrite Hextract in Hall.
  apply bool_decide_eq_true_1 in Hall. exact Hall.
Qed.




(** * Further properties *)

(** ** Whole chapter numbers *)

Lemma split_on_cut sep a b :
  lacks sep a = true -> split_on sep (a +:+ String sep b) = a :: split_on sep b.
Proof.
  induction a as [|c a IH]; intros H.
  - change (EmptyString +:+ String sep b) with (String sep b). simpl.
    rewrite Ascii.eqb_refl. reflexivity.
  - simpl in H. apply andb_true_iff in H as [Hc Ha]. apply negb_true_iff in Hc.
    rewrite string_app_cons. simpl. rewrite Hc, (IH Ha). reflexivity.
Qed.

Lemma split_on_nonempty sep s : split_on sep s <> [].
Proof.
  destruct s as [|c r]; simpl; [discriminate|].
  destruct (Ascii.eqb c sep); [discriminate|].
  destruct (split_on sep r); discriminate.
Qed.

Lemma split_on_append sep a b :
  split_on sep (a +:+ String sep b) = split_on sep a ++ split_on sep b.
Proof.
  induction a as [|c a IH].
  - change (EmptyString +:+ String sep b) with (String sep b). simpl.
    rewrite Ascii.eqb_refl. reflexivity.
  - rewrite string_app_cons. simpl. destruct (Ascii.eqb c sep); [rewrite IH; reflexivity|].
    rewrite IH. pose proof (split_on_nonempty sep a) as Ha.
    destruct (split_on sep a) as [|h t]; [congruence|]. reflexivity.
Qed.

Lemma split_on_lacks_pieces sep s :
  Forall (fun piece => lacks sep piece = true) (split_on sep s).
Proof.
  induction s as [|c r IH]; simpl; [repeat constructor|].
  destruct (Ascii.eqb c sep) eqn:Hc.
  - constructor; [reflexivity | exact IH].
  - destruct (split_on sep r) as [|h t]; [repeat constructor; simpl; rewrite Hc; reflexivity|].
    apply Forall_cons in IH as [Hh Ht]. constructor; [|exact Ht].
    simpl. rewrite Hc, Hh. reflexivity.
Qed.

Lemma py_str_format_0d n : py_str n = format_0d 0 n.
Proof.
  unfold py_str, format_0d, zfill. destruct (n <? 0)%Z; reflexivity.
Qed.

Lemma py_int_py_str n : py_int (py_str n) = Some n.
Proof. rewrite py_str_format_0d. apply py_int_format_0d. Qed.

Lemma numeral_py_str n : numeral (py_str n) = true.
Proof. rewrite py_str_format_0d. apply numeral_format_0d. Qed.

Lemma format_chapter_number_py_str n :
  format_chapter_number (py_str n) = Ok (format_0d 4 n).
Proof.
  unfold format_chapter_number.
  rewrite split_on_dotless by apply numeral_dotless, numeral_py_str.
  rewrite py_int_py_str. reflexivity.
Qed.

Lemma length_app_string a b :
  String.length (a +:+ b) = String.length a + String.length b.
Proof.
  induction a as [|c a IH]; [reflexivity|].
  rewrite string_app_cons. simpl. rewrite IH. reflexivity.
Qed.

Lemma length_zeros k : String.length (zeros k) = k.
Proof. induction k as [|k IH]; [reflexivity | simpl; rewrite IH; reflexivity]. Qed.

Lemma length_zfill width d :
  String.length (zfill width d) = Nat.max width (String.length d).
Proof. unfold zfill. rewrite length_app_string, length_zeros. lia. Qed.

(** X1.  A chapter given as a whole number is formatted to at least four
    characters, zero padded, and reads back as the same number; [str]
    and [int] are inverse on the way. *)
Theorem whole_numbers_format (n : Z) :
  py_int (py_str n) = Some n
  /\ format_chapter_number (py_str n) = Ok (format_0d 4 n)
  /\ py_int (format_0d 4 n) = Some n
  /\ String.length (format_0d 4 n) = Nat.max 4 (String.length (py_str n)).
Proof.
  split; [apply py_int_py_str|].
  split; [apply format_chapter_number_py_str|].
  split; [apply py_int_format_0d|].
  unfold format_0d, py_str. destruct (n <? 0)%Z; simpl; rewrite length_zfill; lia.
Qed.

(** ** Pages of a chapter *)

Lemma string_app_inv_head a x y : a +:+ x = a +:+ y -> x = y.
Proof.
  induction a as [|c a IH]; [intros H; exact H|].
  rewrite !string_app_cons. intros H. injection H as H. exact (IH H).
Qed.

Lemma string_app_inv_tail x y s : x +:+ s = y +:+ s -> x = y.
Proof.
  revert y. induction x as [|c x IH]; intros [|d y] H.
  - reflexivity.
  - apply (f_equal String.length) in H. rewrite !length_app_string in H.
    simpl in H. lia.
  - apply (f_equal String.length) in H. rewrite !length_app_string in H.
    simpl in H. lia.
  - rewrite !string_app_cons in H. injection H as -> H. f_equal. exact (IH _ H).
Qed.

Lemma format_0d_injective width p q : format_0d width p = format_0d width q -> p = q.
Proof.
  intros H. apply (f_equal py_int) in H. rewrite !py_int_format_0d in H.
  congruence.
Qed.

(** X2.  Two different pages of a chapter never share a file name or an
    image URL, so no page overwrites another. *)
Theorem pages_do_not_collide (slug fc address : string) (p q : nat) (u v : string) :
  p <> q ->
  format_0d 3 (Z.of_nat p) +:+ ".png" <> format_0d 3 (Z.of_nat q) +:+ ".png"
  /\ (generate_image_url slug fc p address = Ok u ->
      generate_image_url slug fc q address = Ok v ->
      u <> v).
Proof.
  intros Hpq.
  assert (Hname : format_0d 3 (Z.of_nat p) +:+ ".png"
                  <> format_0d 3 (Z.of_nat q) +:+ ".png").
  { intros H. apply string_app_inv_tail, format_0d_injective in H. lia. }
  split; [exact Hname|].
  unfold generate_image_url. destruct (format_literal address) as [a|]; [|discriminate].
  intros Hu Hv Huv. injection Hu as <-. injection Hv as <-.
  do 7 apply string_app_inv_head in Huv. exact (Hname Huv).
Qed.

Lemma pages_do_not_collide_witness :
  format_0d 3 1 +:+ ".png" <> format_0d 3 2 +:+ ".png"
  /\ (generate_image_url "One-Piece" "0001" 1 "h.example"
        = Ok "https://h.example/manga/One-Piece/0001-001.png" ->
      generate_image_url "One-Piece" "0001" 2 "h.example"
        = Ok "https://h.example/manga/One-Piece/0001-002.png" ->
      "https://h.example/manga/One-Piece/0001-001.png"
        <> "https://h.example/manga/One-Piece/0001-002.png").
Proof.
  apply (pages_do_not_collide "One-Piece" "0001" "h.example" 1 2). lia.
Defined.

(** ** Reading the chapter list *)

Lemma numeral_lacks_comma s : numeral s = true -> lacks comma s = true.
Proof.
  induction s as [|c r IH]; simpl; [reflexivity|]. intros H.
  apply andb_true_iff in H as [Hc Hr]. rewrite (IH Hr), andb_true_r.
  destruct c as [[] [] [] [] [] [] [] []]; vm_compute in Hc |- *;
    first [discriminate Hc | reflexivity].
Qed.

Lemma lacks_hyphen_string_of_uint d :
  lacks hyphen (NilEmpty.string_of_uint d) = true.
Proof. induction d; simpl; try assumption; reflexivity. Qed.

Lemma lacks_hyphen_decimal n : lacks hyphen (decimal n) = true.
Proof.
  unfold decimal, NilZero.string_of_uint.
  destruct (N.to_uint n); try reflexivity; apply lacks_hyphen_string_of_uint.
Qed.

Lemma py_str_nonneg n : (0 <= n)%Z -> py_str n = decimal (Z.abs_N n).
Proof.
  intros H. unfold py_str. apply Z.ltb_ge in H. rewrite H. reflexivity.
Qed.

Lemma parse_part_numeral n : (0 <= n)%Z -> parse_part (py_str n) = Ok [n].
Proof.
  intros H. unfold parse_part.
  rewrite split_on_lacks
    by (rewrite (py_str_nonneg n H); apply lacks_hyphen_decimal).
  rewrite py_int_py_str. reflexivity.
Qed.

Lemma parse_part_range a b :
  (0 <= a)%Z -> (0 <= b)%Z ->
  parse_part (py_str a +:+ String hyphen (py_str b)) = Ok (range a (b + 1)).
Proof.
  intros Ha Hb. unfold parse_part.
  rewrite split_on_cut
    by (rewrite (py_str_nonneg a Ha); apply lacks_hyphen_decimal).
  rewrite split_on_lacks
    by (rewrite (py_str_nonneg b Hb); apply lacks_hyphen_decimal).
  rewrite !py_int_py_str. reflexivity.
Qed.

(** X3.  A whole number names itself and [a-b] names the chapters from
    [a] to [b], both ends included, in increasing order; a range whose
    end is below its start names no chapter. *)
Theorem parse_chapters_range (a b : Z) :
  (0 <= a)%Z -> (0 <= b)%Z ->
  parse_chapters (py_str a) = Ok [py_str a]
  /\ parse_chapters (py_str a +:+ String hyphen (py_str b))
     = Ok (map (fun i => py_str (a + Z.of_nat i))
             (seq 0 (Z.to_nat (b + 1 - a)))).
Proof.
  intros Ha Hb. unfold parse_chapters. split.
  - rewrite split_on_lacks by apply numeral_lacks_comma, numeral_py_str.
    simpl. rewrite (parse_part_numeral a Ha). reflexivity.
  - rewrite split_on_lacks.
    + simpl. rewrite (parse_part_range a b Ha Hb). simpl.
      unfold range. rewrite map_map. reflexivity.
    + apply numeral_lacks_comma. rewrite numeral_app. simpl.
      rewrite !numeral_py_str. reflexivity.
Qed.

Lemma parse_chapters_range_witness :
  parse_chapters "2" = Ok ["2"]
  /\ parse_chapters "2-5" = Ok ["2"; "3"; "4"; "5"].
Proof. apply (parse_chapters_range 2 5); lia. Defined.

Lemma parse_part_cases part :
  (exists more, parse_part part = Ok more) \/ parse_part part = Raise ValueError.
Proof.
  unfold parse_part.
  destruct (split_on hyphen part) as [|p1 [|p2 [|p3 rest]]]; auto.
  - destruct (py_int part); eauto.
  - destruct (py_int p1); auto. destruct (py_int p2); eauto.
Qed.

Lemma parse_parts_app l1 l2 chapters :
  parse_parts (l1 ++ l2) chapters
  = match parse_parts l1 chapters with
    | Ok found => parse_parts l2 found
    | Raise e => Raise e
    | OutOfFuel => OutOfFuel
    end.
Proof.
  revert chapters. induction l1 as [|part l1 IH]; intros chapters; [reflexivity|].
  simpl. destruct (parse_part part); try reflexivity. apply IH.
Qed.

Lemma parse_parts_from parts chapters :
  parse_parts parts chapters
  = match parse_parts parts [] with
    | Ok found => Ok (chapters ++ found)
    | Raise e => Raise e
    | OutOfFuel => OutOfFuel
    end.
Proof.
  revert chapters. induction parts as [|part parts IH]; intros chapters.
  - simpl. rewrite app_nil_r. reflexivity.
  - simpl. destruct (parse_part part) as [more| |]; try reflexivity.
    rewrite (IH (chapters ++ more)), (IH more).
    destruct (parse_parts parts []); try reflexivity.
    rewrite app_assoc. reflexivity.
Qed.

Lemma parse_parts_cases parts chapters :
  (exists found, parse_parts parts chapters = Ok found)
  \/ parse_parts parts chapters = Raise ValueError.
Proof.
  revert chapters. induction parts as [|part parts IH]; intros chapters; simpl.
  - eauto.
  - destruct (parse_part_cases part) as [[more ->] | ->]; auto.
Qed.

(** X4.  The comma composes: the chapters of [s1,s2] are those of [s1]
    followed by those of [s2], and the list is refused as soon as one side
    is. *)
Theorem parse_chapters_comma (s1 s2 : string) :
  parse_chapters (s1 +:+ String comma s2)
  = match parse_chapters s1, parse_chapters s2 with
    | Ok l1, Ok l2 => Ok (l1 ++ l2)
    | Ok _, other => other
    | other, _ => other
    end.
Proof.
  unfold parse_chapters. rewrite split_on_append, parse_parts_app.
  destruct (parse_parts (split_on comma s1) []) as [found| |]; try reflexivity.
  rewrite parse_parts_from.
  destruct (parse_parts (split_on comma s2) []) as [found'| |]; try reflexivity.
  rewrite map_app. reflexivity.
Qed.

Lemma lacks_lstrip c s : lacks c s = true -> lacks c (lstrip s) = true.
Proof.
  induction s as [|d r IH]; simpl; [reflexivity|]. intros H.
  destruct (is_space d); [|exact H].
  apply andb_true_iff in H as [_ Hr]. exact (IH Hr).
Qed.

Lemma lacks_rev_onto c s acc :
  lacks c (rev_onto s acc) = lacks c s && lacks c acc.
Proof.
  revert acc. induction s as [|d r IH]; intros acc; [reflexivity|].
  simpl. rewrite IH. simpl.
  destruct (Ascii.eqb d c), (lacks c r); reflexivity.
Qed.

Lemma lacks_strip c s : lacks c s = true -> lacks c (strip s) = true.
Proof.
  intros H. unfold strip, string_rev.
  rewrite lacks_rev_onto, andb_true_r. apply lacks_lstrip.
  rewrite lacks_rev_onto, andb_true_r. apply lacks_lstrip, H.
Qed.

Lemma digit_value_nonneg c : (0 <= digit_value c)%Z.
Proof. unfold digit_value. lia. Qed.

Lemma digits_from_nonneg s :
  forall acc after_digit n,
    (0 <= acc)%Z -> digits_from acc after_digit s = Some n -> (0 <= n)%Z.
Proof.
  induction s as [|c r IH]; intros acc after_digit n Hacc; simpl.
  - destruct after_digit; [|discriminate]. intros H. injection H as <-. exact Hacc.
  - destruct (is_digit c).
    + apply IH. pose proof (digit_value_nonneg c). lia.
    + destruct (Ascii.eqb c underscore && after_digit); [|discriminate].
      destruct r as [|d r']; [discriminate|].
      destruct (is_digit d); [|discriminate]. apply IH. exact Hacc.
Qed.

Lemma lacks_int_lstrip c s : lacks c s = true -> lacks c (int_lstrip s) = true.
Proof.
  induction s as [|d r IH]; simpl; [reflexivity|]. intros H.
  destruct (is_int_space d); [|exact H].
  apply andb_true_iff in H as [_ Hr]. exact (IH Hr).
Qed.

Lemma lacks_int_strip c s : lacks c s = true -> lacks c (int_strip s) = true.
Proof.
  intros H. unfold int_strip, string_rev.
  rewrite lacks_rev_onto, andb_true_r. apply lacks_int_lstrip.
  rewrite lacks_rev_onto, andb_true_r. apply lacks_int_lstrip, H.
Qed.

(** [int] reads no negative number from a text without a hyphen. *)
Lemma py_int_nonneg s n : lacks hyphen s = true -> py_int s = Some n -> (0 <= n)%Z.
Proof.
  intros Hs. unfold py_int. pose proof (lacks_int_strip hyphen s Hs) as H.
  destruct (int_strip s) as [|c r]; [discriminate|].
  simpl in H. apply andb_true_iff in H as [Hc _]. apply negb_true_iff in Hc.
  rewrite Hc. destruct (Ascii.eqb c (ascii_of_nat 43)).
  - apply digits_from_nonneg. lia.
  - apply digits_from_nonneg. lia.
Qed.

Lemma split_on_one sep s p : split_on sep s = [p] -> p = s.
Proof.
  revert p. induction s as [|c r IH]; intros p; simpl.
  - intros H. injection H as <-. reflexivity.
  - destruct (Ascii.eqb c sep).
    + intros H. injection H as _ H. exfalso. exact (split_on_nonempty sep r H).
    + destruct (split_on sep r) as [|h t] eqn:Hr.
      * exfalso. exact (split_on_nonempty sep r Hr).
      * intros H. injection H as <- ->. f_equal. apply IH. reflexivity.
Qed.

Lemma parse_part_nonneg part more :
  parse_part part = Ok more -> Forall (fun n => (0 <= n)%Z) more.
Proof.
  unfold parse_part. pose proof (split_on_lacks_pieces hyphen part) as Hp.
  destruct (split_on hyphen part) as [|p1 [|p2 [|p3 rest]]] eqn:Hs; try discriminate.
  - apply split_on_one in Hs as ->. apply Forall_cons in Hp as [Hp _].
    destruct (py_int part) as [n|] eqn:Hn; [|discriminate].
    intros H. injection H as <-. repeat constructor. exact (py_int_nonneg _ _ Hp Hn).
  - apply Forall_cons in Hp as [Hp1 Hp]. apply Forall_cons in Hp as [Hp2 _].
    destruct (py_int p1) as [a|] eqn:Ha; [|discriminate].
    destruct (py_int p2) as [b|] eqn:Hb; [|discriminate].
    intros H. injection H as <-. pose proof (py_int_nonneg _ _ Hp1 Ha) as H0.
    unfold range. apply Forall_map. apply Forall_forall. intros i _. simpl. lia.
Qed.

Lemma parse_parts_nonneg parts :
  forall chapters found,
    Forall (fun n => (0 <= n)%Z) chapters ->
    parse_parts parts chapters = Ok found ->
    Forall (fun n => (0 <= n)%Z) found.
Proof.
  induction parts as [|part parts IH]; intros chapters found Hc; simpl.
  - intros H. injection H as <-. exact Hc.
  - destruct (parse_part part) as [more| |] eqn:Hp; try discriminate.
    apply IH. apply Forall_app. split; [exact Hc | exact (parse_part_nonneg _ _ Hp)].
Qed.

(** X5.  What [parse_chapters] returns is a list of chapter numbers that
    [format_chapter_number] accepts: each is the decimal text of a
    natural number, and formats to that number, zero padded. *)
Theorem parse_chapters_gives_numbers (s : string) (chapters : list string) :
  parse_chapters s = Ok chapters ->
  Forall (fun chapter =>
            exists n, (0 <= n)%Z /\ chapter = py_str n
                      /\ format_chapter_number chapter = Ok (format_0d 4 n))
    chapters.
Proof.
  unfold parse_chapters.
  destruct (parse_parts (split_on comma s) []) as [found| |] eqn:Hp; try discriminate.
  intros H. injection H as <-.
  apply parse_parts_nonneg in Hp; [|constructor].
  apply Forall_map. eapply Forall_impl; [exact Hp|].
  intros n Hn. simpl. exists n. split; [exact Hn|].
  split; [reflexivity | apply format_chapter_number_py_str].
Qed.

Lemma parse_chapters_gives_numbers_witness :
  Forall (fun chapter =>
            exists n, (0 <= n)%Z /\ chapter = py_str n
                      /\ format_chapter_number chapter = Ok (format_0d 4 n))
    ["1"; "3"; "4"].
Proof. apply (parse_chapters_gives_numbers "1,3-4"). reflexivity. Defined.

(** X6.  [parse_chapters] refuses, with [ValueError], the empty text, a
    text that ends with a comma and a text that starts with a hyphen: a
    negative chapter number cannot be asked for. *)
Theorem parse_chapters_refuses (s : string) :
  parse_chapters EmptyString = Raise ValueError
  /\ parse_chapters (s +:+ String comma EmptyString) = Raise ValueError
  /\ parse_chapters (String hyphen s) = Raise ValueError.
Proof.
  split; [reflexivity|]. split.
  - unfold parse_chapters. rewrite split_on_append, parse_parts_app.
    destruct (parse_parts_cases (split_on comma s) []) as [[found ->] | ->];
      reflexivity.
  - unfold parse_chapters. simpl split_on.
    change (Ascii.eqb hyphen comma) with false. cbn match.
    pose proof (split_on_nonempty comma s) as Hs.
    destruct (split_on comma s) as [|h t]; [congruence|].
    simpl. unfold parse_part at 1. simpl split_on.
    pose proof (split_on_nonempty hyphen h) as Hh.
    destruct (split_on hyphen h) as [|p [|p2 rest]]; [congruence| |]; reflexivity.
Qed.

(** ** The chapter prompt of m4l.py *)

Lemma string_app_nil_r s : s +:+ EmptyString = s.
Proof.
  induction s as [|c r IH]; [reflexivity|].
  rewrite string_app_cons, IH. reflexivity.
Qed.

Lemma string_rev_involutive s : string_rev (string_rev s) = s.
Proof.
  unfold string_rev. rewrite rev_onto_rev_onto. simpl. apply string_app_nil_r.
Qed.

Lemma rev_onto_app s acc : rev_onto s acc = string_rev s +:+ acc.
Proof.
  revert acc. induction s as [|c r IH]; intros acc; [reflexivity|].
  unfold string_rev. simpl. rewrite (IH (String c acc)), (IH (String c EmptyString)).
  rewrite string_app_assoc. reflexivity.
Qed.

Lemma lstrip_idem s : lstrip (lstrip s) = lstrip s.
Proof.
  induction s as [|c r IH]; [reflexivity|]. simpl.
  destruct (is_space c) eqn:Hc; [exact IH|]. simpl. rewrite Hc. reflexivity.
Qed.

(** A text that does not start with white space. *)
Lemma lstrip_fixed s :
  lstrip s = s
  <-> match s with String c _ => is_space c = false | EmptyString => True end.
Proof.
  destruct s as [|c r]; simpl; [tauto|].
  destruct (is_space c) eqn:Hc.
  - split; [|discriminate]. intros H. exfalso.
    assert (Hlen : String.length (lstrip r) <= String.length r).
    { clear. induction r as [|d r IH]; simpl; [lia|].
      destruct (is_space d); simpl; lia. }
    rewrite H in Hlen. simpl in Hlen. lia.
  - tauto.
Qed.

Lemma lstrip_rev_lstrip x :
  lstrip (string_rev x) = string_rev x ->
  lstrip (string_rev (lstrip x)) = string_rev (lstrip x).
Proof.
  induction x as [|c r IH]; [intros _; reflexivity|].
  simpl. destruct (is_space c) eqn:Hc; [|intros H; exact H].
  intros H. apply IH. apply lstrip_fixed. apply lstrip_fixed in H.
  unfold string_rev in H. simpl in H. rewrite rev_onto_app in H.
  destruct (string_rev r) as [|d t] eqn:Hr.
  - exact I.
  - rewrite string_app_cons in H. exact H.
Qed.

Lemma strip_idem s : strip (strip s) = strip s.
Proof.
  unfold strip.
  set (a := lstrip s). set (b := lstrip (string_rev a)).
  assert (Ht : lstrip (string_rev b) = string_rev b).
  { unfold b. apply lstrip_rev_lstrip. rewrite string_rev_involutive.
    unfold a. apply lstrip_idem. }
  rewrite Ht, string_rev_involutive. unfold b at 1. rewrite lstrip_idem.
  reflexivity.
Qed.

(** X7.  Every chapter number that the prompt of m4l.py hands to the batch
    is a piece of the typed line between two commas, without the white
    space around it, and is not empty: blank pieces are dropped.  The
    comma composes. *)
Theorem chapters_of_input_clean (line more : string) :
  Forall (fun chapter =>
            chapter <> EmptyString /\ strip chapter = chapter
            /\ lacks comma chapter = true)
    (chapters_of_input line)
  /\ chapters_of_input (line +:+ String comma more)
     = chapters_of_input line ++ chapters_of_input more.
Proof.
  unfold chapters_of_input. split.
  - pose proof (split_on_lacks_pieces comma line) as Hp.
    induction (split_on comma line) as [|ch l IH]; [constructor|].
    apply Forall_cons in Hp as [Hch Hl]. simpl.
    destruct (String.eqb (strip ch) EmptyString) eqn:He; simpl; [exact (IH Hl)|].
    constructor; [|exact (IH Hl)].
    split; [apply String.eqb_neq; exact He|].
    split; [apply strip_idem | apply lacks_strip; exact Hch].
  - rewrite split_on_append, filter_app_bool, map_app. reflexivity.
Qed.

(** ** The title and its slug *)

Lemma length_sub_spaces_from b s :
  String.length (sub_spaces_from b s) <= String.length s.
Proof.
  revert b. induction s as [|c r IH]; intros b; simpl; [lia|].
  pose proof (IH true). pose proof (IH false).
  destruct (is_space c); [destruct b|]; simpl; lia.
Qed.

(** X8.  The slug that names the folder and goes into every URL has no
    white space, is no longer than the recorded manga name (a run of
    white space becomes one hyphen, every other character stays), and is
    the recorded manga name itself when that name has no white space. *)
Theorem slug_is_clean (name : string) (uppercase edit : bool) :
  spaceless (formatted_manga_name_of name uppercase edit) = true
  /\ String.length (formatted_manga_name_of name uppercase edit)
     <= String.length (manga_name_of name uppercase edit)
  /\ (spaceless (manga_name_of name uppercase edit) = true ->
      formatted_manga_name_of name uppercase edit
      = manga_name_of name uppercase edit).
Proof.
  unfold formatted_manga_name_of, sub_spaces. split; [apply sub_spaces_from_spaceless|].
  split; [apply length_sub_spaces_from | apply sub_spaces_from_fixed].
Qed.

(** ** Where the routing token comes from *)

Lemma strip_prefix_app p r : strip_prefix p (p +:+ r) = Some r.
Proof.
  induction p as [|c p IH]; [destruct r; reflexivity|].
  rewrite string_app_cons. simpl. rewrite Ascii.eqb_refl. exact IH.
Qed.

Lemma strip_prefix_inv p s r : strip_prefix p s = Some r -> s = p +:+ r.
Proof.
  revert s. induction p as [|c p IH]; intros s; simpl.
  - intros H. injection H as ->. reflexivity.
  - destruct s as [|d s]; [discriminate|].
    destruct (Ascii.eqb c d) eqn:Hcd; [|discriminate].
    apply Ascii.eqb_eq in Hcd as ->. intros H.
    rewrite string_app_cons, <- (IH _ H). reflexivity.
Qed.

Lemma lstrip_inv s : exists ws, blank ws = true /\ s = ws +:+ lstrip s.
Proof.
  induction s as [|c r [ws [Hws Hr]]]; [exists EmptyString; split; reflexivity|].
  simpl. destruct (is_space c) eqn:Hc.
  - exists (String c ws). split; [simpl; rewrite Hc; exact Hws|].
    rewrite string_app_cons, <- Hr. reflexivity.
  - exists EmptyString. split; reflexivity.
Qed.

Lemma lstrip_blank_app ws c r :
  blank ws = true -> is_space c = false ->
  lstrip (ws +:+ String c r) = String c r.
Proof.
  intros Hws Hc. induction ws as [|d ws IH].
  - change (EmptyString +:+ String c r) with (String c r). simpl. rewrite Hc.
    reflexivity.
  - simpl in Hws. apply andb_true_iff in Hws as [Hd Hws].
    rewrite string_app_cons. simpl. rewrite Hd. exact (IH Hws).
Qed.

Lemma until_quote_inv s g :
  until_quote s = Some g ->
  lacks dquote g = true /\ exists rest, s = g +:+ String dquote rest.
Proof.
  revert g. induction s as [|c r IH]; intros g; simpl; [discriminate|].
  destruct (Ascii.eqb c dquote) eqn:Hc.
  - intros H. injection H as <-. split; [reflexivity|].
    apply Ascii.eqb_eq in Hc as ->. exists r. reflexivity.
  - destruct (until_quote r) as [g'|]; [|discriminate].
    simpl. intros H. injection H as <-.
    destruct (IH g' eq_refl) as [Hg [rest Hr]]. split.
    + simpl. rewrite Hc, Hg. reflexivity.
    + exists rest. rewrite string_app_cons, <- Hr. reflexivity.
Qed.

Lemma until_quote_lacks g : lacks dquote g = true -> until_quote g = None.
Proof.
  induction g as [|c g IH]; simpl; [reflexivity|]. intros H.
  apply andb_true_iff in H as [Hc Hg]. apply negb_true_iff in Hc.
  rewrite Hc, (IH Hg). reflexivity.
Qed.

Lemma match_here_inv s token :
  match_here s = Some token ->
  token <> EmptyString /\ lacks dquote token = true
  /\ exists ws1 ws2 after,
       blank ws1 = true /\ blank ws2 = true
       /\ s = assignment ws1 ws2 token +:+ after.
Proof.
  intros H. split; [intros ->; exact (match_here_nonempty s H)|].
  unfold match_here in H.
  destruct (strip_prefix "vm.CurPathName" s) as [r|] eqn:Hkey; [|discriminate].
  apply strip_prefix_inv in Hkey.
  destruct (lstrip_inv r) as [ws1 [Hws1 Hr]].
  destruct (lstrip r) as [|c1 r1]; [discriminate|].
  destruct (Ascii.eqb c1 (ascii_of_nat 61)) eqn:Hc1; [|discriminate].
  apply Ascii.eqb_eq in Hc1 as ->.
  destruct (lstrip_inv r1) as [ws2 [Hws2 Hr1]].
  destruct (lstrip r1) as [|c2 r2]; [discriminate|].
  destruct (Ascii.eqb c2 dquote) eqn:Hc2; [|discriminate].
  apply Ascii.eqb_eq in Hc2 as ->.
  destruct (until_quote r2) as [g|] eqn:Hg; [|discriminate].
  destruct (until_quote_inv _ _ Hg) as [Hlacks [rest Hr2]].
  assert (g = token) as -> by (destruct g; [discriminate | congruence]).
  split; [exact Hlacks|].
  exists ws1, ws2, rest. split; [exact Hws1|]. split; [exact Hws2|].
  unfold assignment. rewrite Hkey, Hr, Hr1, Hr2.
  rewrite !string_app_assoc. f_equal.
  rewrite !string_app_cons, !string_app_assoc. f_equal. f_equal.
  rewrite !string_app_cons, !string_app_assoc. reflexivity.
Qed.

(** X9.  A routing token is never invented: what [extract_text_from_html]
    returns is not empty, holds no double quote, and stands between
    double quotes after the key and the equals sign somewhere in the
    page. *)
Theorem token_comes_from_the_page (html token : string) :
  extract_text_from_html html = Some token ->
  token <> EmptyString /\ lacks dquote token = true
  /\ exists before ws1 ws2 after,
       blank ws1 = true /\ blank ws2 = true
       /\ html = before +:+ assignment ws1 ws2 token +:+ after.
Proof.
  induction html as [|c r IH]; simpl.
  - intros H. vm_compute in H. discriminate H.
  - destruct (match_here (String c r)) as [g|] eqn:Hm.
    + intros H. injection H as ->.
      destruct (match_here_inv _ _ Hm) as [H1 [H2 [ws1 [ws2 [after [H3 [H4 H5]]]]]]].
      split; [exact H1|]. split; [exact H2|].
      exists EmptyString, ws1, ws2, after. auto.
    + intros H. destruct (IH H) as [H1 [H2 [before [ws1 [ws2 [after [H3 [H4 H5]]]]]]]].
      split; [exact H1|]. split; [exact H2|].
      exists (String c before), ws1, ws2, after.
      split; [exact H3|]. split; [exact H4|].
      rewrite string_app_cons, <- H5. reflexivity.
Qed.

Lemma token_comes_from_the_page_witness :
  "h.example" <> EmptyString /\ lacks dquote "h.example" = true
  /\ exists before ws1 ws2 after,
       blank ws1 = true /\ blank ws2 = true
       /\ viewer_body "h.example"
          = before +:+ assignment ws1 ws2 "h.example" +:+ after.
Proof. apply (token_comes_from_the_page (viewer_body "h.example")). reflexivity. Defined.

Lemma match_here_assignment ws1 ws2 token after :
  blank ws1 = true -> blank ws2 = true ->
  token <> EmptyString -> lacks dquote token = true ->
  match_here (assignment ws1 ws2 token +:+ after) = Some token.
Proof.
  intros H1 H2 Hne Hq. unfold match_here, assignment.
  rewrite string_app_assoc, strip_prefix_app.
  rewrite string_app_assoc, string_app_cons.
  rewrite lstrip_blank_app by (exact H1 || reflexivity).
  rewrite Ascii.eqb_refl.
  rewrite string_app_assoc, string_app_cons.
  rewrite lstrip_blank_app by (exact H2 || reflexivity).
  rewrite Ascii.eqb_refl.
  rewrite string_app_assoc, string_app_cons.
  rewrite until_quote_app, (until_quote_lacks _ Hq).
  destruct token; [congruence | reflexivity].
Qed.

(** X10.  A page that holds the assignment of a token always yields a
    token, and yields that very token when the assignment is at the
    start of the page. *)
Theorem assignment_is_found (before ws1 ws2 token after : string) :
  blank ws1 = true -> blank ws2 = true ->
  token <> EmptyString -> lacks dquote token = true ->
  extract_text_from_html (assignment ws1 ws2 token +:+ after) = Some token
  /\ is_Some (extract_text_from_html
                (before +:+ assignment ws1 ws2 token +:+ after)).
Proof.
  intros H1 H2 Hne Hq.
  assert (Hhere : extract_text_from_html (assignment ws1 ws2 token +:+ after)
                  = Some token).
  { pose proof (match_here_assignment ws1 ws2 token after H1 H2 Hne Hq) as Hm.
    remember (assignment ws1 ws2 token +:+ after) as page eqn:Hpage. clear Hpage.
    destruct page; [vm_compute in Hm; discriminate Hm|].
    simpl. rewrite Hm. reflexivity. }
  split; [exact Hhere|].
  induction before as [|c before IH].
  - change (EmptyString +:+ assignment ws1 ws2 token +:+ after)
      with (assignment ws1 ws2 token +:+ after).
    rewrite Hhere. eexists. reflexivity.
  - rewrite string_app_cons. simpl.
    destruct (match_here (String c (before +:+ assignment ws1 ws2 token +:+ after)));
      [eexists; reflexivity | exact IH].
Qed.

Lemma assignment_is_found_witness :
  extract_text_from_html (assignment " " " " "h.example" +:+ ";</script>")
  = Some "h.example"
  /\ is_Some (extract_text_from_html (viewer_body "h.example")).
Proof.
  apply (assignment_is_found "<script>" " " " " "h.example" ";</script>");
    first [reflexivity | discriminate].
Defined.

(** ** One image *)


(** ** A chapter number and its formatted form *)

(** X12.  A chapter number and its formatted form are the same chapter to
    every method: formatting twice, as [count_pages_in_chapter] and
    [download_chapter_images] do when they hand the formatted number to
    [extract_text_from_url], changes nothing. *)
Theorem formatted_number_is_the_same_chapter (self : downloader)
    (chapter fc : string) (fuel n i : nat) (w : world) :
  format_chapter_number chapter = Ok fc ->
  format_chapter_number fc = Ok fc
  /\ extract_text_from_url self fc w = extract_text_from_url self chapter w
  /\ count_pages_in_chapter self fuel fc w = count_pages_in_chapter self fuel chapter w
  /\ m4l.download_chapter_images self fc n i w
     = m4l.download_chapter_images self chapter n i w
  /\ M4L2.download_chapter_images self fuel fc w
     = M4L2.download_chapter_images self fuel chapter w.
Proof.
  intros Hfc. pose proof (format_chapter_number_idempotent _ _ Hfc) as Hfc2.
  split; [exact Hfc2|].
  unfold extract_text_from_url, count_pages_in_chapter,
    m4l.download_chapter_images, M4L2.download_chapter_images.
  rewrite !(bind_lift_ok _ _ _ _ Hfc), !(bind_lift_ok _ _ _ _ Hfc2).
  repeat split; reflexivity.
Qed.

Lemma formatted_number_is_the_same_chapter_witness :
  let w := initial_world two_page_server in
  format_chapter_number "0001" = Ok "0001"
  /\ extract_text_from_url one_piece "0001" w = extract_text_from_url one_piece "1" w
  /\ count_pages_in_chapter one_piece 5 "0001" w
     = count_pages_in_chapter one_piece 5 "1" w
  /\ m4l.download_chapter_images one_piece "0001" 2 0 w
     = m4l.download_chapter_images one_piece "1" 2 0 w
  /\ M4L2.download_chapter_images one_piece 5 "0001" w
     = M4L2.download_chapter_images one_piece 5 "1" w.
Proof.
  intros w.
  apply (formatted_number_is_the_same_chapter one_piece "1" "0001" 5 2 0 w).
  reflexivity.
Defined.

(** ** The exceptions that leave a batch *)

Section Guarded.

Context (I : world -> Prop) (allowed : exn -> Prop).

Lemma guarded_ret {A : Type} (a : A) : guarded I allowed (ret a).
Proof. intros w Hw. split; [exact Hw | discriminate]. Qed.

Lemma guarded_gets {A : Type} (f : world -> A) : guarded I allowed (gets f).
Proof. intros w Hw. split; [exact Hw | discriminate]. Qed.

Lemma guarded_lift {A : Type} (r : result A) :
  (forall e, r = Raise e -> allowed e) -> guarded I allowed (lift r).
Proof. intros H w Hw. split; [exact Hw | exact H]. Qed.

Lemma guarded_raise {A : Type} (e : exn) :
  allowed e -> guarded I allowed (raise e : M A).
Proof. intros H. apply guarded_lift. intros e' He'. injection He' as <-. exact H. Qed.

Lemma guarded_modify (f : world -> world) :
  (forall w, I w -> I (f w)) -> guarded I allowed (modify f).
Proof. intros H w Hw. split; [exact (H w Hw) | discriminate]. Qed.

Lemma guarded_bind {A B : Type} (m : M A) (k : A -> M B) :
  guarded I allowed m -> (forall a, guarded I allowed (k a)) ->
  guarded I allowed (bind m k).
Proof.
  intros Hm Hk w Hw. unfold bind. destruct (Hm w Hw) as [H1 H2].
  destruct (m w) as [[a|e|] w1]; cbn [fst snd] in *.
  - exact (Hk a w1 H1).
  - split; [exact H1|]. intros e' He'. injection He' as <-. exact (H2 e eq_refl).
  - split; [exact H1 | discriminate].
Qed.

Lemma guarded_for_each {A : Type} (l : list A) (body : A -> M unit) :
  (forall x, guarded I allowed (body x)) -> guarded I allowed (for_each l body).
Proof.
  intros Hb. induction l as [|x l IH]; simpl.
  - apply guarded_ret.
  - apply guarded_bind; [apply Hb | intros _; exact IH].
Qed.

End Guarded.

Lemma guarded_except {A : Type} I allowed (body handler : M A) :
  guarded I (fun e => e = ClientError \/ allowed e) body ->
  guarded I allowed handler ->
  guarded I allowed (except_client_error body handler).
Proof.
  intros Hb Hh w Hw. unfold except_client_error. destruct (Hb w Hw) as [H1 H2].
  destruct (body w) as [[a|e|] w1]; cbn [fst snd] in *.
  - split; [exact H1 | discriminate].
  - destruct e; try (split; [exact H1|]; intros e' He'; injection He' as <-;
                     destruct (H2 _ eq_refl) as [H|H]; [discriminate H | exact H]).
    exact (Hh w1 H1).
  - split; [exact H1 | discriminate].
Qed.

Lemma guarded_session_get I allowed site url :
  (forall w, I w -> I (log_request (site, url) w)) -> allowed ClientError ->
  guarded I allowed (session_get site url).
Proof.
  intros HI Hc w Hw. unfold session_get.
  destruct (server w (length (requests w)) url); cbn [fst snd].
  - split; [exact (HI w Hw) | discriminate].
  - split; [exact (HI w Hw)|]. intros e He. injection He as <-. exact Hc.
  - split; [exact (HI w Hw) | discriminate].
Qed.

Lemma guarded_weaken {A : Type} I (allowed allowed' : exn -> Prop) (m : M A) :
  (forall e, allowed e -> allowed' e) -> guarded I allowed m -> guarded I allowed' m.
Proof.
  intros Himp Hm w Hw. destruct (Hm w Hw) as [H1 H2].
  split; [exact H1 | intros e He; exact (Himp e (H2 e He))].
Qed.

(** One step of a proof that a method is guarded; [leaf] closes the side
    conditions on the primitive effects and on the exceptions. *)
Ltac guarded_step leaf :=
  match goal with
  | |- guarded _ _ (ret _) => apply guarded_ret
  | |- guarded _ _ (gets _) => apply guarded_gets
  | |- guarded _ _ (lift _) => apply guarded_lift
  | |- guarded _ _ (raise _) => apply guarded_raise
  | |- guarded _ _ (bind _ _) => apply guarded_bind
  | |- guarded _ _ (except_client_error _ _) => apply guarded_except
  | |- guarded _ _ (for_each _ _) => apply guarded_for_each
  | |- guarded _ _ (session_get _ _) => apply guarded_session_get
  | |- guarded _ _ (modify _) => apply guarded_modify
  | |- guarded _ _ (mkdir_parents _) => unfold mkdir_parents
  | |- guarded _ _ (if ?b then _ else _) => destruct b
  | |- guarded _ _ (match ?x with _ => _ end) => destruct x
  | |- guarded _ _ _ => first [solve [auto] | progress unfold_method]
  | |- forall _, _ => intros ?
  | |- _ => solve [leaf]
  end.

Ltac guarded_with leaf := repeat (guarded_step leaf).

(** The side conditions: an invariant of the world, or the kind of an
    exception that the code raises at this place. *)
Ltac exception_known :=
  unfold batch_exception;
  first
    [ assumption
    | discriminate
    | solve [left; reflexivity]
    | solve [split; discriminate]
    | solve [right; split; discriminate]
    | solve [eexists; reflexivity]
    | solve [auto]
    | tauto ].

Ltac exception_leaf :=
  unfold total_is_bound in *; simpl in *;
  first
    [ exception_known
    | match goal with
      | H : generate_image_url _ _ _ _ = Raise _ |- _ =>
          unfold generate_image_url in H;
          destruct (format_literal _); [discriminate H | injection H as <-]
      | H : format_chapter_number _ = Raise _ |- _ =>
          unfold format_chapter_number in H;
          repeat match type of H with
                 | context [match ?x with _ => _ end] => destruct x
                 end;
          first [discriminate H | injection H as <-]
      end;
      exception_known ].

Ltac guarded_method := simpl; guarded_with exception_leaf.

Lemma read_total_guarded allowed : guarded total_is_bound allowed m4l.read_total.
Proof.
  intros w [n Hn]. unfold m4l.read_total, bind, gets. rewrite Hn.
  split; [exists n; exact Hn | discriminate].
Qed.

Lemma download_image_guarded I allowed url p :
  (forall r w, I w -> I (log_request r w)) ->
  (forall ds w, I w -> I (add_dirs ds w)) ->
  (forall q body w, I w -> I (put_file q body w)) ->
  guarded I allowed (download_image url p).
Proof. intros H1 H2 H3. guarded_method. Qed.

Lemma extract_text_from_url_guarded self c :
  guarded total_is_bound batch_exception (extract_text_from_url self c).
Proof. guarded_method. Qed.

Lemma probe_loop_guarded self fuel fc address first count :
  guarded total_is_bound batch_exception
    (probe_loop self fuel fc address first count).
Proof.
  revert first count. induction fuel as [|fuel IH]; intros first count; simpl;
    guarded_method.
Qed.

Lemma count_pages_in_chapter_guarded self fuel c :
  guarded total_is_bound batch_exception (count_pages_in_chapter self fuel c).
Proof.
  pose proof (extract_text_from_url_guarded self).
  pose proof (probe_loop_guarded self).
  guarded_method.
Qed.

Lemma m4l_counting_pass_guarded self fuel chapters d :
  guarded total_is_bound batch_exception (m4l.counting_pass self fuel chapters d).
Proof.
  pose proof (count_pages_in_chapter_guarded self).
  pose proof (read_total_guarded batch_exception).
  revert d. induction chapters as [|c rest IH]; intros d; simpl; guarded_method.
Qed.

Lemma m4l_download_chapter_images_guarded self c n i :
  guarded total_is_bound batch_exception (m4l.download_chapter_images self c n i).
Proof.
  pose proof (extract_text_from_url_guarded self).
  pose proof (read_total_guarded batch_exception).
  assert (forall url p, guarded total_is_bound batch_exception (download_image url p))
    by (intros; apply download_image_guarded; auto).
  guarded_method.
Qed.

Lemma m4l_fetch_pass_guarded self plan chapters :
  (forall c, In c chapters -> is_Some (plan !! c)) ->
  forall i, guarded total_is_bound batch_exception (m4l.fetch_pass self plan i chapters).
Proof.
  pose proof (m4l_download_chapter_images_guarded self).
  induction chapters as [|c rest IH]; intros Hplan i; simpl.
  - guarded_method.
  - destruct (Hplan c (or_introl eq_refl)) as [n Hn]. rewrite Hn.
    assert (forall j, guarded total_is_bound batch_exception
                        (m4l.fetch_pass self plan j rest))
      by (apply IH; intros c' Hc'; apply Hplan; right; exact Hc').
    guarded_method.
Qed.

(** *** Tokens that [str.format] can read *)

Lemma guarded_bind_lift_ok {A B : Type} I allowed (r : result A) (k : A -> M B) a :
  r = Ok a -> guarded I allowed (k a) -> guarded I allowed (bind (lift r) k).
Proof. intros -> H. exact H. Qed.

Lemma guarded_bind_value {A B : Type} I allowed (Q : A -> Prop)
    (m : M A) (k : A -> M B) :
  guarded I allowed m ->
  (forall w a, I w -> fst (m w) = Ok a -> Q a) ->
  (forall a, Q a -> guarded I allowed (k a)) ->
  guarded I allowed (bind m k).
Proof.
  intros Hm HQ Hk w Hw. unfold bind. destruct (Hm w Hw) as [H1 H2].
  pose proof (HQ w) as HQw.
  destruct (m w) as [[a|e|] w1]; cbn [fst snd] in *.
  - exact (Hk a (HQw a Hw eq_refl) w1 H1).
  - split; [exact H1|]. intros e' He'. injection He' as <-. exact (H2 e eq_refl).
  - split; [exact H1 | discriminate].
Qed.

Lemma extract_text_from_url_no_format self c :
  guarded serves_clean_tokens not_of_format (extract_text_from_url self c).
Proof. unfold serves_clean_tokens, not_of_format. guarded_method. Qed.

(** A token that the resolver returns on a server with clean tokens is
    clean. *)
Lemma extract_text_from_url_clean self c w token :
  serves_clean_tokens w ->
  fst (extract_text_from_url self c w) = Ok (Some token) ->
  format_literal token <> None.
Proof.
  intros Hclean Hrun.
  destruct (format_chapter_number c) as [fc|e|] eqn:Hfc.
  - destruct (extract_text_from_url_returns self c fc w Hfc)
      as [found [w1 [Hres Horigin]]].
    rewrite Hres in Hrun. cbn [fst] in Hrun. injection Hrun as ->.
    destruct Horigin as [H | [t [url [body [Hget Hextract]]]]]; [discriminate H|].
    exact (Hclean t url body token Hget Hextract).
  - unfold extract_text_from_url, bind, lift in Hrun. rewrite Hfc in Hrun.
    discriminate Hrun.
  - unfold extract_text_from_url, bind, lift in Hrun. rewrite Hfc in Hrun.
    discriminate Hrun.
Qed.

Lemma generate_image_url_clean slug fc p address :
  format_literal address <> None ->
  exists url, generate_image_url slug fc p address = Ok url.
Proof.
  intros H. unfold generate_image_url.
  destruct (format_literal address); [eexists; reflexivity | congruence].
Qed.

Lemma probe_loop_no_format self fuel fc address :
  format_literal address <> None ->
  forall first count,
    guarded serves_clean_tokens not_of_format
      (probe_loop self fuel fc address first count).
Proof.
  intros Hclean. induction fuel as [|fuel IH]; intros first count; simpl.
  - unfold serves_clean_tokens, not_of_format. guarded_method.
  - destruct (generate_image_url_clean (formatted_manga_name self) fc first address
                Hclean) as [url Hurl].
    apply (guarded_bind_lift_ok _ _ _ _ _ Hurl).
    pose proof IH as IH'.
    unfold serves_clean_tokens, not_of_format in *. guarded_method.
Qed.

Lemma count_pages_in_chapter_no_format self fuel c :
  guarded serves_clean_tokens not_of_format (count_pages_in_chapter self fuel c).
Proof.
  unfold count_pages_in_chapter. apply guarded_bind.
  - unfold serves_clean_tokens, not_of_format. guarded_method.
  - intros fc.
    apply (guarded_bind_value _ _
             (fun found => forall token, found = Some token ->
                                         format_literal token <> None)).
    + apply extract_text_from_url_no_format.
    + intros w found Hw Hrun token ->.
      exact (extract_text_from_url_clean self fc w token Hw Hrun).
    + intros [[|ch r]|] Hfound; cbn [truthy].
      * apply guarded_ret.
      * apply probe_loop_no_format. apply Hfound. reflexivity.
      * apply guarded_ret.
Qed.

Lemma download_image_no_format url p :
  guarded serves_clean_tokens not_of_format (download_image url p).
Proof. apply download_image_guarded; auto. Qed.

Lemma m4l_fetch_page_no_format self fc address folder n i p :
  format_literal address <> None ->
  guarded serves_clean_tokens not_of_format
    (m4l.fetch_page self fc address folder n i p).
Proof.
  intros Hclean. unfold m4l.fetch_page.
  destruct (generate_image_url_clean (formatted_manga_name self) fc p address Hclean)
    as [url Hurl].
  apply (guarded_bind_lift_ok _ _ _ _ _ Hurl).
  pose proof download_image_no_format.
  unfold serves_clean_tokens, not_of_format in *. guarded_method.
Qed.

Lemma m4l_download_chapter_images_no_format self c n i :
  guarded serves_clean_tokens not_of_format
    (m4l.download_chapter_images self c n i).
Proof.
  unfold m4l.download_chapter_images. apply guarded_bind.
  - unfold serves_clean_tokens, not_of_format. guarded_method.
  - intros fc.
    apply (guarded_bind_value _ _
             (fun found => forall token, found = Some token ->
                                         format_literal token <> None)).
    + apply extract_text_from_url_no_format.
    + intros w found Hw Hrun token ->.
      exact (extract_text_from_url_clean self fc w token Hw Hrun).
    + intros [[|ch r]|] Hfound; cbn [truthy]; try apply guarded_ret.
      pose proof (fun p => m4l_fetch_page_no_format self fc (String ch r)
                    (manga_folder self ++ ["Chapter-" +:+ fc]) n i p
                    (Hfound _ eq_refl)).
      unfold serves_clean_tokens, not_of_format in *. guarded_method.
Qed.

Lemma m4l_counting_pass_no_format self fuel chapters :
  forall d, guarded serves_clean_tokens not_of_format
              (m4l.counting_pass self fuel chapters d).
Proof.
  pose proof (count_pages_in_chapter_no_format self fuel).
  induction chapters as [|c rest IH]; intros d; simpl;
    unfold serves_clean_tokens, not_of_format in *; guarded_method.
Qed.

Lemma m4l_fetch_pass_no_format self plan chapters :
  forall i, guarded serves_clean_tokens not_of_format
              (m4l.fetch_pass self plan i chapters).
Proof.
  pose proof (m4l_download_chapter_images_no_format self).
  induction chapters as [|c rest IH]; intros i; simpl;
    unfold serves_clean_tokens, not_of_format in *; guarded_method.
Qed.

Lemma m4l_download_chapters_no_format self fuel chapters user_input :
  guarded serves_clean_tokens not_of_format
    (m4l.download_chapters self fuel chapters user_input).
Proof.
  pose proof (m4l_counting_pass_no_format self fuel chapters).
  pose proof (m4l_fetch_pass_no_format self).
  unfold m4l.download_chapters.
  unfold serves_clean_tokens, not_of_format in *. guarded_method.
Qed.

(** X13.  On a server whose routing tokens [str.format] can read, a batch
    of m4l.py never ends with [NameError] or [KeyError], nor with an
    error of [str.format]: the module global is bound before it is read,
    and the fetch pass looks up only chapters that the counting pass has
    entered in the dictionary. *)
Theorem m4l_batch_finds_its_variables (self : downloader) (fuel : nat)
    (chapters : list string) (user_input : string) (w : world) :
  clean_tokens (server w) ->
  fst (m4l.download_chapters self fuel chapters user_input w) <> Raise NameError
  /\ fst (m4l.download_chapters self fuel chapters user_input w) <> Raise KeyError
  /\ fst (m4l.download_chapters self fuel chapters user_input w) <> Raise FormatError.
Proof.
  intros Hclean.
  assert (Hall : forall e,
             fst (m4l.download_chapters self fuel chapters user_input w) = Raise e ->
             batch_exception e).
  { unfold m4l.download_chapters. unfold bind at 1, modify.
    set (w0 := put_total 0 w).
    assert (H0 : total_is_bound w0) by (exists 0; reflexivity).
    destruct (m4l_counting_pass_guarded self fuel chapters ∅ w0 H0) as [H1 Hexn].
    unfold bind at 1.
    destruct (m4l.counting_pass self fuel chapters ∅ w0) as [[plan|e0|] w1] eqn:Hcount;
      cbn [fst snd] in *.
    - destruct (m4l_counting_pass_returns self fuel chapters _ _ _ _ Hcount)
        as [Hkeys _].
      assert (Hrest : guarded total_is_bound batch_exception
                (if negb (proceeds user_input) then ret tt
                 else
                   _ <- m4l.fetch_pass self plan 0 chapters ;;
                   total <- m4l.read_total ;;
                   _ <- m4l.colorful_progress_bar total total ;;
                   save_history (manga_name self))).
      { pose proof (m4l_fetch_pass_guarded self plan chapters
                      (fun c Hc => proj1 (Hkeys c Hc))).
        pose proof (read_total_guarded batch_exception).
        guarded_method. }
      exact (proj2 (Hrest w1 H1)).
    - intros e He. injection He as <-. exact (Hexn e0 eq_refl).
    - discriminate. }
  split; [|split]; intros H.
  - destruct (Hall _ H) as [H1 H2]. congruence.
  - destruct (Hall _ H) as [H1 H2]. congruence.
  - exact (proj2 (m4l_download_chapters_no_format self fuel chapters user_input
                    w Hclean) _ H eq_refl).
Qed.

Lemma m4l_batch_finds_its_variables_witness :
  let run := m4l.download_chapters one_piece 5 ["1"] "Y" (initial_world empty_server) in
  fst run = Raise ZeroDivisionError
  /\ fst run <> Raise NameError
  /\ fst run <> Raise KeyError
  /\ fst run <> Raise FormatError.
Proof.
  intros run. split; [reflexivity|].
  apply (m4l_batch_finds_its_variables one_piece 5 ["1"] "Y"
           (initial_world empty_server)).
  apply static_server_clean_tokens. reflexivity.
Defined.

(** ** The entry point of M4L2.py *)















(** X15.  Without a manga name and a chapter list, [main] of M4L2.py
    sends no request and touches no file: asked for the history, it
    makes the folder of a downloader named SampleManga, and nothing
    otherwise. *)
Theorem M4L2_main_without_a_batch (args : M4L2_arguments) (fuel : nat)
    (user_input : string) (w : world) :
  truthy (opt_download args) = None \/ truthy (opt_chapters args) = None ->
  M4L2_main args fuel user_input w
  = (Ok tt,
     if opt_history args
     then add_dirs (list_to_set [["MANGA"]; ["MANGA"; "SampleManga"]]) w
     else w).
Proof.
  intros H. unfold M4L2_main.
  assert (Hbranch :
            match truthy (opt_download args), truthy (opt_chapters args) with
            | Some _, Some _ => False
            | _, _ => True
            end).
  { destruct H as [-> | ->]; [exact I|].
    destruct (truthy (opt_download args)); exact I. }
  destruct (truthy (opt_download args)), (truthy (opt_chapters args));
    try contradiction; destruct (opt_history args); reflexivity.
Qed.

Lemma M4L2_main_without_a_batch_witness :
  let args := M4L2Arguments None None true false false in
  let w := initial_world empty_server in
  M4L2_main args 5 "Y" w
  = (Ok tt, add_dirs (list_to_set [["MANGA"]; ["MANGA"; "SampleManga"]]) w).
Proof.
  intros args w. apply (M4L2_main_without_a_batch args 5 "Y" w).
  left. reflexivity.
Defined.

(** ** The entry point of m4l.py *)


(** ** The denominator of the bar *)

Lemma probe_loop_keeps_total self fuel fc addr png n :
  stable (keeps total_chapters_pages) (probe_loop self fuel fc addr png n).
Proof.
  revert png n. induction fuel as [|fuel IH]; intros png n; simpl;
    stable_with frame_leaf.
Qed.

Lemma count_pages_in_chapter_keeps_total self fuel c :
  stable (keeps total_chapters_pages) (count_pages_in_chapter self fuel c).
Proof.
  pose proof (extract_text_from_url_keeps_total self).
  pose proof (probe_loop_keeps_total self fuel). frame_method.
Qed.

Lemma m4l_counting_pass_totals self fuel chapters :
  forall d w plan w' t0,
    m4l.counting_pass self fuel chapters d w = (Ok plan, w') ->
    total_chapters_pages w = Some t0 ->
    exists T,
      total_chapters_pages w' = Some T
      /\ t0 <= T
      /\ (forall k, ~ In k chapters -> plan !! k = d !! k)
      /\ (forall c, In c chapters -> exists n, plan !! c = Some n /\ t0 + n <= T)
      /\ (NoDup chapters ->
          T = t0 + sum_list (map (fun c => default 0 (plan !! c)) chapters)).
Proof.
  induction chapters as [|c rest IH]; intros d w plan w' t0 Hrun Ht0; simpl in Hrun.
  - injection Hrun as <- <-. exists t0. split; [exact Ht0|]. split; [lia|].
    split; [reflexivity|]. split; [intros c []|]. intros _. simpl. lia.
  - unfold bind at 1 in Hrun.
    pose proof (count_pages_in_chapter_keeps_total self fuel c w) as Hkeep.
    destruct (count_pages_in_chapter self fuel c w) as [[n| |] w1] eqn:Hcount;
      try discriminate Hrun.
    unfold keeps in Hkeep. cbn [snd] in Hkeep.
    unfold m4l.read_total, gets in Hrun. unfold bind at 1 in Hrun.
    unfold bind at 1 in Hrun. rewrite Hkeep, Ht0 in Hrun.
    unfold ret at 1 in Hrun. unfold bind at 1 in Hrun. unfold modify in Hrun.
    destruct (IH _ _ _ _ (t0 + n) Hrun eq_refl) as [T [HT [Hle [Hout [Hin Hsum]]]]].
    exists T. split; [exact HT|]. split; [lia|]. split; [|split].
    + intros k Hk. rewrite Hout by (intros H; apply Hk; right; exact H).
      apply lookup_insert_ne. intros ->. apply Hk. left. reflexivity.
    + intros c' Hc'. destruct (in_dec string_dec c' rest) as [Hrest | Hrest].
      * destruct (Hin c' Hrest) as [n' [Hn' Hle']]. exists n'. split; [exact Hn' | lia].
      * destruct Hc' as [<- | Hc']; [|contradiction].
        exists n. split; [|lia]. rewrite (Hout c Hrest). apply lookup_insert_eq.
    + intros Hnodup. apply NoDup_cons in Hnodup as [Hc Hnodup].
      rewrite (Hsum Hnodup). simpl.
      rewrite (Hout c) by (rewrite <- list_elem_of_In; exact Hc).
      rewrite lookup_insert_eq. simpl. lia.
Qed.

(** X17.  When no chapter is listed twice, the total that the counting
    pass of m4l.py leaves in the module global, which is the denominator
    of the progress bar, is the sum of the page counts it has entered in
    the dictionary; and the dictionary has an entry for the listed
    chapters only. *)
Theorem counted_total_is_the_sum (self : downloader) (fuel : nat)
    (chapters : list string) (plan : gmap string nat) (w w' : world) :
  NoDup chapters ->
  m4l.counting_pass self fuel chapters ∅ (put_total 0 w) = (Ok plan, w') ->
  total_chapters_pages w'
  = Some (sum_list (map (fun c => default 0 (plan !! c)) chapters))
  /\ forall c, is_Some (plan !! c) <-> In c chapters.
Proof.
  intros Hnodup Hrun.
  destruct (m4l_counting_pass_totals self fuel chapters _ _ _ _ 0 Hrun eq_refl)
    as [T [HT [_ [Hout [Hin Hsum]]]]].
  split; [rewrite HT, (Hsum Hnodup); reflexivity|].
  intros c. split.
  - intros Hc. destruct (in_dec string_dec c chapters) as [H | H]; [exact H|].
    rewrite (Hout c H), lookup_empty in Hc. destruct Hc as [x Hx]. discriminate Hx.
  - intros Hc. destruct (Hin c Hc) as [n [Hn _]]. exists n. exact Hn.
Qed.

Lemma counted_total_is_the_sum_witness :
  let w := initial_world uneven_server in
  let counted := m4l.counting_pass one_piece 9 ["1"; "2"] ∅ (put_total 0 w) in
  let plan : gmap string nat := {["1" := 3; "2" := 1]} in
  total_chapters_pages (snd counted)
  = Some (sum_list (map (fun c => default 0 (plan !! c)) ["1"; "2"]))
  /\ forall c, is_Some (plan !! c) <-> In c ["1"; "2"].
Proof.
  intros w counted plan.
  apply (counted_total_is_the_sum one_piece 9 ["1"; "2"] plan w (snd counted)).
  - apply NoDup_cons. split; [|apply NoDup_singleton].
    intros H. apply list_elem_of_singleton in H. discriminate H.
  - vm_compute. reflexivity.
Defined.

(** ** A batch without a page *)

Lemma m4l_download_chapter_images_keeps_history self c n i :
  stable (keeps history_file) (m4l.download_chapter_images self c n i).
Proof. frame_method. Qed.

Lemma m4l_fetch_pass_keeps_history self d i chapters :
  stable (keeps history_file) (m4l.fetch_pass self d i chapters).
Proof.
  pose proof (m4l_download_chapter_images_keeps_history self).
  revert i. induction chapters as [|c rest IH]; intros i; simpl; frame_method.
Qed.

Lemma empty_chapter_keeps_files self c i :
  stable (both (keeps files) (keeps frames)) (m4l.download_chapter_images self c 0 i).
Proof. unfold m4l.download_chapter_images. simpl. stable_with frame_leaf. Qed.

Lemma empty_chapter_returns self c fc i w :
  format_chapter_number c = Ok fc ->
  exists b w', m4l.download_chapter_images self c 0 i w = (Ok b, w').
Proof.
  intros Hfc.
  destruct (extract_text_from_url_returns self fc fc w
              (format_chapter_number_idempotent _ _ Hfc))
    as [[token|] [w1 [Hresolve _]]].
  - rewrite (m4l_download_chapter_images_run _ _ _ 0 i _ _ _ Hfc Hresolve).
    simpl. eexists _, _. reflexivity.
  - rewrite (m4l_download_chapter_images_absent _ _ _ 0 i _ _ Hfc Hresolve).
    eexists _, _. reflexivity.
Qed.

Lemma empty_fetch_pass self plan chapters :
  (forall c, In c chapters ->
     plan !! c = Some 0 /\ exists fc, format_chapter_number c = Ok fc) ->
  forall i w,
    exists w',
      m4l.fetch_pass self plan i chapters w = (Ok tt, w')
      /\ files w' = files w /\ frames w' = frames w.
Proof.
  induction chapters as [|c rest IH]; intros Hall i w; simpl.
  - exists w. repeat split.
  - destruct (Hall c (or_introl eq_refl)) as [Hn [fc Hfc]].
    rewrite Hn. unfold bind at 1. unfold ret at 1.
    destruct (empty_chapter_returns self c fc i w Hfc) as [b [w1 Hrun]].
    pose proof (empty_chapter_keeps_files self c i w) as [Hfiles Hframes].
    rewrite Hrun in Hfiles, Hframes. unfold keeps in Hfiles, Hframes.
    cbn [snd] in Hfiles, Hframes.
    rewrite (bind_ok _ _ _ _ _ Hrun).
    destruct (IH (fun c' H => Hall c' (or_intror H)) (S i) w1)
      as [w' [Hrest [Hfiles' Hframes']]].
    exists w'. split; [exact Hrest|]. split; congruence.
Qed.

(** X18.  A batch of m4l.py in which the counting pass finds no page at
    all, the empty batch for one, and which is confirmed at the gate,
    ends with [ZeroDivisionError]: the fetch pass fetches nothing, the
    forced completion of the bar divides by the total, and the title is
    not entered in the ledger. *)
Theorem batch_without_pages_fails (self : downloader) (fuel : nat)
    (chapters : list string) (user_input : string) (plan : gmap string nat)
    (w w1 : world) :
  m4l.counting_pass self fuel chapters ∅ (put_total 0 w) = (Ok plan, w1) ->
  total_chapters_pages w1 = Some 0 ->
  proceeds user_input = true ->
  exists w',
    m4l.download_chapters self fuel chapters user_input w
    = (Raise ZeroDivisionError, w')
    /\ history_file w' = history_file w
    /\ files w' = files w
    /\ frames w' = frames w.
Proof.
  intros Hcount Htotal Hgo.
  destruct (m4l_counting_pass_totals self fuel chapters _ _ _ _ 0 Hcount eq_refl)
    as [T [HT [_ [_ [Hin _]]]]].
  assert (T = 0) as -> by congruence.
  destruct (m4l_counting_pass_returns self fuel chapters _ _ _ _ Hcount)
    as [Hformats _].
  destruct (empty_fetch_pass self plan chapters) with (i := 0) (w := w1)
    as [w2 [Hfetch [Hfiles Hframes]]].
  { intros c Hc. split; [|exact (proj2 (Hformats c Hc))].
    destruct (Hin c Hc) as [n [Hn Hle]]. rewrite Hn. f_equal. lia. }
  pose proof (m4l_counting_pass_counting_frame self fuel chapters ∅ (put_total 0 w))
    as [Hf1 [Hh1 [Hd1 _]]].
  rewrite Hcount in Hf1, Hh1, Hd1. unfold keeps in Hf1, Hh1, Hd1.
  cbn [snd] in Hf1, Hh1, Hd1.
  pose proof (m4l_fetch_pass_keeps_history self plan 0 chapters w1) as Hh2.
  pose proof (m4l_fetch_pass_keeps_total self plan 0 chapters w1) as Ht2.
  rewrite Hfetch in Hh2, Ht2. unfold keeps in Hh2, Ht2. cbn [snd] in Hh2, Ht2.
  exists w2. split.
  - unfold m4l.download_chapters. unfold bind at 1, modify.
    rewrite (bind_ok _ _ _ _ _ Hcount), Hgo. cbn [negb].
    rewrite (bind_ok _ _ _ _ _ Hfetch).
    unfold m4l.read_total, gets. unfold bind at 1. unfold bind at 1.
    rewrite Ht2, Htotal. reflexivity.
  - split; [rewrite Hh2, Hh1; reflexivity|].
    split; [rewrite Hfiles, Hf1; reflexivity|].
    rewrite Hframes, Hd1. reflexivity.
Qed.

Lemma batch_without_pages_fails_witness :
  let w := initial_world one_page_server in
  exists w',
    m4l.download_chapters one_piece 5 [] "y" w = (Raise ZeroDivisionError, w')
    /\ history_file w' = history_file w
    /\ files w' = files w
    /\ frames w' = frames w.
Proof.
  intros w.
  apply (batch_without_pages_fails one_piece 5 [] "y" ∅ w (put_total 0 w));
    reflexivity.
Defined.

(** ** When the ledger is written *)

Lemma M4L2_download_chapter_images_keeps_history self fuel c :
  stable (keeps history_file) (M4L2.download_chapter_images self fuel c).
Proof.
  assert (forall fc addr png n,
             stable (keeps history_file) (probe_loop self fuel fc addr png n)).
  { induction fuel as [|fuel' IH]; intros fc addr png n; simpl;
      stable_with frame_leaf. }
  frame_method.
Qed.

Lemma M4L2_fetch_pass_keeps_history self fuel chapters :
  stable (keeps history_file) (M4L2.fetch_pass self fuel chapters).
Proof.
  pose proof (M4L2_download_chapter_images_keeps_history self fuel).
  frame_method.
Qed.

(** X19.  The ledger is written once, at the very end: a batch that
    returns after a confirmed fetch pass has entered the title with
    [save_history]; a batch that is not confirmed, or that ends with an
    exception or out of steps, in either pass, leaves the ledger as it
    was.  This holds for both files. *)
Theorem ledger_is_written_last (self : downloader) (fuel : nat)
    (chapters : list string) (user_input : string) (w : world) :
  let recorded :=
    Some (append_history (default EmptyString (history_file w)) (manga_name self)) in
  let after (run : result unit * world) :=
    history_file (snd run)
    = match fst run with
      | Ok _ => if proceeds user_input then recorded else history_file w
      | _ => history_file w
      end in
  after (m4l.download_chapters self fuel chapters user_input w)
  /\ after (M4L2.download_chapters self fuel chapters user_input w).
Proof.
  cbv zeta. split.
  - destruct (m4l.download_chapters self fuel chapters user_input w)
      as [r w'] eqn:Hrun.
    cbn [fst snd]. unfold m4l.download_chapters in Hrun.
    unfold bind at 1, modify in Hrun.
    pose proof (m4l_counting_pass_counting_frame self fuel chapters ∅ (put_total 0 w))
      as [_ [Hh1 _]].
    unfold keeps in Hh1. simpl history_file in Hh1. unfold bind at 1 in Hrun.
    destruct (m4l.counting_pass self fuel chapters ∅ (put_total 0 w))
      as [[plan| |] w1]; cbn [fst snd] in *;
      try (injection Hrun as <- <-; exact Hh1).
    destruct (proceeds user_input); cbn [negb] in Hrun;
      [|injection Hrun as <- <-; exact Hh1].
    pose proof (m4l_fetch_pass_keeps_history self plan 0 chapters w1) as Hh2.
    unfold keeps in Hh2. unfold bind at 1 in Hrun.
    destruct (m4l.fetch_pass self plan 0 chapters w1) as [[[]| |] w2];
      cbn [fst snd] in *; try (injection Hrun as <- <-; congruence).
    unfold m4l.read_total, gets in Hrun. unfold bind at 1 in Hrun.
    unfold bind at 1 in Hrun.
    destruct (total_chapters_pages w2) as [T|];
      [|injection Hrun as <- <-; congruence].
    unfold ret at 1 in Hrun. unfold bind at 1 in Hrun.
    unfold m4l.colorful_progress_bar in Hrun.
    destruct (Nat.eqb T 0); [injection Hrun as <- <-; congruence|].
    unfold modify at 1, save_history, modify in Hrun.
    injection Hrun as <- <-. simpl. rewrite Hh2, Hh1. reflexivity.
  - destruct (M4L2.download_chapters self fuel chapters user_input w)
      as [r w'] eqn:Hrun.
    cbn [fst snd]. unfold M4L2.download_chapters in Hrun.
    pose proof (M4L2_counting_pass_counting_frame self fuel chapters ∅ w)
      as [_ [Hh1 _]].
    unfold keeps in Hh1. unfold bind at 1 in Hrun.
    destruct (M4L2.counting_pass self fuel chapters ∅ w)
      as [[plan| |] w1]; cbn [fst snd] in *;
      try (injection Hrun as <- <-; exact Hh1).
    destruct (proceeds user_input); cbn [negb] in Hrun;
      [|injection Hrun as <- <-; exact Hh1].
    pose proof (M4L2_fetch_pass_keeps_history self fuel chapters w1) as Hh2.
    unfold keeps in Hh2. unfold bind at 1 in Hrun.
    destruct (M4L2.fetch_pass self fuel chapters w1) as [[[]| |] w2];
      cbn [fst snd] in *; try (injection Hrun as <- <-; congruence).
    unfold save_history, modify in Hrun.
    injection Hrun as <- <-. simpl. rewrite Hh2, Hh1. reflexivity.
Qed.

(** ** The files of a batch *)

Global Instance writes_only_preorder (P : path -> Prop) : PreOrder (writes_only P).
Proof.
  split.
  - intros w p _. reflexivity.
  - intros a b c Hab Hbc p Hp. rewrite (Hbc p Hp). exact (Hab p Hp).
Qed.


















(** ** The bar that is drawn *)

(** X21.  With a total that is not zero, [colorful_progress_bar] draws one
    frame; its bar has exactly fifty cells, of which the filled ones are
    the whole fiftieths of the total that the position has reached; it
    is full when the position has reached the total, whatever the excess,
    and only then. *)
Theorem bar_has_fifty_cells (current total : nat) (w : world) :
  total <> 0 ->
  let frame := (Nat.min current total, total) in
  m4l.colorful_progress_bar current total w = (Ok tt, add_frame frame w)
  /\ length (bar frame) = 50
  /\ filled_length frame * total <= 50 * current
  /\ (filled_length frame = 50 <-> total <= current).
Proof.
  intros Htotal. cbv zeta.
  split.
  { unfold m4l.colorful_progress_bar. apply Nat.eqb_neq in Htotal.
    rewrite Htotal. reflexivity. }
  unfold bar, filled_length, bar_length. cbn [fst snd].
  assert (Hle : 50 * Nat.min current total / total <= 50).
  { apply Nat.Div0.div_le_upper_bound. nia. }
  split; [rewrite length_app, !length_replicate; lia|].
  split.
  { pose proof (Nat.Div0.mul_div_le (50 * Nat.min current total) total). nia. }
  split.
  - intros H. destruct (le_lt_dec total current) as [Hc | Hc]; [exact Hc|].
    exfalso. rewrite Nat.min_l in H by lia.
    assert (50 * current / total < 50) by (apply Nat.Div0.div_lt_upper_bound; nia).
    lia.
  - intros H. rewrite Nat.min_r by exact H.
    apply Nat.div_mul. exact Htotal.
Qed.

Lemma bar_has_fifty_cells_witness :
  let w := initial_world empty_server in
  m4l.colorful_progress_bar 3 4 w = (Ok tt, add_frame (3, 4) w)
  /\ length (bar (3, 4)) = 50
  /\ filled_length (3, 4) * 4 <= 50 * 3
  /\ (filled_length (3, 4) = 50 <-> 4 <= 3).
Proof. intros w. apply (bar_has_fifty_cells 3 4 w). discriminate. Defined.

(** ** The answer at the gate *)

Lemma blank_rev_onto s acc : blank (rev_onto s acc) = blank s && blank acc.
Proof.
  revert acc. induction s as [|c r IH]; intros acc; [reflexivity|].
  simpl. rewrite IH. simpl. destruct (is_space c), (blank r); reflexivity.
Qed.

Lemma string_rev_app a b : string_rev (a +:+ b) = string_rev b +:+ string_rev a.
Proof.
  induction a as [|c a IH].
  - change (EmptyString +:+ b) with b. symmetry. apply string_app_nil_r.
  - rewrite string_app_cons. unfold string_rev at 1 3. simpl.
    rewrite !rev_onto_app, IH, string_app_assoc. reflexivity.
Qed.

(** [str.strip] removes white space from the two ends, and nothing
    else. *)
Lemma strip_inv s :
  exists ws1 ws2,
    blank ws1 = true /\ blank ws2 = true /\ s = ws1 +:+ strip s +:+ ws2.
Proof.
  destruct (lstrip_inv s) as [ws1 [H1 Hs]].
  destruct (lstrip_inv (string_rev (lstrip s))) as [ws2 [H2 Hr]].
  exists ws1, (string_rev ws2). split; [exact H1|]. split.
  - unfold string_rev. rewrite blank_rev_onto, H2. reflexivity.
  - unfold strip. rewrite <- string_rev_app, <- Hr, string_rev_involutive.
    exact Hs.
Qed.

Lemma strip_padded ws1 c ws2 :
  blank ws1 = true -> blank ws2 = true -> is_space c = false ->
  strip (ws1 +:+ String c ws2) = String c EmptyString.
Proof.
  intros H1 H2 Hc. unfold strip. rewrite (lstrip_blank_app _ _ _ H1 Hc).
  unfold string_rev at 2. simpl. rewrite rev_onto_app.
  rewrite lstrip_blank_app; [reflexivity | | exact Hc].
  unfold string_rev. rewrite blank_rev_onto, H2. reflexivity.
Qed.

(** X22.  The batch goes on exactly when the line typed at the gate is the
    single letter Y, in upper or lower case, with any white space before
    and after it; every other answer, the empty one and a longer word
    included, ends the batch. *)
Theorem gate_reads_one_letter (user_input : string) :
  proceeds user_input = true
  <-> exists ws1 ws2 letter,
        blank ws1 = true /\ blank ws2 = true
        /\ (letter = "Y" \/ letter = "y")
        /\ user_input = ws1 +:+ letter +:+ ws2.
Proof.
  rewrite proceeds_iff. split.
  - intros H. destruct (strip_inv user_input) as [ws1 [ws2 [H1 [H2 Hs]]]].
    exists ws1, ws2, (strip user_input). tauto.
  - intros [ws1 [ws2 [letter [H1 [H2 [[-> | ->] ->]]]]]].
    + left. apply (strip_padded ws1 _ ws2 H1 H2). reflexivity.
    + right. apply (strip_padded ws1 _ ws2 H1 H2). reflexivity.
Qed.

(** ** What a count costs *)

(** X23.  A count of [n] pages costs one or two requests for the viewer
    page and then, when a token was found, [n + 1] probes, one per page
    and one for the page that is not there; without a token no probe is
    sent and the count is 0.  No other request is made. *)
Theorem counting_costs_one_probe_more (self : downloader) (fuel : nat)
    (chapter : string) (n : nat) (w w' : world) :
  count_pages_in_chapter self fuel chapter w = (Ok n, w') ->
  exists viewer probes,
    requests w' = requests w ++ viewer ++ probes
    /\ Forall viewer_request viewer /\ 1 <= length viewer <= 2
    /\ Forall probe_request probes
    /\ (length probes = S n \/ (probes = [] /\ n = 0)).
Proof.
  unfold count_pages_in_chapter.
  destruct (format_chapter_number chapter) as [fc| |] eqn:Hfc; try discriminate.
  rewrite (bind_lift_ok _ _ _ _ eq_refl).
  pose proof (format_chapter_number_idempotent _ _ Hfc) as Hfc2.
  unfold bind at 1.
  pose proof (extract_text_from_url_run self fc fc w Hfc2) as Hrun.
  cbv zeta in Hrun. cbn [snd] in Hrun.
  assert (Hviewer : exists viewer,
             requests (snd (extract_text_from_url self fc w)) = requests w ++ viewer
             /\ Forall viewer_request viewer /\ 1 <= length viewer <= 2).
  { rewrite Hrun.
    destruct (server w (length (requests w)) (viewer_url self fc ""))
      as [status body| |status].
    - destruct (Nat.eqb status 200).
      + destruct (extract_text_from_html body).
        * eexists [_]. split; [reflexivity|].
          split; [repeat constructor|simpl; lia].
        * eexists [_; _]. split; [simpl; rewrite <- app_assoc; reflexivity|].
          split; [repeat constructor; right; reflexivity|simpl; lia].
      + eexists [_]. split; [reflexivity|].
        split; [repeat constructor|simpl; lia].
    - eexists [_]. split; [reflexivity|].
      split; [repeat constructor|simpl; lia].
    - eexists [_]. split; [reflexivity|].
      split; [repeat constructor|simpl; lia]. }
  destruct (extract_text_from_url self fc w) as [[token| |] w1];
    try discriminate.
  cbn [snd] in Hviewer. destruct Hviewer as [viewer [Hreq [Hall Hlen]]].
  destruct (truthy token) as [address|].
  - intros Hloop.
    destruct (probe_loop_requests self fc address fuel 1 0 w1 n w' Hloop)
      as [probes [Hreq2 [Hall2 Hlen2]]].
    exists viewer, probes. split; [rewrite Hreq2, Hreq, app_assoc; reflexivity|].
    split; [exact Hall|]. split; [exact Hlen|]. split; [exact Hall2|].
    left. simpl in Hlen2. exact Hlen2.
  - intros H. injection H as <- <-. exists viewer, [].
    split; [rewrite app_nil_r; exact Hreq|].
    split; [exact Hall|]. split; [exact Hlen|]. split; [constructor|].
    right. split; reflexivity.
Qed.

Lemma counting_costs_one_probe_more_witness :
  let w := initial_world two_page_server in
  exists viewer probes,
    requests (snd (count_pages_in_chapter one_piece 5 "1" w))
    = requests w ++ viewer ++ probes
    /\ Forall viewer_request viewer /\ 1 <= length viewer <= 2
    /\ Forall probe_request probes
    /\ (length probes = 3 \/ (probes = [] /\ 2 = 0)).
Proof.
  intros w.
  apply (counting_costs_one_probe_more one_piece 5 "1" 2 w
           (snd (count_pages_in_chapter one_piece 5 "1" w))).
  vm_compute. reflexivity.
Defined.

(** ** Reading the ledger *)

(** X24.  [load_history] only reads: it returns the text of the ledger,
    or nothing when there is no ledger file, and leaves the world as it
    is.  Read after [save_history], on a ledger whose lines are closed
    by a newline and for a title that fits on a line, the text has the
    title as one of its lines. *)
Theorem saved_title_is_shown (name : string) (w : world) :
  single_line name = true ->
  newline_terminated (default EmptyString (history_file w)) = true ->
  (forall w0, snd (load_history w0) = w0)
  /\ (forall w0, history_file w0 = None -> fst (load_history w0) = Ok None)
  /\ exists text,
       fst (load_history (snd (save_history name w))) = Ok (Some text)
       /\ In name (splitlines text).
Proof.
  intros Hname Hledger.
  split; [intros w0; reflexivity|].
  split; [intros w0 H; unfold load_history, gets; rewrite H; reflexivity|].
  eexists. split; [reflexivity|].
  fold (ledger_lines (append_history (default EmptyString (history_file w)) name)).
  rewrite append_history_lines by assumption.
  destruct (mem_string name (ledger_lines (default EmptyString (history_file w))))
    eqn:Hm.
  - apply mem_string_In. exact Hm.
  - apply in_or_app. right. left. reflexivity.
Qed.

Lemma saved_title_is_shown_witness :
  let w := initial_world empty_server in
  (forall w0, snd (load_history w0) = w0)
  /\ (forall w0, history_file w0 = None -> fst (load_history w0) = Ok None)
  /\ exists text,
       fst (load_history (snd (save_history "One Piece" w))) = Ok (Some text)
       /\ In "One Piece" (splitlines text).
Proof.
  intros w. apply (saved_title_is_shown "One Piece" w); reflexivity.
Defined.

(** ** The URL of a page *)

Lemma format_literal_braceless s :
  lacks lbrace s = true -> lacks rbrace s = true -> format_literal s = Some s.
Proof.
  induction s as [|c r IH]; simpl; [reflexivity|]. intros Hl Hr.
  apply andb_true_iff in Hl as [Hcl Hl]. apply andb_true_iff in Hr as [Hcr Hr].
  apply negb_true_iff in Hcl, Hcr. rewrite Hcl, Hcr. simpl.
  rewrite (IH Hl Hr). reflexivity.
Qed.

(** X25.  For a routing token without braces, the URL of page [p] of a
    chapter is the token as the host, then the path manga, the slug, and
    the formatted chapter number joined by a hyphen to the page number,
    which is written with at least three digits and reads back as [p]. *)
Theorem image_url_of_a_plain_token (slug fc address : string) (p : nat) :
  lacks lbrace address = true -> lacks rbrace address = true ->
  generate_image_url slug fc p address
  = Ok ("https://" +:+ address +:+ "/manga/" +:+ slug +:+ "/" +:+ fc +:+ "-"
        +:+ format_0d 3 (Z.of_nat p) +:+ ".png")
  /\ py_int (format_0d 3 (Z.of_nat p)) = Some (Z.of_nat p)
  /\ 3 <= String.length (format_0d 3 (Z.of_nat p)).
Proof.
  intros Hl Hr. unfold generate_image_url.
  rewrite (format_literal_braceless _ Hl Hr).
  split; [reflexivity|]. split; [apply py_int_format_0d|].
  unfold format_0d. assert (Hp : (Z.of_nat p <? 0)%Z = false) by (apply Z.ltb_ge; lia).
  rewrite Hp, length_zfill. lia.
Qed.

Lemma image_url_of_a_plain_token_witness :
  generate_image_url "One-Piece" "0001" 7 "h.example"
  = Ok "https://h.example/manga/One-Piece/0001-007.png"
  /\ py_int (format_0d 3 7) = Some 7%Z
  /\ 3 <= String.length (format_0d 3 7).
Proof.
  apply (image_url_of_a_plain_token "One-Piece" "0001" "h.example" 7); reflexivity.
Defined.

(** ** Chapter numbers with a decimal part *)

(** X26.  Of a chapter number with one dot, only the part before the dot
    is read as a number and padded; the part after it is kept as it was
    typed, whatever it is.  A chapter number with two dots is refused
    with [ValueError]. *)
Theorem decimal_part_is_kept (n : Z) (decimal_part more : string) :
  dotless decimal_part = true ->
  format_chapter_number (py_str n +:+ String dot decimal_part)
  = Ok (format_0d 4 n +:+ String dot decimal_part)
  /\ format_chapter_number
       (py_str n +:+ String dot (decimal_part +:+ String dot more))
     = Raise ValueError.
Proof.
  intros Hd. unfold format_chapter_number. split.
  - rewrite split_on_app by apply numeral_dotless, numeral_py_str.
    rewrite (split_on_dotless _ Hd), py_int_py_str. reflexivity.
  - rewrite split_on_app by apply numeral_dotless, numeral_py_str.
    rewrite (split_on_app _ _ Hd).
    pose proof (split_on_nonempty dot more) as Hmore.
    destruct (split_on dot more); [congruence | reflexivity].
Qed.

Lemma decimal_part_is_kept_witness :
  format_chapter_number "10.5" = Ok "0010.5"
  /\ format_chapter_number "10.5.1" = Raise ValueError.
Proof. apply (decimal_part_is_kept 10 "5" "1"). reflexivity. Defined.

(** ** A transport failure while probing *)

Lemma probe_failure_in_the_count self fuel chapter fc address url w w1 :
  format_chapter_number chapter = Ok fc ->
  extract_text_from_url self fc w = (Ok (Some address), w1) ->
  generate_image_url (formatted_manga_name self) fc 1 address = Ok url ->
  server w1 (length (requests w1)) url = Unreachable ->
  count_pages_in_chapter self (S fuel) chapter w
  = (Raise ClientError, log_request (ProbePage, url) w1).
Proof.
  intros Hfc Hresolve Hurl Hget. unfold count_pages_in_chapter.
  rewrite (bind_lift_ok _ _ _ _ Hfc), (bind_ok _ _ _ _ _ Hresolve).
  rewrite (resolved_token_is_truthy _ _ _ _ _ Hresolve). simpl probe_loop.
  rewrite (bind_lift_ok _ _ _ _ Hurl).
  rewrite (bind_raise _ _ _ _ _ (session_get_unreachable _ _ _ Hget)).
  reflexivity.
Qed.

(** The resolver does not look at the module global. *)
Lemma extract_text_from_url_put_total self fc n w token w1 :
  format_chapter_number fc = Ok fc ->
  extract_text_from_url self fc w = (Ok token, w1) ->
  extract_text_from_url self fc (put_total n w) = (Ok token, put_total n w1).
Proof.
  intros Hfc. rewrite !(extract_text_from_url_run self fc fc _ Hfc). cbv zeta.
  cbn [server requests put_total snd].
  destruct (server w (length (requests w)) (viewer_url self fc ""))
    as [status body| |status].
  - destruct (Nat.eqb status 200).
    + destruct (extract_text_from_html body);
        intros H; injection H as <- <-; reflexivity.
    + intros H; injection H as <- <-; reflexivity.
  - intros H; injection H as <- <-; reflexivity.
  - intros H; injection H as <- <-; reflexivity.
Qed.

(** X27.  A transport failure while probing is not contained: the probe
    of [count_pages_in_chapter] has no handler, unlike the requests of
    the resolver and of [download_image].  When the first probe of a
    chapter fails in transport, the count ends with [ClientError] after
    that one probe, and so does the batch of either file that starts
    with this chapter, in its counting pass. *)
Theorem probe_failure_is_not_contained (self : downloader) (fuel : nat)
    (chapter fc address url : string) (rest : list string)
    (user_input : string) (w w1 : world) :
  format_chapter_number chapter = Ok fc ->
  extract_text_from_url self fc w = (Ok (Some address), w1) ->
  generate_image_url (formatted_manga_name self) fc 1 address = Ok url ->
  server w1 (length (requests w1)) url = Unreachable ->
  count_pages_in_chapter self (S fuel) chapter w
  = (Raise ClientError, log_request (ProbePage, url) w1)
  /\ m4l.download_chapters self (S fuel) (chapter :: rest) user_input w
     = (Raise ClientError, put_total 0 (log_request (ProbePage, url) w1))
  /\ M4L2.download_chapters self (S fuel) (chapter :: rest) user_input w
     = (Raise ClientError, log_request (ProbePage, url) w1).
Proof.
  intros Hfc Hresolve Hurl Hget.
  pose proof (probe_failure_in_the_count self fuel chapter fc address url w w1
                Hfc Hresolve Hurl Hget) as Hcount.
  split; [exact Hcount|]. split.
  - unfold m4l.download_chapters. unfold bind at 1, modify.
    pose proof (extract_text_from_url_put_total self fc 0 w _ w1
                  (format_chapter_number_idempotent _ _ Hfc) Hresolve) as Hresolve0.
    pose proof (probe_failure_in_the_count self fuel chapter fc address url
                  (put_total 0 w) (put_total 0 w1) Hfc Hresolve0 Hurl Hget) as Hcount0.
    unfold bind at 1. simpl m4l.counting_pass.
    rewrite (bind_raise _ _ _ _ _ Hcount0). reflexivity.
  - unfold M4L2.download_chapters. unfold bind at 1. simpl M4L2.counting_pass.
    rewrite (bind_raise _ _ _ _ _ Hcount). reflexivity.
Qed.

Lemma probe_failure_is_not_contained_witness :
  let w := initial_world unreachable_images_server in
  let w1 := log_request (ViewerPage, viewer_url one_piece "0001" "") w in
  let url := "https://h.example/manga/One-Piece/0001-001.png" in
  count_pages_in_chapter one_piece 5 "1" w
  = (Raise ClientError, log_request (ProbePage, url) w1)
  /\ m4l.download_chapters one_piece 5 ["1"; "2"] "Y" w
     = (Raise ClientError, put_total 0 (log_request (ProbePage, url) w1))
  /\ M4L2.download_chapters one_piece 5 ["1"; "2"] "Y" w
     = (Raise ClientError, log_request (ProbePage, url) w1).
Proof.
  intros w w1 url.
  apply (probe_failure_is_not_contained one_piece 4 "1" "0001" "h.example" url
           ["2"] "Y" w w1);
    reflexivity.
Defined.
